(** * Agent Definition Format: the workflow executor and the elicitation services

    A shallow embedding of
      - [workflow-executor.ts] (the Effect-based executor: [validateWorkflow],
        [executeState], [step], [execute], [evaluateCondition],
        [matchesPattern]),
      - [elicitation.service.ts] ([validateResponse], [transformResponse]),
      - [runtime/elicitation-workaround.ts] ([createElicitation],
        [handleResponse] and the timeout callback),
    followed by the properties the specification states about them.

    Conventions of the embedding.
      - A JavaScript string is a [string]: a sequence of code units below 256.
      - A JavaScript number is a [JsNum]: an integer (of the safe range,
        where arithmetic and printing are exact), [NaN] or one of the two
        infinities.  Numbers with a fractional part are outside the model.
      - A JavaScript object used as a record ([Record<string, any>],
        [z.record]) is an association list with unique keys, listed in the
        order [Object.entries] enumerates them.  [get] and [has] look a
        key up among the object's own keys.  On a plain object [obj[name]]
        also finds the members of [Object.prototype] ([proto_member]); a
        property that depends on a name being absent states, as a
        hypothesis, that the name is none of them.
      - [Effect.all] with unbounded concurrency is followed in the order
        the effects are listed, each to its end ([all_branches]); the
        properties of parallel states are stated for the cases in which
        the order does not matter: a single branch, and branches that
        neither store nor call a service.
      - What the ECMAScript engine supplies ([Number] on strings and [RegExp])
        is a parameter, the class [JsEngine]; [RefEngine] is one instance, used
        to evaluate examples.
      - The Effect services the executor is given (elicitation, sampling, tool
        handlers, clock) are a parameter as well, the class [Services]; they
        transform an abstract world [W].  [TestLayers] is the instance the
        repository's own test suite uses. *)

From Stdlib Require Import String Ascii List ZArith Bool Lia DecimalString.
Import ListNotations.
Open Scope string_scope.
Open Scope Z_scope.

Set Implicit Arguments.

(* ================================================================== *)
(** * JavaScript values *)

Inductive JsNum : Type :=
| NaN
| PosInf
| NegInf
| Fin (z : Z).

#[warnings="-register-all"]
Inductive JsValue : Type :=
| JUndefined
| JNull
| JBool (b : bool)
| JNum (n : JsNum)
| JStr (s : string)
| JArr (xs : list JsValue)
| JObj (fields : list (string * JsValue)).

(** [isNaN] and [isFinite] on numbers. *)
Definition isNaN (n : JsNum) : bool :=
  match n with NaN => true | _ => false end.

Definition isFinite (n : JsNum) : bool :=
  match n with Fin _ => true | _ => false end.

(** [a < b]; [false] as soon as one side is [NaN]. *)
Definition num_ltb (a b : JsNum) : bool :=
  match a, b with
  | NaN, _ | _, NaN => false
  | _, NegInf => false
  | NegInf, _ => true
  | PosInf, _ => false
  | Fin _, PosInf => true
  | Fin x, Fin y => x <? y
  end.

(** [a > b], [a >= b] and [a == b] on numbers. *)
Definition num_gtb (a b : JsNum) : bool := num_ltb b a.

Definition num_geb (a b : JsNum) : bool :=
  negb (isNaN a || isNaN b) && negb (num_ltb a b).

Definition num_eqb (a b : JsNum) : bool :=
  match a, b with
  | PosInf, PosInf | NegInf, NegInf => true
  | Fin x, Fin y => x =? y
  | _, _ => false
  end.

(** [n - 1]. *)
Definition num_pred (n : JsNum) : JsNum :=
  match n with Fin z => Fin (z - 1) | other => other end.


(** [String(n)] for a number. *)
Definition NumberToString (n : JsNum) : string :=
  match n with
  | NaN => "NaN"
  | PosInf => "Infinity"
  | NegInf => "-Infinity"
  | Fin z => NilZero.string_of_int (Z.to_int z)
  end.

(** [xs.join(sep)] for an array of strings. *)
Definition join (sep : string) (xs : list string) : string :=
  String.concat sep xs.

(** [String(v)].  An array joins its elements with a comma, [null] and
    [undefined] elements giving the empty string; a plain object gives
    ["[object Object]"]. *)
Fixpoint ToString (v : JsValue) : string :=
  match v with
  | JUndefined => "undefined"
  | JNull => "null"
  | JBool true => "true"
  | JBool false => "false"
  | JNum n => NumberToString n
  | JStr s => s
  | JArr xs =>
      join ","
        ((fix elems (l : list JsValue) : list string :=
            match l with
            | [] => []
            | x :: r =>
                match x with
                | JUndefined | JNull => ""
                | _ => ToString x
                end :: elems r
            end) xs)
  | JObj _ => "[object Object]"
  end.

(** [Boolean(v)]. *)
Definition ToBoolean (v : JsValue) : bool :=
  match v with
  | JUndefined | JNull => false
  | JBool b => b
  | JNum NaN => false
  | JNum (Fin z) => negb (z =? 0)
  | JNum _ => true
  | JStr s => negb (String.eqb s "")
  | JArr _ | JObj _ => true
  end.

(** Truthiness of an optional string field: present and not empty. *)
Definition truthy_str (o : option string) : bool :=
  match o with Some s => negb (String.eqb s "") | None => false end.

(** [typeof v === 'string']. *)
Definition is_string (v : JsValue) : bool :=
  match v with JStr _ => true | _ => false end.

(* ------------------------------------------------------------------ *)
(** ** Characters and strings *)

Definition chars (s : string) : list ascii := list_ascii_of_string s.
Definition str (l : list ascii) : string := string_of_list_ascii l.

Definition code (c : ascii) : Z := Z.of_nat (nat_of_ascii c).

(** [\s] of a regular expression, which is also the white space [Number]
    trims. *)
Definition is_space (c : ascii) : bool :=
  let n := code c in
  ((9 <=? n) && (n <=? 13)) || (n =? 32) || (n =? 160).

(** A line terminator, which [.] does not match. *)
Definition is_line_terminator (c : ascii) : bool :=
  let n := code c in (n =? 10) || (n =? 13).

Definition is_digit (c : ascii) : bool :=
  let n := code c in (48 <=? n) && (n <=? 57).

(** [\w]. *)
Definition is_word (c : ascii) : bool :=
  let n := code c in
  is_digit c || ((65 <=? n) && (n <=? 90)) || ((97 <=? n) && (n <=? 122))
  || (n =? 95).

(** [s.toLowerCase()] on code units below 256. *)
Definition lower_char (c : ascii) : ascii :=
  let n := code c in
  if ((65 <=? n) && (n <=? 90))
     || ((192 <=? n) && (n <=? 222) && negb (n =? 215))
  then ascii_of_nat (Z.to_nat (n + 32)) else c.

Definition toLowerCase (s : string) : string := str (map lower_char (chars s)).

(** [span p l]: the longest prefix of [l] satisfying [p], and the rest. *)
Fixpoint span (p : ascii -> bool) (l : list ascii) : list ascii * list ascii :=
  match l with
  | [] => ([], [])
  | c :: r =>
      if p c then let (a, b) := span p r in (c :: a, b) else ([], l)
  end.

(** [p] is a prefix of [l]. *)
Fixpoint is_prefix (p l : list ascii) : bool :=
  match p, l with
  | [], _ => true
  | a :: p', b :: l' => Ascii.eqb a b && is_prefix p' l'
  | _ :: _, [] => false
  end.

(** [s.trim()]. *)
Definition trim_chars (l : list ascii) : list ascii :=
  rev (snd (span is_space (rev (snd (span is_space l))))).

(** [s.includes(c)] for a one-character [c]. *)
Definition includes (c : ascii) (s : string) : bool :=
  existsb (Ascii.eqb c) (chars s).

(** [xs.includes(x)] for an array of strings. *)
Definition array_includes (x : string) (xs : list string) : bool :=
  existsb (String.eqb x) xs.

(** [s.startsWith(c)] and [s.endsWith(c)] for a one-character [c]. *)
Definition startsWith (c : ascii) (s : string) : bool :=
  match chars s with x :: _ => Ascii.eqb x c | [] => false end.

Definition endsWith (c : ascii) (s : string) : bool :=
  match rev (chars s) with x :: _ => Ascii.eqb x c | [] => false end.

(** [s.slice(1, -1)]. *)
Definition slice_1_m1 (s : string) : string :=
  match chars s with
  | [] => ""
  | _ :: r => str (removelast r)
  end.

(* ------------------------------------------------------------------ *)
(** ** Objects used as records *)

Definition Dict (A : Type) : Type := list (string * A).

(** [d[k]] among the keys the object has itself: [None] stands for
    [undefined].  On a plain object the lookup also finds the members of
    [Object.prototype] ([proto_member], below); on a [Map], this is
    [Map.get]. *)
Fixpoint get {A : Type} (k : string) (d : Dict A) : option A :=
  match d with
  | [] => None
  | (k', v) :: r => if String.eqb k' k then Some v else get k r
  end.

(** [d[k] = v]: an existing key keeps its place, a new one goes last. *)
Fixpoint set {A : Type} (k : string) (v : A) (d : Dict A) : Dict A :=
  match d with
  | [] => [(k, v)]
  | (k', v') :: r => if String.eqb k' k then (k', v) :: r else (k', v') :: set k v r
  end.

Definition has {A : Type} (k : string) (d : Dict A) : bool :=
  match get k d with Some _ => true | None => false end.

Definition keys {A : Type} (d : Dict A) : list string := map fst d.
Definition values {A : Type} (d : Dict A) : list A := map snd d.

(** [variables[k]] as a value: a missing key reads [undefined]. *)
Definition read (k : string) (d : Dict JsValue) : JsValue :=
  match get k d with Some v => v | None => JUndefined end.

(** The names of the members of [Object.prototype]: what [obj[name]]
    finds on a plain object that has no key [name] of its own (a function,
    or the prototype itself for [__proto__]; a truthy value in each
    case). *)
Definition object_prototype_members : list string :=
  ["constructor"; "toString"; "toLocaleString"; "valueOf"; "hasOwnProperty";
   "isPrototypeOf"; "propertyIsEnumerable"; "__proto__"; "__defineGetter__";
   "__defineSetter__"; "__lookupGetter__"; "__lookupSetter__"].

Definition proto_member (k : string) : bool :=
  array_includes k object_prototype_members.

(* ------------------------------------------------------------------ *)
(** ** What the engine supplies *)

(** [StringToNumber s] is [Number(s)] for a string.
    [RegExp_test src s] is [new RegExp(src).test(s)], and
    [RegExp_replace_g src s r] is [s.replace(new RegExp(src, 'g'), r)];
    [None] stands for the [SyntaxError] the constructor throws. *)
Class JsEngine : Type := {
  StringToNumber : string -> JsNum;
  RegExp_test : string -> string -> option bool;
  RegExp_replace_g : string -> string -> string -> option string
}.

Section Conversions.
Context {E : JsEngine}.

(** [Number(v)].  An array or object is first converted to its string. *)
Definition ToNumber (v : JsValue) : JsNum :=
  match v with
  | JUndefined => NaN
  | JNull => Fin 0
  | JBool true => Fin 1
  | JBool false => Fin 0
  | JNum n => n
  | JStr s => StringToNumber s
  | JArr _ | JObj _ => StringToNumber (ToString v)
  end.

(** [v == c] where [c] is a number. *)
Definition loose_eq_num (v : JsValue) (c : JsNum) : bool :=
  match v with
  | JUndefined | JNull => false
  | _ => num_eqb (ToNumber v) c
  end.

(** [v == c] where [c] is a string. *)
Definition loose_eq_str (v : JsValue) (c : string) : bool :=
  match v with
  | JUndefined | JNull => false
  | JBool _ | JNum _ => num_eqb (ToNumber v) (StringToNumber c)
  | JStr _ | JArr _ | JObj _ => String.eqb (ToString v) c
  end.

(** [v < c] and [c < v]: two strings compare by code units, anything else
    as numbers. *)
Definition rel_lt (a b : JsValue) : bool :=
  let prim v := match v with JArr _ | JObj _ => JStr (ToString v) | _ => v end in
  match prim a, prim b with
  | JStr x, JStr y => String.ltb x y
  | x, y => num_ltb (ToNumber x) (ToNumber y)
  end.

(** [a >= b]: the negation of [a < b] unless that comparison is undefined. *)
Definition rel_ge (a b : JsValue) : bool :=
  let prim v := match v with JArr _ | JObj _ => JStr (ToString v) | _ => v end in
  match prim a, prim b with
  | JStr x, JStr y => negb (String.ltb x y)
  | x, y => num_geb (ToNumber x) (ToNumber y)
  end.
End Conversions.

(* ------------------------------------------------------------------ *)
(** ** A reference engine

    [RefEngine] agrees with ECMAScript on the fragment described with each
    function and is used to evaluate examples only; every general theorem
    below is stated for an arbitrary engine. *)

Module Ref.

Fixpoint digits_value (acc : Z) (l : list ascii) : option Z :=
  match l with
  | [] => Some acc
  | c :: r =>
      if is_digit c then digits_value (acc * 10 + (code c - 48)) r else None
  end.

(** [Number(s)] for the empty string, the infinities and the signed decimal
    integers, white space trimmed; any other string goes to [NaN]
    (numerals with a fraction, an exponent or a radix prefix denote numbers
    outside the model and are not used in any example). *)
Definition StringToNumber (s : string) : JsNum :=
  let t := trim_chars (chars s) in
  if String.eqb (str t) "" then Fin 0
  else if String.eqb (str t) "Infinity" || String.eqb (str t) "+Infinity" then PosInf
  else if String.eqb (str t) "-Infinity" then NegInf
  else
    let '(sign, body) :=
      match t with
      | "+"%char :: r => (1, r)
      | "-"%char :: r => (-1, r)
      | _ => (1, t)
      end in
    match body with
    | [] => NaN
    | _ => match digits_value 0 body with
           | Some n => Fin (sign * n)
           | None => NaN
           end
    end.

(** Regular expressions built from literal characters, identity escapes,
    [.], a postfix [*] on one of these, a leading [^] and a trailing [$].
    Any other source is answered [None]. *)
Inductive Atom : Type := AChar (c : ascii) | AAny.

Definition is_meta (c : ascii) : bool :=
  existsb (Ascii.eqb c) (chars ".+?^${}()|[]\*").

Fixpoint parse_atoms (l : list ascii) : option (list (Atom * bool) * bool) :=
  let cons_atom (a : Atom) (starred : bool) rest :=
    match rest with
    | Some (ats, e) => Some ((a, starred) :: ats, e)
    | None => None
    end in
  match l with
  | [] => Some ([], false)
  | c :: r =>
      if Ascii.eqb c "$" then
        match r with [] => Some ([], true) | _ => None end
      else if Ascii.eqb c "\" then
        match r with
        | e :: r1 =>
            if is_word e then None
            else match r1 with
                 | s :: r2 =>
                     if Ascii.eqb s "*" then cons_atom (AChar e) true (parse_atoms r2)
                     else cons_atom (AChar e) false (parse_atoms r1)
                 | [] => Some ([(AChar e, false)], false)
                 end
        | [] => None
        end
      else if is_meta c && negb (Ascii.eqb c ".") then None
      else
        let a := if Ascii.eqb c "." then AAny else AChar c in
        match r with
        | s :: r2 =>
            if Ascii.eqb s "*" then cons_atom a true (parse_atoms r2)
            else cons_atom a false (parse_atoms r)
        | [] => Some ([(a, false)], false)
        end
  end.

Definition atom_ok (a : Atom) (c : ascii) : bool :=
  match a with
  | AChar x => Ascii.eqb x c
  | AAny => negb (is_line_terminator c)
  end.

Fixpoint match_here (ats : list (Atom * bool)) (to_end : bool)
    (s : list ascii) {struct ats} : bool :=
  match ats with
  | [] => if to_end then match s with [] => true | _ => false end else true
  | (a, false) :: r =>
      match s with
      | c :: s' => atom_ok a c && match_here r to_end s'
      | [] => false
      end
  | (a, true) :: r =>
      (fix star (s : list ascii) : bool :=
         match_here r to_end s
         || match s with
            | c :: s' => atom_ok a c && star s'
            | [] => false
            end) s
  end.

Fixpoint match_anywhere (ats : list (Atom * bool)) (to_end : bool)
    (s : list ascii) : bool :=
  match_here ats to_end s
  || match s with
     | _ :: s' => match_anywhere ats to_end s'
     | [] => false
     end.

Definition RegExp_test (src s : string) : option bool :=
  let '(from_start, body) :=
    match chars src with
    | c :: r => if Ascii.eqb c "^" then (true, r) else (false, c :: r)
    | [] => (false, [])
    end in
  match parse_atoms body with
  | Some (ats, to_end) =>
      Some (if from_start then match_here ats to_end (chars s)
            else match_anywhere ats to_end (chars s))
  | None => None
  end.

(** Every occurrence of the literal [pat] replaced by [rep], left to right. *)
Fixpoint replace_lit (pat rep : list ascii) (skip : nat) (l : list ascii)
    : list ascii :=
  match l with
  | [] => []
  | c :: r =>
      match skip with
      | S k => replace_lit pat rep k r
      | O =>
          if is_prefix pat l
          then rep ++ replace_lit pat rep (length pat - 1) r
          else c :: replace_lit pat rep 0 r
      end
  end.

(** [s.replace(new RegExp(src, 'g'), r)] for the sources the executor
    builds, [{key}] with [key] made of word characters, and a replacement
    without [$]: a key of digits only makes a quantifier with nothing to
    repeat, which the constructor refuses; any other key is a literal. *)
Definition RegExp_replace_g (src s r : string) : option string :=
  match chars src with
  | c :: rest =>
      match rev rest with
      | d :: rkey =>
          let key := rev rkey in
          if Ascii.eqb c "{" && Ascii.eqb d "}" && forallb is_word key
             && negb (existsb (Ascii.eqb "$") (chars r))
          then
            match key with
            | _ :: _ =>
                if forallb is_digit key then None
                else Some (str (replace_lit (chars src) (chars r) 0 (chars s)))
            | [] => Some (str (replace_lit (chars src) (chars r) 0 (chars s)))
            end
          else None
      | [] => None
      end
  | [] => None
  end.

End Ref.

#[export] Instance RefEngine : JsEngine := {
  StringToNumber := Ref.StringToNumber;
  RegExp_test := Ref.RegExp_test;
  RegExp_replace_g := Ref.RegExp_replace_g
}.

(* ================================================================== *)
(** * The schema ([types/adf-schema.ts]) *)

Inductive ElicitationType : Type := confirm | select | text | number.

Module Elicitation.
Record t : Type := {
  type : ElicitationType;
  prompt : string;
  options : option (list string);
  min : option JsNum;
  max : option JsNum;
  pattern : option string;
  required : option bool
}.
End Elicitation.

Module Sampling.
Record t : Type := {
  prompt : string;
  model : option string;
  temperature : option JsNum;
  max_tokens : option JsNum;
  top_p : option JsNum;
  system : option string;
  context : option (list string)
}.
End Sampling.

Inductive StateType : Type :=
| elicitation | sampling | response | tool | conditional | parallel | loop.

Module State.
Record t : Type := {
  type : StateType;
  prompt : option string;
  elicitation : option Elicitation.t;
  sampling : option Sampling.t;
  context : option (list string);
  transitions : option (Dict string);
  template : option string;
  tool : option string;
  parameters : option (Dict JsValue);
  handler : option string;
  condition : option string;
  onTrue : option string;
  onFalse : option string;
  branches : option (list string);
  body : option string;
  maxIterations : option Z
}.
End State.

Module Workflow.
Record t : Type := {
  initial : string;
  states : Dict State.t;
  maxSteps : option Z
}.
End Workflow.

(* ================================================================== *)
(** * The elicitation service ([elicitation.service.ts])

    [validateResponse] and [transformResponse] are the same text in
    [elicitation.service.ts] and in [ElicitationWorkaround]; the Effect version
    fails with a [ValidationError] carrying the message, the class version
    returns [{valid: false, error}] with it. *)

Inductive Verdict : Type :=
| Valid
| Invalid (message : string)
| SyntaxError.

Section ElicitationService.
Context {E : JsEngine}.

(** [bound !== undefined && test(bound)]. *)
Definition defined_and (test : JsNum -> bool) (bound : option JsNum) : bool :=
  match bound with Some b => test b | None => false end.

Definition show_bound (bound : option JsNum) : string :=
  match bound with Some b => NumberToString b | None => "undefined" end.

Definition validateResponse (response : JsValue) (e : Elicitation.t) : Verdict :=
  match Elicitation.type e with
  | text =>
      if negb (is_string response) then Invalid "Response must be a string"
      else if truthy_str (Elicitation.pattern e) then
        let pat := match Elicitation.pattern e with Some p => p | None => "" end in
        match RegExp_test pat (ToString response) with
        | None => SyntaxError
        | Some true => Valid
        | Some false =>
            Invalid ("Response does not match pattern: " ++ pat)
        end
      else Valid
  | number =>
      let num := ToNumber response in
      if isNaN num then Invalid "Response must be a number"
      else if defined_and (num_ltb num) (Elicitation.min e)
      then Invalid ("Response must be >= " ++ show_bound (Elicitation.min e))
      else if defined_and (num_gtb num) (Elicitation.max e)
      then Invalid ("Response must be <= " ++ show_bound (Elicitation.max e))
      else Valid
  | confirm =>
      let normalizedResponse := toLowerCase (ToString response) in
      if negb (array_includes normalizedResponse
                 ["yes"; "no"; "y"; "n"; "true"; "false"])
      then Invalid "Response must be yes/no"
      else Valid
  | select =>
      let listed :=
        match Elicitation.options e with
        | Some os => array_includes (ToString response) os
        | None => false
        end in
      if negb listed then
        let index := num_pred (ToNumber response) in
        let len :=
          match Elicitation.options e with
          | Some os => Z.of_nat (length os)
          | None => 0
          end in
        if isNaN index || num_ltb index (Fin 0) || num_geb index (Fin len)
        then
          Invalid ("Response must be one of: "
                   ++ match Elicitation.options e with
                      | Some os => join ", " os
                      | None => "undefined"
                      end)
        else Valid
      else Valid
  end.

Definition transformResponse (response : JsValue) (e : Elicitation.t) : JsValue :=
  match Elicitation.type e with
  | number => JNum (ToNumber response)
  | confirm =>
      let normalized := toLowerCase (ToString response) in
      JBool (String.eqb normalized "yes" || String.eqb normalized "y"
             || String.eqb normalized "true")
  | select =>
      let index := num_pred (ToNumber response) in
      match index, Elicitation.options e with
      | Fin i, Some os =>
          if (0 <=? i) && (i <? Z.of_nat (length os))
          then match nth_error os (Z.to_nat i) with
               | Some o => JStr o
               | None => JUndefined
               end
          else response
      | _, _ => response
      end
  | text => response
  end.

End ElicitationService.

(* ================================================================== *)
(** * The workflow executor ([effect/workflow/workflow-executor.ts]) *)

(** The errors an Effect can fail with ([errors/domain.errors.ts]).
    [TimeoutException] is what [Effect.timeout] fails with; [ServiceError]
    stands for the tagged errors of the collaborators. *)
Inductive Failure : Type :=
| WorkflowError (workflowId state message : string)
| StateTransitionError (fromState toState reason : string)
| TimeoutError (operation : string) (timeoutMs : Z)
| TimeoutException
| ServiceError (tag message : string).

(** How an Effect exits: with a value, with a failure in its error channel,
    with a defect (an exception thrown inside [Effect.gen]), or not at all
    within the recursion depth [fuel] allows. *)
Inductive Exit (A : Type) : Type :=
| Success (a : A)
| Fail (e : Failure)
| Die (message : string)
| OutOfFuel.

Arguments Success {A} a.
Arguments Fail {A} e.
Arguments Die {A} message.
Arguments OutOfFuel {A}.

(** What a collaborator answers. *)
Inductive Reply (A : Type) : Type :=
| Replied (a : A)
| Failed (e : Failure)
| Defect (message : string).

Arguments Replied {A} a.
Arguments Failed {A} e.
Arguments Defect {A} message.

(** What calling a tool handler gives: an Effect (with its exit), a value or
    a promise fulfilled with it, a rejected promise, or an exception. *)
Inductive HandlerResult : Type :=
| HEffect (r : Reply JsValue)
| HValue (v : JsValue)
| HRejected (error : string)
| HThrew (message : string).

(** The services [WorkflowExecutorLive] is built from.  A call transforms the
    world.  The deadline [Effect.timeout] sets can pass only while a
    collaborator call is suspended: that call then answers
    [Failed TimeoutException]. *)
Class Services (W : Type) : Type := {
  requestElicitation : Elicitation.t -> Dict JsValue -> W -> Reply JsValue * W;
  createCompletion : Sampling.t -> Dict JsValue -> W -> Reply string * W;
  loadToolHandler :
    string -> W -> Reply (Dict JsValue -> W -> HandlerResult * W) * W;
  getTimeout : Z;
  now : W -> Z
}.

(** One line of the logger's output. *)
Inductive LogLine : Type :=
| LogDebug (message : string)
| LogError (message : string)
| LogWarn (message : string).

Record HistoryEntry : Type := {
  h_state : string;
  h_timestamp : Z;
  h_variables : Dict JsValue
}.

Record WorkflowContext : Type := {
  currentState : string;
  variables : Dict JsValue;
  history : list HistoryEntry
}.

Record StateResult : Type := {
  result : JsValue;
  nextState : option string
}.

(* ------------------------------------------------------------------ *)
(** ** [validateWorkflow] *)

(** The first transition, in enumeration order, whose target is a non-empty
    name of no state. *)
Fixpoint bad_transition (states : Dict State.t) (trs : Dict string)
    : option (string * string) :=
  match trs with
  | [] => None
  | (trigger, targetState) :: r =>
      if negb (String.eqb targetState "") && negb (has targetState states)
      then Some (trigger, targetState)
      else bad_transition states r
  end.

Fixpoint bad_state (states : Dict State.t) (l : Dict State.t)
    : option (string * string * string) :=
  match l with
  | [] => None
  | (stateName, state) :: r =>
      match
        match State.transitions state with
        | Some trs => bad_transition states trs
        | None => None
        end
      with
      | Some (trigger, targetState) => Some (stateName, trigger, targetState)
      | None => bad_state states r
      end
  end.

(** The body of [for (const targetState of Object.values(state.transitions))]:
    [reachableStates] is a [Set], kept in insertion order. *)
Fixpoint add_targets (targets : list string) (reach : list string)
    (changed : bool) : list string * bool :=
  match targets with
  | [] => (reach, changed)
  | targetState :: r =>
      if negb (String.eqb targetState "")
         && negb (array_includes targetState reach)
      then add_targets r (reach ++ [targetState])%list true
      else add_targets r reach changed
  end.

(** [for (const stateName of reachableStates)], from position [i]: the
    iteration also visits the names added while it runs. *)
Fixpoint sweep_pass (fuel : nat) (states : Dict State.t) (i : nat)
    (reach : list string) (changed : bool) : Exit (list string * bool) :=
  match fuel with
  | O => OutOfFuel
  | S fuel' =>
      match nth_error reach i with
      | None => Success (reach, changed)
      | Some stateName =>
          match get stateName states with
          | None => Die "TypeError: state is undefined"
          | Some state =>
              match State.transitions state with
              | Some trs =>
                  let '(reach', changed') :=
                    add_targets (values trs) reach changed in
                  sweep_pass fuel' states (S i) reach' changed'
              | None => sweep_pass fuel' states (S i) reach changed
              end
          end
      end
  end.

(** [while (changed)]. *)
Fixpoint sweep (fuel : nat) (states : Dict State.t) (reach : list string)
    : Exit (list string) :=
  match fuel with
  | O => OutOfFuel
  | S fuel' =>
      match sweep_pass fuel states 0 reach false with
      | Success (reach', true) => sweep fuel' states reach'
      | Success (reach', false) => Success reach'
      | Fail e => Fail e
      | Die m => Die m
      | OutOfFuel => OutOfFuel
      end
  end.

(** [validateWorkflow]: the verdict and what was logged. *)
Definition validateWorkflow (fuel : nat) (workflow : Workflow.t)
    : Exit (bool * list LogLine) :=
  let initial := Workflow.initial workflow in
  let states := Workflow.states workflow in
  let log0 := [LogDebug ("Validating workflow: " ++ initial)] in
  if negb (has initial states) then
    Success (false,
             (log0 ++ [LogError ("Initial state '" ++ initial ++ "' not found")])%list)
  else
    match bad_state states states with
    | Some (stateName, trigger, targetState) =>
        Success (false,
                 (log0 ++ [LogError ("Invalid transition from '" ++ stateName
                                     ++ "' to '" ++ targetState
                                     ++ "' on trigger '" ++ trigger ++ "'")])%list)
    | None =>
        match sweep fuel states [initial] with
        | Success reachableStates =>
            let unreachableStates :=
              filter (fun s => negb (array_includes s reachableStates))
                     (keys states) in
            match unreachableStates with
            | [] => Success (true, log0)
            | _ :: _ =>
                Success (true,
                         (log0 ++ [LogWarn ("Unreachable states detected: "
                                            ++ join ", " unreachableStates)])%list)
            end
        | Fail e => Fail e
        | Die m => Die m
        | OutOfFuel => OutOfFuel
        end
    end.

(* ------------------------------------------------------------------ *)
(** ** [evaluateCondition] and [matchesPattern] *)

(** The end of the comparison pattern, [\s*(.+)$]: the value captured by
    [(.+)] in what follows the operator.  [\s*] is greedy and gives back
    one character only when nothing else is left for [(.+)]. *)
Definition tail_value (t : list ascii) : option (list ascii) :=
  let '(ws, rest) := span is_space t in
  if existsb is_line_terminator rest then None
  else
    match rest with
    | _ :: _ => Some rest
    | [] =>
        match rev ws with
        | c :: _ => if is_line_terminator c then None else Some [c]
        | [] => None
        end
    end.

(** The alternatives of [(==|!=|>|<|>=|<=)], tried in this order. *)
Definition operators : list string := ["=="; "!="; ">"; "<"; ">="; "<="].

Fixpoint try_operators (ops : list string) (r : list ascii)
    : option (string * list ascii) :=
  match ops with
  | [] => None
  | op :: ops' =>
      if is_prefix (chars op) r then
        match tail_value (skipn (length (chars op)) r) with
        | Some v => Some (op, v)
        | None => try_operators ops' r
        end
      else try_operators ops' r
  end.

(** [condition.match(/^(\w+)\s*(==|!=|>|<|>=|<=)\s*(.+)$/)]: the three
    captures. *)
Definition comparisonMatch (condition : string)
    : option (string * string * string) :=
  let '(w, r0) := span is_word (chars condition) in
  match w with
  | [] => None
  | _ :: _ =>
      match try_operators operators (snd (span is_space r0)) with
      | Some (op, v) => Some (str w, op, str v)
      | None => None
      end
  end.

(** The double quote. *)
Definition dquote : ascii := ascii_of_nat 34.

Section Conditions.
Context {E : JsEngine}.

Definition evaluateCondition (condition : string) (variables : Dict JsValue)
    : bool :=
  match read condition variables with
  | JUndefined =>
      match comparisonMatch condition with
      | Some (varName, operator, value) =>
          let varValue := read varName variables in
          let compareValue :=
            if startsWith dquote value && endsWith dquote value
            then JStr (slice_1_m1 value)
            else if isNaN (StringToNumber value) then JStr value
                 else JNum (StringToNumber value) in
          let eq :=
            match compareValue with
            | JNum n => loose_eq_num varValue n
            | _ => loose_eq_str varValue (ToString compareValue)
            end in
          if String.eqb operator "==" then eq
          else if String.eqb operator "!=" then negb eq
          else if String.eqb operator ">" then rel_lt compareValue varValue
          else if String.eqb operator "<" then rel_lt varValue compareValue
          else if String.eqb operator ">=" then rel_ge varValue compareValue
          else if String.eqb operator "<=" then rel_ge compareValue varValue
          else false
      | None => false
      end
  | v => ToBoolean v
  end.

(** The source of the regular expression a wildcard pattern becomes:
    the special characters escaped, [*] turned into [.*], anchored at both
    ends. *)
Definition wildcard_source (pattern : string) : string :=
  let special c := existsb (Ascii.eqb c) (chars ".+?^${}()|[]\") in
  "^" ++ str (flat_map
                (fun c =>
                   if Ascii.eqb c "*" then chars ".*"
                   else if special c then ["\"%char; c] else [c])
                (chars pattern))
      ++ "$".

(** [matchesPattern]; [None] when [new RegExp] throws. *)
Definition matchesPattern (value : JsValue) (pattern : string) : option bool :=
  if startsWith "/" pattern && endsWith "/" pattern then
    RegExp_test (slice_1_m1 pattern) (ToString value)
  else if includes "*" pattern then
    RegExp_test (wildcard_source pattern) (ToString value)
  else Some (String.eqb (ToString value) pattern).

(** The loop over [Object.entries(state.transitions)]: the target of the
    first entry, other than [default], whose key matches. *)
Fixpoint first_match (result : JsValue) (trs : Dict string)
    : option (option string) :=
  match trs with
  | [] => Some None
  | (pattern, targetState) :: r =>
      if String.eqb pattern "default" then first_match result r
      else
        match matchesPattern result pattern with
        | None => None
        | Some true => Some (Some targetState)
        | Some false => first_match result r
        end
  end.

(** "Determine next state from transitions"; [None] when a pattern is
    not a regular expression. *)
Definition resolveTransition (state : State.t) (result : JsValue)
    (nextState : option string) : option (option string) :=
  match State.transitions state with
  | Some trs =>
      if negb (truthy_str nextState) then
        if truthy_str (get "default" trs) then Some (get "default" trs)
        else if ToBoolean result && truthy_str (get (ToString result) trs)
        then Some (get (ToString result) trs)
        else
          match first_match result trs with
          | Some (Some t) => Some (Some t)
          | Some None => Some nextState
          | None => None
          end
      else Some nextState
  | None => Some nextState
  end.

(** A template with its [{key}] tokens replaced, one variable after the
    other; [None] when [new RegExp] throws. *)
Fixpoint substitute (text : string) (variables : Dict JsValue)
    : option string :=
  match variables with
  | [] => Some text
  | (key, value) :: r =>
      match RegExp_replace_g ("{" ++ key ++ "}") text (ToString value) with
      | Some text' => substitute text' r
      | None => None
      end
  end.

(** The inner [forEach] of the tool case: every variable in turn replaces
    [params[key]] by the ORIGINAL [value] with that variable's token
    replaced, so the last variable is the one whose replacement stays. *)
Fixpoint substitute_param (value : string) (variables : Dict JsValue)
    (current : JsValue) : option JsValue :=
  match variables with
  | [] => Some current
  | (varKey, varValue) :: r =>
      match RegExp_replace_g ("{" ++ varKey ++ "}") value (ToString varValue) with
      | Some s => substitute_param value r (JStr s)
      | None => None
      end
  end.

Fixpoint substitute_params (params : Dict JsValue) (variables : Dict JsValue)
    : option (Dict JsValue) :=
  match params with
  | [] => Some []
  | (key, value) :: r =>
      match
        match value with
        | JStr s => substitute_param s variables value
        | _ => Some value
        end
      with
      | Some v =>
          match substitute_params r variables with
          | Some r' => Some ((key, v) :: r')
          | None => None
          end
      | None => None
      end
  end.
End Conditions.

(* ------------------------------------------------------------------ *)
(** ** The store and the monad of [executeState]

    [context.variables] is one object for the whole run: [executeState]
    writes into it, the contexts built for branches and loop bodies
    ([{ ...context, currentState }]) hold the same object, and so does the
    context [step] returns.  The store holds that object together with the
    world of the services; it is threaded through failures as well. *)

Section Executor.
Context {E : JsEngine} {W : Type} {Sv : Services W}.

Record Store : Type := {
  world : W;
  vars : Dict JsValue
}.

Definition Exec (A : Type) : Type := Store -> Exit A * Store.

Definition ret {A : Type} (a : A) : Exec A := fun s => (Success a, s).

Definition bind {A B : Type} (m : Exec A) (k : A -> Exec B) : Exec B :=
  fun s =>
    match m s with
    | (Success a, s') => k a s'
    | (Fail e, s') => (Fail e, s')
    | (Die msg, s') => (Die msg, s')
    | (OutOfFuel, s') => (OutOfFuel, s')
    end.

Definition fail {A : Type} (e : Failure) : Exec A := fun s => (Fail e, s).
Definition die {A : Type} (msg : string) : Exec A := fun s => (Die msg, s).
Definition out_of_fuel {A : Type} : Exec A := fun s => (OutOfFuel, s).

(** Reading [context.variables] and [context.variables[k] = v]. *)
Definition get_vars : Exec (Dict JsValue) := fun s => (Success (vars s), s).

Definition set_var (k : string) (v : JsValue) : Exec unit :=
  fun s => (Success tt, {| world := world s; vars := set k v (vars s) |}).

(** A call to a collaborator. *)
Definition call {A : Type} (f : W -> Reply A * W) : Exec A :=
  fun s =>
    let '(r, w') := f (world s) in
    let s' := {| world := w'; vars := vars s |} in
    match r with
    | Replied a => (Success a, s')
    | Failed e => (Fail e, s')
    | Defect msg => (Die msg, s')
    end.

(** A pure computation in which [new RegExp] may throw. *)
Definition regexp {A : Type} (o : option A) : Exec A :=
  match o with
  | Some a => ret a
  | None => die "SyntaxError: Invalid regular expression"
  end.

Notation "x <- m ;; k" := (bind m (fun x => k))
  (at level 61, m at next level, right associativity).
Notation "m ;;; k" := (bind m (fun _ => k))
  (at level 61, right associativity).

(** [yield*] on what the handler returned, wrapped by [Effect.tryPromise]
    when it is not an Effect. *)
Definition settle (workflow : Workflow.t) (currentState : string)
    (h : HandlerResult) : Exec JsValue :=
  match h with
  | HEffect (Replied v) => ret v
  | HEffect (Failed e) => fail e
  | HEffect (Defect msg) => die msg
  | HValue v => ret v
  | HRejected error =>
      fail (WorkflowError (Workflow.initial workflow) currentState
              ("Tool execution failed: " ++ error))
  | HThrew msg => die msg
  end.

(** [Effect.all(branchEffects, { concurrency: 'unbounded' })], followed
    in the order the branches are listed, each branch to its end on the
    store the one before it left; [run id] executes the state named [id].
    This is what happens when there is one branch, and what every schedule
    amounts to when no branch stores a variable or calls a service.  A
    branch that awaits (a tool handler, a completion) lets the branches
    listed after it run before it stores its result: which of its writes
    they see is not determined here. *)
Fixpoint all_branches (run : string -> Exec StateResult) (bs : list string)
    : Exec (list JsValue) :=
  match bs with
  | [] => ret []
  | branchState :: bs' =>
      r <- run branchState ;;
      rs <- all_branches run bs' ;;
      ret (result r :: rs)
  end.

(** [results.forEach((r, i) => variables[branches[i] + '_result'] = r.result)]. *)
Fixpoint merge_results (bs : list string) (rs : list JsValue)
    (variables : Dict JsValue) : Dict JsValue :=
  match bs, rs with
  | b :: bs', r :: rs' => merge_results bs' rs' (set (b ++ "_result") r variables)
  | _, _ => variables
  end.

(** [while (iteration < maxIterations)] with [n] turns left. *)
Fixpoint while_loop (run : string -> Exec StateResult)
    (condition body : string) (n : nat) (iteration : Z)
    (results : list JsValue) : Exec (list JsValue) :=
  match n with
  | O => ret results
  | S n' =>
      variables <- get_vars ;;
      if evaluateCondition condition
           (set "iteration" (JNum (Fin iteration)) variables)
      then
        bodyResult <- run body ;;
        while_loop run condition body n' (iteration + 1)
          (results ++ [result bodyResult])%list
      else ret results
  end.

(** [state.handler || state.tool]. *)
Definition handler_name (state : State.t) (name : string) : string :=
  match State.handler state with
  | Some h => if String.eqb h "" then name else h
  | None => name
  end.

(** [{ prompt: state.prompt }]. *)
Definition bare_prompt (p : string) : Sampling.t :=
  {| Sampling.prompt := p; Sampling.model := None;
     Sampling.temperature := None; Sampling.max_tokens := None;
     Sampling.top_p := None; Sampling.system := None;
     Sampling.context := None |}.

(** [state.maxIterations || 100], for an integer [maxIterations]. *)
Definition iteration_cap (state : State.t) : Z :=
  match State.maxIterations state with
  | Some 0 | None => 100
  | Some n => n
  end.

(** The [switch (state.type)] of [executeState]: the result and the next
    state the kind itself dictates. *)
Definition dispatch (run : string -> Exec StateResult) (state : State.t)
    (currentState : string) (workflow : Workflow.t)
    : Exec (JsValue * option string) :=
  match State.type state with
  | response =>
      variables <- get_vars ;;
      text <- regexp (substitute
                        (match State.template state with
                         | Some t => t
                         | None => ""
                         end) variables) ;;
      ret (JStr text, None)
  | elicitation =>
      match State.elicitation state with
      | Some e =>
          variables <- get_vars ;;
          value <- call (requestElicitation e variables) ;;
          set_var (currentState ++ "_response") value ;;;
          ret (value, None)
      | None => ret (JNull, None)
      end
  | sampling =>
      match State.sampling state with
      | Some sp =>
          variables <- get_vars ;;
          content <- call (createCompletion sp variables) ;;
          set_var (currentState ++ "_completion") (JStr content) ;;;
          ret (JStr content, None)
      | None =>
          match State.prompt state with
          | Some p =>
              if negb (String.eqb p "") then
                variables <- get_vars ;;
                content <- call (createCompletion (bare_prompt p) variables) ;;
                set_var (currentState ++ "_completion") (JStr content) ;;;
                ret (JStr content, None)
              else ret (JNull, None)
          | None => ret (JNull, None)
          end
      end
  | tool =>
      match State.tool state, State.parameters state with
      | Some name, Some parameters =>
          if negb (String.eqb name "") then
            handler <- call (loadToolHandler (handler_name state name)) ;;
            variables <- get_vars ;;
            params <- regexp (substitute_params parameters variables) ;;
            handlerResult <-
              (fun s =>
                 let '(h, w') := handler params (world s) in
                 (Success h, {| world := w'; vars := vars s |})) ;;
            value <- settle workflow currentState handlerResult ;;
            set_var (currentState ++ "_result") value ;;;
            ret (value, None)
          else ret (JNull, None)
      | _, _ => ret (JNull, None)
      end
  | conditional =>
      match State.condition state with
      | Some condition =>
          if negb (String.eqb condition "") then
            variables <- get_vars ;;
            let conditionResult := evaluateCondition condition variables in
            ret (JBool conditionResult,
                 if conditionResult then State.onTrue state
                 else State.onFalse state)
          else ret (JNull, None)
      | None => ret (JNull, None)
      end
  | parallel =>
      match State.branches state with
      | Some branches =>
          results <- all_branches run branches ;;
          (fun s =>
             (Success tt,
              {| world := world s;
                 vars := merge_results branches results (vars s) |})) ;;;
          ret (JArr results, None)
      | None => ret (JNull, None)
      end
  | loop =>
      match State.condition state, State.body state with
      | Some condition, Some body =>
          if negb (String.eqb condition "") && negb (String.eqb body "") then
            results <-
              while_loop run condition body
                (Z.to_nat (iteration_cap state)) 0 [] ;;
            set_var (currentState ++ "_results") (JArr results) ;;;
            ret (JArr results, None)
          else ret (JNull, None)
      | _, _ => ret (JNull, None)
      end
  end.

(** The end of [executeState], "Determine next state from transitions",
    on what the kind produced. *)
Definition finish (state : State.t) (r : JsValue * option string)
    : Exec StateResult :=
  nextState <- regexp (resolveTransition state (fst r) (snd r)) ;;
  ret {| result := fst r; nextState := nextState |}.

(** [executeState].  [currentState] is [context.currentState]; [fuel]
    bounds the depth of the calls a parallel or loop state makes on the
    states it names ([workflow.states[id]], [undefined] when [id] names
    no state). *)
Fixpoint executeState (fuel : nat) (state : State.t) (currentState : string)
    (workflow : Workflow.t) {struct fuel} : Exec StateResult :=
  match fuel with
  | O => out_of_fuel
  | S fuel' =>
      r <- dispatch
             (fun id =>
                match get id (Workflow.states workflow) with
                | Some st => executeState fuel' st id workflow
                | None => die "TypeError: Cannot read properties of undefined"
                end)
             state currentState workflow ;;
      finish state r
  end.

(** [workflow.states[id]], executed as a branch or a loop body with the
    depth [fuel] allows. *)
Definition run_state (fuel : nat) (workflow : Workflow.t) (id : string)
    : Exec StateResult :=
  match get id (Workflow.states workflow) with
  | Some st => executeState fuel st id workflow
  | None => die "TypeError: Cannot read properties of undefined"
  end.

(* ---------------------------------------------------------------- *)
(** ** [step] and [execute] *)

(** [nextState || context.currentState]. *)
Definition or_current (nextState : option string) (current : string) : string :=
  match nextState with
  | Some n => if String.eqb n "" then current else n
  | None => current
  end.

(** [step].  Besides its exit it gives the store the attempt leaves
    behind: after a failure [context.variables] keeps what the attempt
    wrote. *)
Definition step (fuel : nat) (workflow : Workflow.t)
    (context : WorkflowContext) (w : W) : Exit WorkflowContext * Store :=
  let s0 := {| world := w; vars := variables context |} in
  match get (currentState context) (Workflow.states workflow) with
  | None =>
      (Fail (StateTransitionError (currentState context) "unknown"
               ("State '" ++ currentState context ++ "' not found in workflow")),
       s0)
  | Some state =>
      match executeState fuel state (currentState context) workflow s0 with
      | (Success r, s1) =>
          (Success
             {| currentState := or_current (nextState r) (currentState context);
                variables := vars s1;
                history :=
                  (history context
                   ++ [{| h_state := currentState context;
                          h_timestamp := now (world s1);
                          h_variables := vars s1 |}])%list |},
           s1)
      | (Fail TimeoutException, s1) =>
          (Fail (TimeoutError ("State execution: " ++ currentState context)
                   getTimeout),
           s1)
      | (Fail e, s1) => (Fail e, s1)
      | (Die msg, s1) => (Die msg, s1)
      | (OutOfFuel, s1) => (OutOfFuel, s1)
      end
  end.

(** [Effect.retry] with a schedule that recurs [n] times: a failure is
    tried again, on the same context object; a defect is not. *)
Fixpoint retry (n : nat) (fuel : nat) (workflow : Workflow.t)
    (context : WorkflowContext) (s : Store) : Exit WorkflowContext * Store :=
  match
    step fuel workflow
      {| currentState := currentState context;
         variables := vars s;
         history := history context |} (world s)
  with
  | (Fail e, s') =>
      match n with
      | O => (Fail e, s')
      | S n' => retry n' fuel workflow context s'
      end
  | other => other
  end.

Inductive Control : Type := Break | Continue.

(** One turn of [while (steps < maxSteps)]. *)
Definition iteration (fuel : nat) (workflow : Workflow.t)
    (context : WorkflowContext) (w : W)
    : Exit (Control * WorkflowContext) * W :=
  let previousState := currentState context in
  match get (currentState context) (Workflow.states workflow) with
  | None => (Die "TypeError: Cannot read properties of undefined", w)
  | Some state =>
      let no_transitions :=
        match State.transitions state with Some _ => false | None => true end in
      if match State.type state with response => true | _ => false end
         && no_transitions
      then (Success (Break, context), w)
      else
        match
          retry 2 fuel workflow context
            {| world := w; vars := variables context |}
        with
        | (Success context', s') =>
            if String.eqb (currentState context') previousState
               && no_transitions
            then (Success (Break, context'), world s')
            else (Success (Continue, context'), world s')
        | (Fail e, s') => (Fail e, world s')
        | (Die msg, s') => (Die msg, world s')
        | (OutOfFuel, s') => (OutOfFuel, world s')
        end
  end.

(** The loop, with [n] turns left before [steps] reaches [maxSteps]. *)
Fixpoint run_steps (n : nat) (fuel : nat) (workflow : Workflow.t)
    (context : WorkflowContext) (w : W) : Exit WorkflowContext * W :=
  match n with
  | O => (Success context, w)
  | S n' =>
      match iteration fuel workflow context w with
      | (Success (Break, context'), w') => (Success context', w')
      | (Success (Continue, context'), w') =>
          run_steps n' fuel workflow context' w'
      | (Fail e, w') => (Fail e, w')
      | (Die msg, w') => (Die msg, w')
      | (OutOfFuel, w') => (OutOfFuel, w')
      end
  end.

(** [workflow.maxSteps || 1000]. *)
Definition step_budget (workflow : Workflow.t) : Z :=
  match Workflow.maxSteps workflow with
  | Some 0 | None => 1000
  | Some n => n
  end.

Definition execute (fuel : nat) (workflow : Workflow.t)
    (initialContext : option (Dict JsValue)) (w : W)
    : Exit WorkflowContext * W :=
  match validateWorkflow fuel workflow with
  | Success (false, _) =>
      (Fail (WorkflowError (Workflow.initial workflow) "validation"
               "Workflow validation failed"), w)
  | Success (true, _) =>
      run_steps (Z.to_nat (step_budget workflow)) fuel workflow
        {| currentState := Workflow.initial workflow;
           variables := match initialContext with Some v => v | None => [] end;
           history := [] |} w
  | Fail e => (Fail e, w)
  | Die msg => (Die msg, w)
  | OutOfFuel => (OutOfFuel, w)
  end.

End Executor.

Arguments Store W : clear implicits.
Arguments Exec W A : clear implicits.

(* ------------------------------------------------------------------ *)
(** ** The services of the test suite ([workflow-executor.test.ts])

    [TestElicitation] answers ['test-response'], [TestSampling] answers
    ['Test completion'], the handler [TestHandlerLoader] loads resolves to
    [{result: 'tool-result'}] and [TestConfig] gives a timeout of 5000.  The
    world records the clock and, for inspection, the calls made. *)

Record TestWorld : Type := {
  clock : Z;
  calls : list string
}.

Definition called (name : string) (w : TestWorld) : TestWorld :=
  {| clock := clock w; calls := (calls w ++ [name])%list |}.

#[export] Instance TestLayers : Services TestWorld := {
  requestElicitation := fun _ _ w =>
    (Replied (JStr "test-response"), called "requestElicitation" w);
  createCompletion := fun _ _ w =>
    (Replied "Test completion", called "createCompletion" w);
  loadToolHandler := fun _ w =>
    (Replied (fun _ w' =>
                (HValue (JObj [("result", JStr "tool-result")]),
                 called "handler" w')),
     called "loadToolHandler" w);
  getTimeout := 5000;
  now := clock
}.

Definition world0 : TestWorld := {| clock := 0; calls := [] |}.

(* ------------------------------------------------------------------ *)
(** ** Building states and workflows for the examples *)

Definition blank (type : StateType) : State.t :=
  {| State.type := type; State.prompt := None; State.elicitation := None;
     State.sampling := None; State.context := None; State.transitions := None;
     State.template := None; State.tool := None; State.parameters := None;
     State.handler := None; State.condition := None; State.onTrue := None;
     State.onFalse := None; State.branches := None; State.body := None;
     State.maxIterations := None |}.

Definition with_transitions (trs : option (Dict string)) (st : State.t) : State.t :=
  {| State.type := State.type st; State.prompt := State.prompt st;
     State.elicitation := State.elicitation st;
     State.sampling := State.sampling st; State.context := State.context st;
     State.transitions := trs;
     State.template := State.template st; State.tool := State.tool st;
     State.parameters := State.parameters st; State.handler := State.handler st;
     State.condition := State.condition st; State.onTrue := State.onTrue st;
     State.onFalse := State.onFalse st; State.branches := State.branches st;
     State.body := State.body st; State.maxIterations := State.maxIterations st |}.

Definition response_state (template : string) (trs : option (Dict string))
    : State.t :=
  {| State.type := response; State.prompt := None; State.elicitation := None;
     State.sampling := None; State.context := None; State.transitions := trs;
     State.template := Some template; State.tool := None;
     State.parameters := None; State.handler := None; State.condition := None;
     State.onTrue := None; State.onFalse := None; State.branches := None;
     State.body := None; State.maxIterations := None |}.

Definition conditional_state (condition onTrue onFalse : string)
    (trs : option (Dict string)) : State.t :=
  {| State.type := conditional; State.prompt := None; State.elicitation := None;
     State.sampling := None; State.context := None; State.transitions := trs;
     State.template := None; State.tool := None; State.parameters := None;
     State.handler := None; State.condition := Some condition;
     State.onTrue := Some onTrue; State.onFalse := Some onFalse;
     State.branches := None; State.body := None; State.maxIterations := None |}.

Definition elicitation_state (e : Elicitation.t) (trs : option (Dict string))
    : State.t :=
  {| State.type := elicitation; State.prompt := None;
     State.elicitation := Some e;
     State.sampling := None; State.context := None; State.transitions := trs;
     State.template := None; State.tool := None; State.parameters := None;
     State.handler := None; State.condition := None; State.onTrue := None;
     State.onFalse := None; State.branches := None; State.body := None;
     State.maxIterations := None |}.


Definition ask (type : ElicitationType) (prompt : string) : Elicitation.t :=
  {| Elicitation.type := type; Elicitation.prompt := prompt;
     Elicitation.options := None; Elicitation.min := None;
     Elicitation.max := None; Elicitation.pattern := None;
     Elicitation.required := None |}.

Definition ask_number (prompt : string) (min max : option JsNum) : Elicitation.t :=
  {| Elicitation.type := number; Elicitation.prompt := prompt;
     Elicitation.options := None; Elicitation.min := min;
     Elicitation.max := max; Elicitation.pattern := None;
     Elicitation.required := None |}.

(** The workflow of the specification's example:
    [start --default--> end]. *)
Definition hello_workflow : Workflow.t :=
  {| Workflow.initial := "start";
     Workflow.states :=
       [("start", response_state "Hello {name}" (Some [("default", "end")]));
        ("end", response_state "Goodbye {name}" None)];
     Workflow.maxSteps := None |}.

(** A state whose [transitions.default] is its own id. *)
Definition self_loop (maxSteps : option Z) : Workflow.t :=
  {| Workflow.initial := "loop";
     Workflow.states :=
       [("loop", response_state "Looping" (Some [("default", "loop")]))];
     Workflow.maxSteps := maxSteps |}.

(** The context a run of [workflow] starts with. *)
Definition start_of (workflow : Workflow.t) (variables : Dict JsValue)
    : WorkflowContext :=
  {| currentState := Workflow.initial workflow;
     variables := variables;
     history := [] |}.

(** The workflow of the test ['should handle conditional branching']. *)
Definition access_workflow : Workflow.t :=
  {| Workflow.initial := "check";
     Workflow.states :=
       [("check", conditional_state "hasAccess" "granted" "denied" None);
        ("granted", response_state "Access granted" None);
        ("denied", response_state "Access denied" None)];
     Workflow.maxSteps := None |}.

(** The same workflow without the state its [onTrue] names. *)
Definition access_without_granted : Workflow.t :=
  {| Workflow.initial := "check";
     Workflow.states :=
       [("check", conditional_state "hasAccess" "granted" "denied" None);
        ("denied", response_state "Access denied" None)];
     Workflow.maxSteps := None |}.

(** The workflow of the test ['should handle elicitation states']. *)
Definition ask_workflow : Workflow.t :=
  {| Workflow.initial := "ask";
     Workflow.states :=
       [("ask", elicitation_state (ask text "Enter your name")
                  (Some [("default", "greet")]));
        ("greet", response_state "Hello {ask_response}" None)];
     Workflow.maxSteps := None |}.

(** The workflow of the test ['should stop at terminal states']. *)
Definition chain_workflow : Workflow.t :=
  {| Workflow.initial := "start";
     Workflow.states :=
       [("start", response_state "Starting" (Some [("default", "middle")]));
        ("middle", response_state "Processing" (Some [("default", "end")]));
        ("end", response_state "Complete" None)];
     Workflow.maxSteps := Some 10 |}.

(** A response state whose only transition key does not match what it
    produces. *)
Definition unmatched_workflow : Workflow.t :=
  {| Workflow.initial := "s";
     Workflow.states :=
       [("s", response_state "x" (Some [("y", "end")]));
        ("end", response_state "bye" None)];
     Workflow.maxSteps := Some 3 |}.

(** A state that produces [null], with a wildcard key listed before the
    key ["null"]. *)
Definition null_workflow : Workflow.t :=
  {| Workflow.initial := "s";
     Workflow.states :=
       [("s", with_transitions (Some [("*", "a"); ("null", "b")])
                (blank elicitation));
        ("a", response_state "A" None);
        ("b", response_state "B" None)];
     Workflow.maxSteps := None |}.

(** An elicitation state without its spec, whose only transition key is a
    malformed regular expression. *)
Definition malformed_key_workflow : Workflow.t :=
  {| Workflow.initial := "s";
     Workflow.states :=
       [("s", with_transitions (Some [("/(/", "s")]) (blank elicitation))];
     Workflow.maxSteps := None |}.



(* ================================================================== *)
(** * The fallback bridge ([runtime/elicitation-workaround.ts])

    The state of an [ElicitationWorkaround]: the map of pending
    elicitations, the conversation history, the promises
    [createElicitation] has returned and the timers it has set.  A pending
    entry holds the [resolve] and [reject] of its promise: here, the index
    of that promise. *)

Module Workaround.

Inductive Promise : Type :=
| Waiting
| Resolved (value : JsValue)
| Rejected (error : string).

Record Pending : Type := {
  elicitation : Elicitation.t;
  promise : nat;
  context : option (Dict JsValue)
}.

Record HistoryItem : Type := {
  id : string;
  type : ElicitationType;
  prompt : string;
  response : option JsValue;
  timestamp : Z
}.

Record t : Type := {
  pendingElicitations : Dict Pending;
  conversationHistory : list HistoryItem;
  promises : list Promise;
  timers : list (string * nat)
}.

Definition empty : t :=
  {| pendingElicitations := []; conversationHistory := [];
     promises := []; timers := [] |}.

(** [map.delete(k)]. *)
Fixpoint delete {A : Type} (k : string) (d : Dict A) : Dict A :=
  match d with
  | [] => []
  | (k', v) :: r =>
      if String.eqb k' k then delete k r else (k', v) :: delete k r
  end.

(** [resolve] or [reject] of promise [p]: a settled promise stays as it
    is. *)
Fixpoint settle_promise (p : nat) (outcome : Promise) (ps : list Promise)
    : list Promise :=
  match ps, p with
  | [], _ => []
  | Waiting :: r, O => outcome :: r
  | x :: r, O => x :: r
  | x :: r, S p' => x :: settle_promise p' outcome r
  end.

(** [historyEntry.response = v] on the entry [find(h => h.id === id)]
    gives. *)
Fixpoint record_response (i : string) (v : JsValue) (h : list HistoryItem)
    : list HistoryItem :=
  match h with
  | [] => []
  | x :: r =>
      if String.eqb (id x) i
      then {| id := id x; type := type x; prompt := prompt x;
              response := Some v; timestamp := timestamp x |} :: r
      else x :: record_response i v r
  end.

(** [createElicitation], with the id and the time it draws. *)
Definition createElicitation (i : string) (time : Z) (e : Elicitation.t)
    (ctx : option (Dict JsValue)) (st : t) : t :=
  let p := length (promises st) in
  {| pendingElicitations :=
       set i {| elicitation := e; promise := p; context := ctx |}
           (pendingElicitations st);
     conversationHistory :=
       (conversationHistory st
        ++ [{| id := i; type := Elicitation.type e;
               prompt := Elicitation.prompt e; response := None;
               timestamp := time |}])%list;
     promises := (promises st ++ [Waiting])%list;
     timers := (timers st ++ [(i, p)])%list |}.

(** The callback of the timer [createElicitation] sets for id [i] and
    promise [p]. *)
Definition on_timeout (i : string) (p : nat) (st : t) : t :=
  if has i (pendingElicitations st) then
    {| pendingElicitations := delete i (pendingElicitations st);
       conversationHistory := conversationHistory st;
       promises := settle_promise p (Rejected "Elicitation timeout") (promises st);
       timers := timers st |}
  else st.

(** What [handleResponse] does: it throws, or returns one of its two
    messages (of the first, only the reason is kept here). *)
Inductive Answer : Type :=
| Throws (message : string)
| InvalidResponse (error : string)
| ResponseAccepted (transformedResponse : JsValue).

Section Handlers.
Context {E : JsEngine}.

Definition handleResponse (i : string) (raw : JsValue) (st : t)
    : Answer * t :=
  match get i (pendingElicitations st) with
  | None => (Throws ("Elicitation " ++ i ++ " not found"), st)
  | Some pending =>
      match validateResponse raw (elicitation pending) with
      | SyntaxError => (Throws "SyntaxError: Invalid regular expression", st)
      | Invalid error => (InvalidResponse error, st)
      | Valid =>
          let transformedResponse :=
            transformResponse raw (elicitation pending) in
          (ResponseAccepted transformedResponse,
           {| pendingElicitations := delete i (pendingElicitations st);
              conversationHistory :=
                record_response i transformedResponse
                  (conversationHistory st);
              promises :=
                settle_promise (promise pending)
                  (Resolved transformedResponse) (promises st);
              timers := timers st |})
      end
  end.

(** What can happen to the bridge: an elicitation is created, a
    response is submitted, a timer that was set fires (once). *)
Inductive Event : Type :=
| Create (i : string) (time : Z) (e : Elicitation.t)
    (ctx : option (Dict JsValue))
| Respond (i : string) (raw : JsValue)
| Expire (i : string) (p : nat).

Definition is_timer (i : string) (p : nat) (x : string * nat) : bool :=
  String.eqb (fst x) i && Nat.eqb (snd x) p.

Definition apply (ev : Event) (st : t) : t :=
  match ev with
  | Create i time e ctx => createElicitation i time e ctx st
  | Respond i raw => snd (handleResponse i raw st)
  | Expire i p =>
      if existsb (is_timer i p) (timers st) then
        let st' := on_timeout i p st in
        {| pendingElicitations := pendingElicitations st';
           conversationHistory := conversationHistory st';
           promises := promises st';
           timers := filter (fun x => negb (is_timer i p x)) (timers st') |}
      else st
  end.

Fixpoint run (evs : list Event) (st : t) : t :=
  match evs with
  | [] => st
  | ev :: r => run r (apply ev st)
  end.

(** How many events of [evs], run from [st], take [i] out of the
    pending map. *)
Fixpoint removals (i : string) (evs : list Event) (st : t) : nat :=
  match evs with
  | [] => O
  | ev :: r =>
      ((if has i (pendingElicitations st)
           && negb (has i (pendingElicitations (apply ev st)))
        then 1 else 0)
       + removals i r (apply ev st))%nat
  end.
End Handlers.

End Workaround.

(* ------------------------------------------------------------------ *)
(** ** What the properties are stated with *)

(** A character a wildcard pattern takes as it is: neither [*] nor one of
    the characters it escapes. *)
Definition plain_char (c : ascii) : bool :=
  negb (existsb (Ascii.eqb c) (chars "*.+?^${}()|[]\")).

(** A lookup [d[name]] on the plain object [d] gives what [get] gives:
    [name] is a key of [d], or it is no member of [Object.prototype], so
    that nothing is found in place of the missing key. *)
Definition own_or_absent {A : Type} (name : string) (d : Dict A) : Prop :=
  has name d = true \/ proto_member name = false.

(** Every non-empty target of the transitions [trs] names a state. *)
Definition targets_exist (states : Dict State.t) (trs : Dict string) : Prop :=
  forall trigger targetState,
    In (trigger, targetState) trs -> targetState <> "" ->
    has targetState states = true.

(** [b] is a non-empty target of a transition declared by the state [a]. *)
Definition edge (states : Dict State.t) (a b : string) : Prop :=
  exists st trs trigger,
    get a states = Some st /\ State.transitions st = Some trs
    /\ In (trigger, b) trs /\ b <> "".

(** Reachability over declared transitions. *)
Inductive reachable (states : Dict State.t) (init : string) : string -> Prop :=
| reach_init : reachable states init init
| reach_step a b :
    reachable states init a -> edge states a b -> reachable states init b.

(** The entries of [reach] before position [i] have all their targets in
    [reach]. *)
Definition closed_below (states : Dict State.t) (i : nat)
    (reach : list string) : Prop :=
  forall j a b,
    (j < i)%nat -> nth_error reach j = Some a -> edge states a b -> In b reach.

(** What holds of [reachableStates] when the sweep is at position [i]. *)
Record sweep_inv (states : Dict State.t) (init : string) (i : nat)
    (reach : list string) : Prop := {
  inv_nodup : NoDup reach;
  inv_states : forall x, In x reach -> has x states = true;
  inv_sound : forall x, In x reach -> reachable states init x;
  inv_init : In init reach;
  inv_pos : (i <= length reach)%nat;
  inv_closed : closed_below states i reach
}.

(** The warning [validateWorkflow] logs for the unreachable states. *)
Definition unreachable_warning (unreachableStates : list string) : list LogLine :=
  match unreachableStates with
  | [] => []
  | _ :: _ =>
      [LogWarn ("Unreachable states detected: " ++ join ", " unreachableStates)]
  end.

(** An elicitation state without its [elicitation] field, a sampling state
    with neither a [sampling] spec nor a [prompt], a tool state without its
    [tool] name or its [parameters]. *)
Definition does_nothing (state : State.t) : Prop :=
  (State.type state = elicitation /\ State.elicitation state = None)
  \/ (State.type state = sampling /\ State.sampling state = None
      /\ truthy_str (State.prompt state) = false)
  \/ (State.type state = tool
      /\ (truthy_str (State.tool state) = false
          \/ State.parameters state = None)).

(** The context a run ends with, when it ends with one. *)
Definition final_context {W : Type} (r : Exit WorkflowContext * W)
    : option WorkflowContext :=
  match fst r with Success c => Some c | _ => None end.

(** [history.length] of the context a run ends with. *)
Definition history_length {W : Type} (r : Exit WorkflowContext * W)
    : option nat :=
  option_map (fun c => length (history c)) (final_context r).

(** No event of [evs] creates an elicitation with the id [i]. *)
Definition never_created (i : string) (evs : list Workaround.Event) : Prop :=
  forall time e ctx, ~ In (Workaround.Create i time e ctx) evs.

(** What holds of every state the bridge can be in. *)
Record bridge_inv (st : Workaround.t) : Prop := {
  inv_waiting :
    forall i pe, In (i, pe) (Workaround.pendingElicitations st) ->
      nth_error (Workaround.promises st) (Workaround.promise pe)
      = Some Workaround.Waiting;
  inv_own_promise :
    forall i pe i' pe',
      In (i, pe) (Workaround.pendingElicitations st) ->
      In (i', pe') (Workaround.pendingElicitations st) ->
      Workaround.promise pe = Workaround.promise pe' -> i = i';
  inv_timer_promise :
    forall i p i' pe',
      In (i, p) (Workaround.timers st) ->
      In (i', pe') (Workaround.pendingElicitations st) ->
      Workaround.promise pe' = p -> i' = i;
  inv_timer_bound :
    forall i p, In (i, p) (Workaround.timers st) ->
      (p < length (Workaround.promises st))%nat;
  inv_timer_set :
    forall i pe, In (i, pe) (Workaround.pendingElicitations st) ->
      In (i, Workaround.promise pe) (Workaround.timers st);
  inv_history :
    forall i pe, In (i, pe) (Workaround.pendingElicitations st) ->
      exists h, In h (Workaround.conversationHistory st) /\ Workaround.id h = i
}.

(* ================================================================== *)
(** * More of the services

    The rest of [elicitation.service.ts] ([formatPrompt], [getMockResponse],
    [requestElicitation]), the message builder of [sampling.service.ts], and
    the prompt and resource handlers of [ElicitationWorkaround] with the
    texts they are built from. *)

(** The line feed. *)
Definition nl : string := String (ascii_of_nat 10) EmptyString.

(** [options.map((opt, i) => `${i + 1}. ${opt}`)], counting from [i]. *)
Fixpoint numbered (i : Z) (options : list string) : list string :=
  match options with
  | [] => []
  | opt :: r => (NumberToString (Fin (i + 1)) ++ ". " ++ opt) :: numbered (i + 1) r
  end.

(** The name of an elicitation type, as the schema spells it. *)
Definition type_name (t : ElicitationType) : string :=
  match t with
  | confirm => "confirm"
  | select => "select"
  | text => "text"
  | number => "number"
  end.

(** The entries a [number] elicitation adds for its declared bounds. *)
Definition bounds (lo hi : string) (e : Elicitation.t) : list string :=
  List.app
    match Elicitation.min e with
    | Some m => [lo ++ NumberToString m]
    | None => []
    end
    match Elicitation.max e with
    | Some M => [hi ++ NumberToString M]
    | None => []
    end.

Definition has_bound (e : Elicitation.t) : bool :=
  match Elicitation.min e, Elicitation.max e with
  | None, None => false
  | _, _ => true
  end.

(** [prompt] with the tokens of [context] replaced, when there is a
    context. *)
Definition in_context {E : JsEngine} (prompt : string)
    (context : option (Dict JsValue)) : option string :=
  match context with
  | Some c => substitute prompt c
  | None => Some prompt
  end.

(* ------------------------------------------------------------------ *)
(** ** [ElicitationServiceLive] *)

Module ElicitationServiceLive.

Record ElicitationResult : Type := {
  value : JsValue;
  isValid : bool;
  prompt : string;
  originalResponse : JsValue;
  elicitationType : ElicitationType
}.

Section Live.
Context {E : JsEngine}.

(** [formatPrompt]; [None] when [new RegExp] throws. *)
Definition formatPrompt (e : Elicitation.t) (context : option (Dict JsValue))
    : option string :=
  match in_context (Elicitation.prompt e) context with
  | None => None
  | Some prompt =>
      Some
        match Elicitation.type e with
        | select =>
            match Elicitation.options e with
            | Some os =>
                prompt ++ nl ++ "Options:" ++ nl ++ join nl (numbered 0 os)
            | None => prompt
            end
        | confirm => prompt ++ " (yes/no)"
        | number =>
            if has_bound e
            then prompt ++ " (" ++ join ", " (bounds "min: " "max: " e) ++ ")"
            else prompt
        | text => prompt
        end
  end.

(** [getMockResponse]. *)
Definition getMockResponse (e : Elicitation.t) : JsValue :=
  match Elicitation.type e with
  | text => JStr "Sample text response"
  | number =>
      match Elicitation.min e with
      | Some m => if ToBoolean (JNum m) then JNum m else JNum (Fin 42)
      | None => JNum (Fin 42)
      end
  | confirm => JStr "yes"
  | select =>
      match Elicitation.options e with
      | Some (o :: _) => if String.eqb o "" then JStr "Option 1" else JStr o
      | _ => JStr "Option 1"
      end
  end.

(** [requestElicitation]: the mock response validated (a failed validation
    is caught and counts as invalid, an exception is not caught) and
    transformed. *)
Definition requestElicitation (e : Elicitation.t)
    (context : option (Dict JsValue)) : Exit ElicitationResult :=
  match formatPrompt e context with
  | None => Die "SyntaxError: Invalid regular expression"
  | Some prompt =>
      let mockResponse := getMockResponse e in
      match validateResponse mockResponse e with
      | SyntaxError => Die "SyntaxError: Invalid regular expression"
      | verdict =>
          let isValid := match verdict with Valid => true | _ => false end in
          if negb isValid
             && negb match Elicitation.required e with
                     | Some false => true
                     | _ => false
                     end
          then Fail (ServiceError "ElicitationError" "Invalid response received")
          else
            Success {| value := transformResponse mockResponse e;
                       isValid := isValid;
                       prompt := prompt;
                       originalResponse := mockResponse;
                       elicitationType := Elicitation.type e |}
      end
  end.
End Live.

End ElicitationServiceLive.

(* ------------------------------------------------------------------ *)
(** ** [JSON.stringify]

    A reference for the examples: numbers are the integers of the model
    (and [NaN] and the infinities, which give [null]), strings hold code
    units below 256. *)

Definition hex_digit (n : Z) : ascii :=
  ascii_of_nat (Z.to_nat (if n <? 10 then 48 + n else 87 + n)).

(** [QuoteJSONString] on one code unit. *)
Definition json_escape (c : ascii) : list ascii :=
  let n := code c in
  let backslash := ascii_of_nat 92 in
  if n =? 34 then [backslash; dquote]
  else if n =? 92 then [backslash; backslash]
  else if n =? 8 then [backslash; "b"%char]
  else if n =? 9 then [backslash; "t"%char]
  else if n =? 10 then [backslash; "n"%char]
  else if n =? 12 then [backslash; "f"%char]
  else if n =? 13 then [backslash; "r"%char]
  else if n <? 32
       then [backslash; "u"%char; "0"%char; "0"%char;
             hex_digit (n / 16); hex_digit (n mod 16)]
       else [c].

Definition json_string (s : string) : string :=
  str (dquote :: flat_map json_escape (chars s) ++ [dquote]).

(** [JSON.stringify(v)]; [None] stands for [undefined]. *)
Fixpoint json (v : JsValue) : option string :=
  match v with
  | JUndefined => None
  | JNull => Some "null"
  | JBool true => Some "true"
  | JBool false => Some "false"
  | JNum n => Some (if isFinite n then NumberToString n else "null")
  | JStr s => Some (json_string s)
  | JArr xs =>
      Some ("[" ++ join ","
                     ((fix elems (l : list JsValue) : list string :=
                         match l with
                         | [] => []
                         | x :: r =>
                             match json x with
                             | Some t => t
                             | None => "null"
                             end :: elems r
                         end) xs)
            ++ "]")
  | JObj fields =>
      Some ("{" ++ join ","
                     ((fix members (l : list (string * JsValue))
                         : list string :=
                         match l with
                         | [] => []
                         | (k, x) :: r =>
                             match json x with
                             | Some t =>
                                 (json_string k ++ ":" ++ t) :: members r
                             | None => members r
                             end
                         end) fields)
            ++ "}")
  end.

(** [`${JSON.stringify(v)}`]. *)
Definition json_text (v : JsValue) : string :=
  match json v with Some t => t | None => "undefined" end.

(* ------------------------------------------------------------------ *)
(** ** [SamplingServiceLive]: the messages *)

Module SamplingServiceLive.

Record Message : Type := {
  role : string;
  content : string
}.

Section Messages.
Context {E : JsEngine}.

(** [JSON.stringify], which the engine supplies. *)
Variable JSON_stringify : JsValue -> string.

(** [formatPrompt]. *)
Definition formatPrompt (prompt : string) (context : option (Dict JsValue))
    : option string :=
  in_context prompt context.

(** The messages restating the context keys whose value is truthy. *)
Fixpoint restated (keys : list string) (context : Dict JsValue) : list Message :=
  match keys with
  | [] => []
  | key :: r =>
      if ToBoolean (read key context)
      then {| role := "assistant";
              content := "Context for " ++ key ++ ": "
                         ++ JSON_stringify (read key context) |}
           :: restated r context
      else restated r context
  end.

(** [buildMessages]; [None] when [new RegExp] throws. *)
Definition buildMessages (sampling : Sampling.t)
    (context : option (Dict JsValue)) : option (list Message) :=
  match
    match Sampling.system sampling with
    | Some sys =>
        if negb (String.eqb sys "") then
          match formatPrompt sys context with
          | Some formatted =>
              Some [{| role := "system"; content := formatted |}]
          | None => None
          end
        else Some []
    | None => Some []
    end
  with
  | None => None
  | Some system =>
      let restatements :=
        match Sampling.context sampling, context with
        | Some keys, Some c => restated keys c
        | _, _ => []
        end in
      match formatPrompt (Sampling.prompt sampling) context with
      | Some formatted =>
          Some (system ++ restatements
                ++ [{| role := "user"; content := formatted |}])%list
      | None => None
      end
  end.
End Messages.

End SamplingServiceLive.

(* ------------------------------------------------------------------ *)
(** ** The prompt and resource handlers of [ElicitationWorkaround] *)

(** [s.replace(pat, rep)] for a string [pat] and a replacement without
    [$]: the first occurrence is replaced. *)
Fixpoint replace_first_chars (pat rep l : list ascii) : list ascii :=
  if is_prefix pat l then (rep ++ skipn (length pat) l)%list
  else
    match l with
    | [] => []
    | c :: r => c :: replace_first_chars pat rep r
    end.

Definition replace_first (pat rep s : string) : string :=
  str (replace_first_chars (chars pat) (chars rep) (chars s)).

Module Handlers.

(** What [GetPrompt] returns: the description, the text of the user
    message, and the embedded resource (its uri and the three fields of its
    JSON text). *)
Record Prompt : Type := {
  description : string;
  message : string;
  resource_uri : string;
  resource_elicitation : Elicitation.t;
  resource_context : option (Dict JsValue);
  resource_instructions : string
}.

(** What [ReadResource] returns: the history, or the record of a pending
    elicitation (the fields of its JSON text). *)
Inductive Resource : Type :=
| History (entries : list Workaround.HistoryItem)
| Current (id : string) (elicitation : Elicitation.t)
    (context : option (Dict JsValue)) (instructions : string)
    (validationRules : list string).

(** A handler returns or throws. *)
Inductive Outcome (A : Type) : Type :=
| Returns (a : A)
| Throws (message : string).

Arguments Returns {A} a.
Arguments Throws {A} message.

(** [getElicitationDescription]. *)
Definition getElicitationDescription (e : Elicitation.t) : string :=
  type_name (Elicitation.type e) ++ " elicitation: "
  ++ substring 0 50 (Elicitation.prompt e) ++ "...".

(** [options?.join(', ')] inside a template. *)
Definition joined_options (e : Elicitation.t) : string :=
  match Elicitation.options e with
  | Some os => join ", " os
  | None => "undefined"
  end.

Definition pattern_of (e : Elicitation.t) : string :=
  match Elicitation.pattern e with Some p => p | None => "" end.

(** [getElicitationInstructions]. *)
Definition getElicitationInstructions (e : Elicitation.t) : string :=
  join nl
    (List.app
       ["Please provide a " ++ type_name (Elicitation.type e) ++ " response."]
       (List.app
          match Elicitation.type e with
          | select =>
              ["Choose one of the following options: " ++ joined_options e]
          | confirm =>
              ["Respond with " ++ str [dquote] ++ "yes" ++ str [dquote]
               ++ " or " ++ str [dquote] ++ "no" ++ str [dquote]]
          | number => bounds "Minimum value: " "Maximum value: " e
          | text =>
              if truthy_str (Elicitation.pattern e)
              then ["Must match pattern: " ++ pattern_of e]
              else []
          end
          match Elicitation.required e with
          | Some false => []
          | _ => ["This response is required."]
          end)).

(** [getValidationRules]. *)
Definition getValidationRules (e : Elicitation.t) : list string :=
  match Elicitation.type e with
  | select => ["Must be one of: " ++ joined_options e]
  | confirm => ["Must be yes/no or equivalent (y/n, true/false)"]
  | number =>
      "Must be a valid number" :: bounds "Must be >= " "Must be <= " e
  | text =>
      "Must be a text string"
      :: if truthy_str (Elicitation.pattern e)
         then ["Must match pattern: /" ++ pattern_of e ++ "/"]
         else []
  end.

Section Registered.
Context {E : JsEngine}.

(** [formatElicitationPrompt]; [None] when [new RegExp] throws. *)
Definition formatElicitationPrompt (e : Elicitation.t)
    (context : option (Dict JsValue)) : option string :=
  match in_context (Elicitation.prompt e) context with
  | None => None
  | Some prompt =>
      Some
        match Elicitation.type e with
        | select =>
            match Elicitation.options e with
            | Some os =>
                prompt ++ nl ++ nl ++ "Options:" ++ nl
                ++ join nl (numbered 0 os)
            | None => prompt
            end
        | confirm => prompt ++ nl ++ nl ++ "(Please respond with yes/no)"
        | number =>
            if has_bound e
            then prompt ++ nl ++ nl ++ "(Constraints: "
                 ++ join ", " (bounds "minimum: " "maximum: " e) ++ ")"
            else prompt
        | text =>
            if truthy_str (Elicitation.pattern e)
            then prompt ++ nl ++ nl ++ "(Format: must match pattern /"
                 ++ pattern_of e ++ "/)"
            else prompt
        end
  end.

(** The names [ListPrompts] lists, one for each pending elicitation. *)
Definition listPrompts (st : Workaround.t) : list string :=
  map (fun id => "elicitation_" ++ id) (keys (Workaround.pendingElicitations st)).

(** The handler of [GetPrompt]. *)
Definition getPrompt (name : string) (st : Workaround.t) : Outcome Prompt :=
  let id := replace_first "elicitation_" "" name in
  match get id (Workaround.pendingElicitations st) with
  | None => Throws ("Elicitation " ++ id ++ " not found")
  | Some pending =>
      match formatElicitationPrompt (Workaround.elicitation pending)
              (Workaround.context pending) with
      | None => Throws "SyntaxError: Invalid regular expression"
      | Some prompt =>
          Returns
            {| description :=
                 getElicitationDescription (Workaround.elicitation pending);
               message := prompt;
               resource_uri := "elicitation://current/" ++ id;
               resource_elicitation := Workaround.elicitation pending;
               resource_context := Workaround.context pending;
               resource_instructions :=
                 getElicitationInstructions (Workaround.elicitation pending) |}
      end
  end.

(** The uris [ListResources] lists: the history and one for each pending
    elicitation. *)
Definition listResources (st : Workaround.t) : list string :=
  "elicitation://history"
  :: map (fun id => "elicitation://current/" ++ id)
       (keys (Workaround.pendingElicitations st)).

(** The handler of [ReadResource]. *)
Definition readResource (uri : string) (st : Workaround.t) : Outcome Resource :=
  if String.eqb uri "elicitation://history"
  then Returns (History (Workaround.conversationHistory st))
  else if is_prefix (chars "elicitation://current/") (chars uri) then
    let id := replace_first "elicitation://current/" "" uri in
    match get id (Workaround.pendingElicitations st) with
    | None => Throws ("Elicitation " ++ id ++ " not found")
    | Some pending =>
        Returns
          (Current id (Workaround.elicitation pending)
             (Workaround.context pending)
             (getElicitationInstructions (Workaround.elicitation pending))
             (getValidationRules (Workaround.elicitation pending)))
    end
  else Throws ("Unknown resource: " ++ uri).
End Registered.

End Handlers.

(* ------------------------------------------------------------------ *)
(** ** What the further properties are stated with *)

(** What a history entry is created with and keeps. *)
Definition created_with (h : Workaround.HistoryItem)
    : string * ElicitationType * string * Z :=
  (Workaround.id h, Workaround.type h, Workaround.prompt h,
   Workaround.timestamp h).

(** What the [Create] events of [evs] put into the history. *)
Fixpoint creations (evs : list Workaround.Event)
    : list (string * ElicitationType * string * Z) :=
  match evs with
  | [] => []
  | Workaround.Create i time e _ :: r =>
      (i, Elicitation.type e, Elicitation.prompt e, time) :: creations r
  | _ :: r => creations r
  end.

(** The workflow with one more state, listed last. *)
Definition with_state (name : string) (state : State.t)
    (workflow : Workflow.t) : Workflow.t :=
  {| Workflow.initial := Workflow.initial workflow;
     Workflow.states := (Workflow.states workflow ++ [(name, state)])%list;
     Workflow.maxSteps := Workflow.maxSteps workflow |}.

(** A loop state over the body [body]. *)
Definition loop_state (condition body : string) (maxIterations : option Z)
    : State.t :=
  {| State.type := loop; State.prompt := None; State.elicitation := None;
     State.sampling := None; State.context := None; State.transitions := None;
     State.template := None; State.tool := None; State.parameters := None;
     State.handler := None; State.condition := Some condition;
     State.onTrue := None; State.onFalse := None; State.branches := None;
     State.body := Some body; State.maxIterations := maxIterations |}.
(** The turns of a loop with [n] turns left at the count [i], told one
    by one: it stops when no turn is left or the condition, evaluated on
    the variables with [iteration] set to the count, is false; otherwise
    the body is executed on the store as it is, its result comes next in
    the list, and the loop goes on from the store the body left. *)
Inductive loop_turns {E : JsEngine} {W : Type}
    (run : string -> Exec W StateResult) (condition body : string)
    : nat -> Z -> Store W -> list JsValue -> Store W -> Prop :=
| turns_spent i s : loop_turns run condition body 0 i s [] s
| turns_stop n i s :
    evaluateCondition condition (set "iteration" (JNum (Fin i)) (vars s))
    = false ->
    loop_turns run condition body (S n) i s [] s
| turns_next n i s rb s1 rest s2 :
    evaluateCondition condition (set "iteration" (JNum (Fin i)) (vars s))
    = true ->
    run body s = (Success rb, s1) ->
    loop_turns run condition body n (i + 1) s1 rest s2 ->
    loop_turns run condition body (S n) i s (result rb :: rest) s2.

(** The names a run can move to from the state [st] are looked up as
    [get] looks them up: the branch targets and the [default] target are
    states or no members of [Object.prototype], and a transitions map has
    a [default] target, so that no key [String(result)] is looked up in
    it. *)
Definition moves_to_own_names (states : Dict State.t) (st : State.t) : Prop :=
  (forall t, State.onTrue st = Some t -> own_or_absent t states)
  /\ (forall t, State.onFalse st = Some t -> own_or_absent t states)
  /\ (forall trs,
        State.transitions st = Some trs ->
        truthy_str (get "default" trs) = true
        /\ forall d, get "default" trs = Some d -> own_or_absent d states).

(** What holds of the context between two turns of the loop of
    [execute]. *)
Definition trace_inv (workflow : Workflow.t) (context : WorkflowContext)
    : Prop :=
  (forall entry, In entry (history context) ->
     has (h_state entry) (Workflow.states workflow) = true)
  /\ match history context with
     | [] => currentState context = Workflow.initial workflow
     | first :: _ => h_state first = Workflow.initial workflow
     end.


(** What [step] turns the failure of a state into: the [TimeoutException]
    of [Effect.timeout] becomes a [TimeoutError]. *)
Definition step_failure {W : Type} {Sv : Services W} (currentState : string)
    (e : Failure) : Failure :=
  match e with
  | TimeoutException =>
      TimeoutError ("State execution: " ++ currentState) getTimeout
  | _ => e
  end.

(** Services like those of the test suite, except that every elicitation
    fails, as it does in the live service when the answer is invalid. *)
Definition FailingElicitation : Services TestWorld :=
  {| requestElicitation := fun _ _ w =>
       (Failed (ServiceError "ElicitationError" "Invalid response received"),
        called "requestElicitation" w);
     createCompletion := fun _ _ w =>
       (Replied "Test completion", called "createCompletion" w);
     loadToolHandler := fun _ w =>
       (Replied (fun _ w' =>
                   (HValue (JObj [("result", JStr "tool-result")]),
                    called "handler" w')),
        called "loadToolHandler" w);
     getTimeout := 5000;
     now := clock |}.

(** An elicitation state asks without a context of its own. *)
Definition ask_workflow_of (e : Elicitation.t) : Workflow.t :=
  {| Workflow.initial := "ask";
     Workflow.states :=
       [("ask", elicitation_state e (Some [("default", "done")]));
        ("done", response_state "Done" None)];
     Workflow.maxSteps := None |}.

(* ================================================================== *)
(** * Properties *)

(** ** The reference engine and the model on small inputs *)

Example ref_number_examples :
  Ref.StringToNumber "42" = Fin 42 /\ Ref.StringToNumber " -7 " = Fin (-7)
  /\ Ref.StringToNumber "" = Fin 0 /\ Ref.StringToNumber "Infinity" = PosInf
  /\ Ref.StringToNumber "abc" = NaN.
Proof. repeat split; reflexivity. Qed.

Example ref_regexp_examples :
  Ref.RegExp_test "^.*$" "false" = Some true
  /\ Ref.RegExp_test "^a.*b$" "a--b" = Some true
  /\ Ref.RegExp_test "^a.*b$" "a--c" = Some false
  /\ Ref.RegExp_test "b\.c" "ab.cd" = Some true
  /\ Ref.RegExp_test "(" "x" = None
  /\ Ref.RegExp_replace_g "{name}" "Hello {name}, {name}!" "Al"
     = Some "Hello Al, Al!".
Proof. repeat split; reflexivity. Qed.

Example comparison_examples :
  comparisonMatch "x > 5" = Some ("x", ">", "5")
  /\ comparisonMatch "x >= 5" = Some ("x", ">", "= 5")
  /\ comparisonMatch "hasAccess" = None
  /\ evaluateCondition "x > 5" [("x", JNum (Fin 7))] = true
  /\ evaluateCondition "x == 7" [("x", JStr "7")] = true.
Proof. repeat split; reflexivity. Qed.

Example wildcard_examples :
  wildcard_source "a*b.c" = "^a.*b\.c$"
  /\ matchesPattern (JStr "approved") "app*" = Some true
  /\ matchesPattern (JBool false) "false" = Some true
  /\ matchesPattern JNull "/(/" = None.
Proof. repeat split; reflexivity. Qed.

(* ------------------------------------------------------------------ *)
(** ** Records *)

Lemma get_set_same {A : Type} (k : string) (v : A) (d : Dict A) :
  get k (set k v d) = Some v.
Proof.
  induction d as [|[k' v'] r IH]; simpl.
  - now rewrite String.eqb_refl.
  - destruct (String.eqb k' k) eqn:Hk; simpl; rewrite Hk; auto.
Qed.

Lemma get_set_other {A : Type} (k k' : string) (v : A) (d : Dict A) :
  k <> k' -> get k' (set k v d) = get k' d.
Proof.
  intros Hne. induction d as [|[k0 v0] r IH]; simpl.
  - destruct (String.eqb k k') eqn:Hk; auto.
    apply String.eqb_eq in Hk. contradiction.
  - destruct (String.eqb k0 k) eqn:Hk; simpl.
    + apply String.eqb_eq in Hk. subst k0.
      destruct (String.eqb k k') eqn:Hk'; auto.
      apply String.eqb_eq in Hk'. contradiction.
    + destruct (String.eqb k0 k'); auto.
Qed.

Lemma has_true_iff {A : Type} (k : string) (d : Dict A) :
  has k d = true <-> exists v, get k d = Some v.
Proof.
  unfold has. destruct (get k d) as [v|]; split; intros H; eauto.
  - discriminate.
  - destruct H as [v H]. discriminate.
Qed.

Lemma get_In {A : Type} (k : string) (v : A) (d : Dict A) :
  get k d = Some v -> In (k, v) d.
Proof.
  induction d as [|[k' v'] r IH]; simpl; [discriminate|].
  destruct (String.eqb k' k) eqn:Hk.
  - apply String.eqb_eq in Hk. intros [= ->]. subst. now left.
  - intros H. right. auto.
Qed.

Lemma has_In_keys {A : Type} (k : string) (d : Dict A) :
  has k d = true <-> In k (keys d).
Proof.
  unfold has, keys. induction d as [|[k' v'] r IH]; simpl.
  - split; [discriminate | tauto].
  - destruct (String.eqb k' k) eqn:Hk.
    + apply String.eqb_eq in Hk. subst. tauto.
    + rewrite IH. apply String.eqb_neq in Hk. split; [tauto|].
      intros [H|H]; [contradiction | assumption].
Qed.

Lemma array_includes_In (x : string) (xs : list string) :
  array_includes x xs = true <-> In x xs.
Proof.
  unfold array_includes. rewrite existsb_exists. split.
  - intros [y [Hy He]]. apply String.eqb_eq in He. now subst.
  - intros H. exists x. split; [assumption | apply String.eqb_refl].
Qed.

(* ------------------------------------------------------------------ *)
(** ** Numbers *)



(* ------------------------------------------------------------------ *)
(** ** [validateResponse] on a number elicitation *)

Section NumberElicitation.
Context {E : JsEngine}.




End NumberElicitation.




(* ------------------------------------------------------------------ *)
(** ** [validateWorkflow] *)

Section Validation.
Variable states : Dict State.t.

Lemma bad_transition_None (trs : Dict string) :
  bad_transition states trs = None <-> targets_exist states trs.
Proof.
  unfold targets_exist. induction trs as [|[trigger t] r IH]; simpl.
  - split; [intros _ ? ? [] | reflexivity].
  - destruct (String.eqb t "") eqn:He; simpl.
    + apply String.eqb_eq in He. subst t. rewrite IH. split.
      * intros H trigger' t' [[= <- <-]|Hin] Hne;
          [congruence | now apply (H trigger')].
      * intros H trigger' t' Hin. apply (H trigger'). now right.
    + apply String.eqb_neq in He.
      destruct (has t states) eqn:Hh; simpl.
      * rewrite IH. split.
        -- intros H trigger' t' [[= <- <-]|Hin] Hne;
             [assumption | now apply (H trigger')].
        -- intros H trigger' t' Hin. apply (H trigger'). now right.
      * split; [discriminate|]. intros H.
        rewrite (H trigger t) in Hh; [discriminate | now left | assumption].
Qed.

Lemma bad_state_None (l : Dict State.t) :
  bad_state states l = None
  <-> forall stateName st trs,
        In (stateName, st) l -> State.transitions st = Some trs ->
        targets_exist states trs.
Proof.
  induction l as [|[n st] r IH]; simpl.
  - split; [intros _ ? ? ? [] | reflexivity].
  - destruct (State.transitions st) as [trs|] eqn:Ht.
    + destruct (bad_transition states trs) as [[trigger t]|] eqn:Hb.
      * split; [discriminate|]. intros H.
        assert (Hex : targets_exist states trs)
          by (apply (H n st); [now left | assumption]).
        apply bad_transition_None in Hex. congruence.
      * rewrite IH. apply bad_transition_None in Hb. split.
        -- intros H n' st' trs' [[= <- <-]|Hin] Ht';
             [replace trs' with trs by congruence; assumption
             | now apply (H n' st')].
        -- intros H n' st' trs' Hin. apply (H n' st'). now right.
    + rewrite IH. split.
      * intros H n' st' trs' [[= <- <-]|Hin] Ht';
          [congruence | now apply (H n' st')].
      * intros H n' st' trs' Hin. apply (H n' st'). now right.
Qed.

Lemma In_values (t : string) (trs : Dict string) :
  In t (values trs) <-> exists trigger, In (trigger, t) trs.
Proof.
  unfold values. rewrite in_map_iff. split.
  - intros [[trigger t'] [Heq Hin]]. simpl in Heq. subst. eauto.
  - intros [trigger Hin]. now exists (trigger, t).
Qed.

(** What [add_targets] does to the set. *)
Lemma add_targets_spec (targets reach : list string) (changed : bool) :
  exists added,
    fst (add_targets targets reach changed) = (reach ++ added)%list
    /\ (forall x, In x added -> In x targets /\ x <> "")
    /\ (forall t, In t targets -> t <> "" ->
          In t (fst (add_targets targets reach changed)))
    /\ (NoDup reach -> NoDup (fst (add_targets targets reach changed)))
    /\ ((forall t, In t targets -> t <> "" -> In t reach) ->
          add_targets targets reach changed = (reach, changed)).
Proof.
  revert reach changed.
  induction targets as [|t r IH]; intros reach changed; simpl.
  - exists []. rewrite app_nil_r. repeat split; auto; intros ? [].
  - destruct (String.eqb t "") eqn:He; simpl.
    + apply String.eqb_eq in He. subst t.
      destruct (IH reach changed) as (added & Hfst & Hadd & Hall & Hnd & Hid).
      exists added. repeat split; auto.
      * right. now apply Hadd.
      * now apply Hadd.
      * intros t [<-|Hin] Hne; [congruence | auto].
    + apply String.eqb_neq in He.
      destruct (array_includes t reach) eqn:Hin; simpl.
      * apply array_includes_In in Hin.
        destruct (IH reach changed) as (added & Hfst & Hadd & Hall & Hnd & Hid).
        exists added. repeat split; auto.
        -- right. now apply Hadd.
        -- now apply Hadd.
        -- intros t' [<-|Hin'] Hne; [|auto].
           rewrite Hfst. apply in_or_app. now left.
      * assert (Hnin : ~ In t reach).
        { intros H. apply array_includes_In in H. congruence. }
        destruct (IH (reach ++ [t])%list true)
          as (added & Hfst & Hadd & Hall & Hnd & Hid).
        exists (t :: added). repeat split.
        -- rewrite Hfst, <- app_assoc. reflexivity.
        -- destruct H as [<-|H]; [now left | right; now apply Hadd].
        -- destruct H as [<-|H]; [assumption | now apply Hadd].
        -- intros t' [<-|Hin'] Hne; [|auto].
           rewrite Hfst. apply in_or_app. left. apply in_or_app.
           right. now left.
        -- intros Hn. apply Hnd. apply NoDup_app; auto.
           ++ constructor; [intros [] | constructor].
           ++ intros x Hx [<-|[]]. contradiction.
        -- intros H. exfalso. apply Hnin. apply H; [now left | assumption].
Qed.
(** The sweep, once the transitions have been checked. *)
Hypothesis transitions_checked :
  forall stateName st trs,
    In (stateName, st) states -> State.transitions st = Some trs ->
    targets_exist states trs.

Variable init : string.

Lemma sweep_inv_length (i : nat) (reach : list string) :
  sweep_inv states init i reach -> (length reach <= length states)%nat.
Proof.
  intros H. rewrite <- (length_map fst states).
  apply NoDup_incl_length; [apply (inv_nodup H)|].
  intros x Hx. apply has_In_keys. now apply (inv_states H).
Qed.

Lemma sweep_pass_ok (fuel : nat) :
  forall i reach changed,
    sweep_inv states init i reach ->
    (length states + 1 <= fuel + i)%nat ->
    exists reach' changed',
      sweep_pass fuel states i reach changed = Success (reach', changed')
      /\ sweep_inv states init (length reach') reach'
      /\ (closed_below states (length reach) reach ->
          reach' = reach /\ changed' = changed).
Proof.
  induction fuel as [|fuel IH]; intros i reach changed Hinv Hfuel.
  - pose proof (sweep_inv_length Hinv). pose proof (inv_pos Hinv). lia.
  - simpl. destruct (nth_error reach i) as [a|] eqn:Hnth.
    + assert (Hi : (i < length reach)%nat)
        by (apply nth_error_Some; congruence).
      assert (Ha : In a reach) by (eapply nth_error_In; eauto).
      destruct (proj1 (has_true_iff a states) (inv_states Hinv a Ha))
        as [st Hst].
      rewrite Hst.
      destruct (State.transitions st) as [trs|] eqn:Htrs.
      * destruct (add_targets_spec (values trs) reach changed)
          as (added & Hfst & Hadd & Hall & Hnd & Hid).
        destruct (add_targets (values trs) reach changed)
          as [reach1 changed1] eqn:Hat.
        simpl in Hfst, Hall, Hnd.
        assert (Hedge : forall x, In x added -> edge states a x).
        { intros x Hx. destruct (Hadd x Hx) as [Hv Hne].
          apply In_values in Hv. destruct Hv as [trigger Hin].
          exists st, trs, trigger. auto. }
        assert (Hinv1 : sweep_inv states init (S i) reach1).
        { subst reach1. constructor.
          - apply Hnd, (inv_nodup Hinv).
          - intros x Hx. apply in_app_or in Hx. destruct Hx as [Hx|Hx].
            + now apply (inv_states Hinv).
            + destruct (Hedge x Hx) as (st' & trs' & trigger & H1 & H2 & H3 & H4).
              apply (@transitions_checked a st' trs' (get_In _ _ H1) H2 trigger x H3 H4).
          - intros x Hx. apply in_app_or in Hx. destruct Hx as [Hx|Hx].
            + now apply (inv_sound Hinv).
            + eapply reach_step; [apply (inv_sound Hinv a Ha) | now apply Hedge].
          - apply in_or_app. left. apply (inv_init Hinv).
          - rewrite length_app. lia.
          - intros j a' b Hj Hnj He.
            assert (Hjl : (j < length reach)%nat) by lia.
            rewrite nth_error_app1 in Hnj by assumption.
            destruct (Nat.eq_dec j i) as [->|Hne].
            + assert (a' = a) by congruence. subst a'.
              destruct He as (st' & trs' & trigger & H1 & H2 & H3 & H4).
              assert (st' = st) by congruence. subst st'.
              assert (trs' = trs) by congruence. subst trs'.
              apply Hall; [|assumption].
              apply In_values. eauto.
            + apply in_or_app. left.
              apply (inv_closed Hinv) with (j := j) (a := a'); [lia | assumption | assumption]. }
        destruct (IH (S i) reach1 changed1 Hinv1) as (r' & c' & Hrun & Hinv' & Hsame);
          [lia|].
        exists r', c'. split; [assumption|]. split; [assumption|].
        intros Hclosed.
        assert (Hnone : (reach1, changed1) = (reach, changed)).
        { apply Hid. intros t Ht Hne. apply In_values in Ht.
          destruct Ht as [trigger Hin].
          apply (Hclosed i a t Hi Hnth). exists st, trs, trigger. auto. }
        injection Hnone as -> ->.
        apply Hsame. assumption.
      * assert (Hinv1 : sweep_inv states init (S i) reach).
        { constructor; try apply Hinv.
          - lia.
          - intros j a' b Hj Hnj He.
            destruct (Nat.eq_dec j i) as [->|Hne].
            + assert (a' = a) by congruence. subst a'.
              destruct He as (st' & trs' & trigger & H1 & H2 & _).
              congruence.
            + apply (inv_closed Hinv) with (j := j) (a := a'); [lia | assumption | assumption]. }
        destruct (IH (S i) reach changed Hinv1) as (r' & c' & Hrun & Hinv' & Hsame);
          [lia|].
        exists r', c'. auto.
    + exists reach, changed. split; [reflexivity|].
      apply nth_error_None in Hnth. pose proof (inv_pos Hinv).
      assert (i = length reach) by lia. subst i.
      split; [assumption | auto].
Qed.

Lemma closed_reachable (reach : list string) :
  sweep_inv states init (length reach) reach ->
  forall x, In x reach <-> reachable states init x.
Proof.
  intros Hinv x. split; [apply (inv_sound Hinv)|].
  induction 1 as [|a b _ IHa He].
  - apply (inv_init Hinv).
  - destruct (In_nth_error _ _ IHa) as [j Hj].
    apply (inv_closed Hinv) with (j := j) (a := a); [|assumption|assumption].
    apply nth_error_Some. congruence.
Qed.

Lemma sweep_ok (fuel : nat) :
  has init states = true ->
  (length states + 2 <= fuel)%nat ->
  exists reach,
    sweep fuel states [init] = Success reach
    /\ forall x, In x reach <-> reachable states init x.
Proof.
  intros Hinit Hfuel.
  assert (Hinv0 : sweep_inv states init 0 [init]).
  { constructor.
    - constructor; [intros [] | constructor].
    - intros x [<-|[]]. assumption.
    - intros x [<-|[]]. constructor.
    - now left.
    - simpl. lia.
    - intros j a b Hj. lia. }
  destruct fuel as [|fuel]; [lia|].
  destruct (@sweep_pass_ok (S fuel) 0 [init] false Hinv0) as (r1 & c1 & Hrun & Hinv1 & _);
    [lia|].
  cbn [sweep]. rewrite Hrun.
  destruct c1.
  - destruct fuel as [|fuel]; [lia|].
    assert (Hinv1' : sweep_inv states init 0 r1).
    { constructor; try apply Hinv1; [lia|]. intros j a b Hj. lia. }
    destruct (@sweep_pass_ok (S fuel) 0 r1 false Hinv1') as (r2 & c2 & Hrun2 & _ & Hsame);
      [lia|].
    destruct (Hsame (inv_closed Hinv1)) as [-> ->].
    cbn [sweep]. rewrite Hrun2.
    exists r1. split; [reflexivity | now apply closed_reachable].
  - exists r1. split; [reflexivity | now apply closed_reachable].
Qed.

End Validation.

(** C1, as the specification states it, fails: the state that [onTrue]
    names can be removed and [validateWorkflow] still answers valid; the
    sweep does not follow [onTrue] and [onFalse] either, since it reports
    their targets as unreachable. *)
Lemma validateWorkflow_ignores_onTrue :
  validateWorkflow 5 access_workflow
  = Success (true,
             [LogDebug "Validating workflow: check";
              LogWarn "Unreachable states detected: granted, denied"])
  /\ State.onTrue (conditional_state "hasAccess" "granted" "denied" None)
     = Some "granted"
  /\ has "granted" (Workflow.states access_without_granted) = false
  /\ validateWorkflow 5 access_without_granted
     = Success (true,
                [LogDebug "Validating workflow: check";
                 LogWarn "Unreachable states detected: denied"]).
Proof. repeat split; reflexivity. Qed.

(** C1, amended: provided that neither the initial name nor a transition
    target is the name of a member of [Object.prototype] without being a
    state (the lookup [workflow.states[name]] would find the member),
    [validateWorkflow] returns, and it answers valid exactly
    when the initial state exists and every non-empty target of every
    [transitions] map names an existing state; removing a state such a
    transition names makes it answer invalid.  [onTrue], [onFalse], [body]
    and [branches] are not looked at.  When the answer is valid, the states
    that cannot be reached from the initial state over [transitions] alone
    are reported in a warning, which does not change the answer. *)
Theorem validateWorkflow_verdict (workflow : Workflow.t) (extra : nat) :
  let states := Workflow.states workflow in
  let initial := Workflow.initial workflow in
  own_or_absent initial states ->
  (forall stateName st trs trigger targetState,
     In (stateName, st) states ->
     State.transitions st = Some trs ->
     In (trigger, targetState) trs ->
     own_or_absent targetState states) ->
  exists valid log,
    validateWorkflow (length states + 2 + extra) workflow = Success (valid, log)
    /\ (valid = true
        <-> has initial states = true
            /\ forall stateName st trs,
                 In (stateName, st) states ->
                 State.transitions st = Some trs ->
                 targets_exist states trs)
    /\ (forall stateName st trs trigger targetState,
          In (stateName, st) states ->
          State.transitions st = Some trs ->
          In (trigger, targetState) trs ->
          targetState <> "" ->
          has targetState states = false ->
          valid = false)
    /\ (valid = true ->
        exists unreachableStates,
          (forall x, In x unreachableStates
                     <-> In x (keys states) /\ ~ reachable states initial x)
          /\ log = (LogDebug ("Validating workflow: " ++ initial)
                    :: unreachable_warning unreachableStates)).
Proof.
  intros states initial _ _. unfold validateWorkflow.
  fold states. fold initial.
  destruct (has initial states) eqn:Hinit; simpl.
  - destruct (bad_state states states) as [[[n trig] t]|] eqn:Hbad.
    + assert (Hno : ~ (forall stateName st trs,
                         In (stateName, st) states ->
                         State.transitions st = Some trs ->
                         targets_exist states trs)).
      { intros H. apply bad_state_None in H. congruence. }
      eexists _, _. split; [reflexivity|]. split; [|split].
      * split; [discriminate | intros [_ H]; contradiction].
      * reflexivity.
      * discriminate.
    + pose proof (proj1 (bad_state_None states states) Hbad) as Hok.
      destruct (@sweep_ok states Hok initial (length states + 2 + extra) Hinit)
        as (reach & Hsweep & Hreach); [lia|].
      rewrite Hsweep.
      set (unreachableStates :=
             filter (fun s => negb (array_includes s reach)) (keys states)).
      assert (Hun : forall x, In x unreachableStates
                              <-> In x (keys states)
                                  /\ ~ reachable states initial x).
      { intros x. unfold unreachableStates. rewrite filter_In.
        rewrite negb_true_iff.
        split; intros [H1 H2]; split; auto.
        - intros Hr. apply Hreach, array_includes_In in Hr. congruence.
        - destruct (array_includes x reach) eqn:Hi; [|reflexivity].
          exfalso. apply H2, Hreach, array_includes_In. assumption. }
      exists true,
        (LogDebug ("Validating workflow: " ++ initial)
         :: unreachable_warning unreachableStates).
      split; [|split; [|split]].
      * destruct unreachableStates; reflexivity.
      * split; auto.
      * intros n st trs trigger t Hin Htr Hint Hne Hhas.
        rewrite (Hok n st trs Hin Htr trigger t Hint Hne) in Hhas. discriminate.
      * intros _. exists unreachableStates. split; [assumption | reflexivity].
  - eexists _, _. split; [reflexivity|]. split; [|split].
    + split; [discriminate | intros [H _]; discriminate].
    + reflexivity.
    + discriminate.
Qed.

Lemma validateWorkflow_verdict_witness :
  own_or_absent (Workflow.initial chain_workflow)
    (Workflow.states chain_workflow)
  /\ exists log, validateWorkflow 5 chain_workflow = Success (true, log).
Proof.
  assert (Hin : forall stateName st trs trigger targetState,
            In (stateName, st) (Workflow.states chain_workflow) ->
            State.transitions st = Some trs ->
            In (trigger, targetState) trs ->
            has targetState (Workflow.states chain_workflow) = true).
  { intros n st trs trigger t H Htr Ht. simpl in H.
    repeat (destruct H as [H|H];
            [inversion H; subst; simpl in Htr; try discriminate;
             inversion Htr; subst; simpl in Ht; destruct Ht as [Ht|[]];
             inversion Ht; reflexivity|]).
    destruct H. }
  split; [left; reflexivity|].
  destruct (@validateWorkflow_verdict chain_workflow 0%nat)
    as (valid & log & Hrun & Hiff & _).
  - left. reflexivity.
  - intros n st trs trigger t H Htr Ht. left. exact (Hin n st trs trigger t H Htr Ht).
  - exists log.
    assert (Hv : valid = true).
    { apply Hiff. split; [reflexivity|].
      intros n st trs H Htr trigger t Ht _. exact (Hin n st trs trigger t H Htr Ht). }
    rewrite Hv in Hrun. exact Hrun.
Defined.

(* ------------------------------------------------------------------ *)
(** ** [executeState] and [step] *)

Section ExecutorFacts.
Context {E : JsEngine} {W : Type} {Sv : Services W}.

Lemma executeState_S (fuel : nat) (state : State.t) (currentState : string)
    (workflow : Workflow.t) :
  executeState (S fuel) state currentState workflow
  = bind (dispatch (run_state fuel workflow) state currentState workflow)
         (finish state).
Proof. reflexivity. Qed.

Lemma finish_success (state : State.t) (r : JsValue * option string)
    (s s' : Store W) (res : StateResult) :
  finish state r s = (Success res, s') ->
  s' = s /\ result res = fst r
  /\ resolveTransition state (fst r) (snd r) = Some (nextState res).
Proof.
  unfold finish, bind, regexp, ret, die.
  destruct (resolveTransition state (fst r) (snd r)) as [n|]; [|discriminate].
  intros [= <- <-]. auto.
Qed.

Lemma finish_resolved (state : State.t) (r : JsValue * option string)
    (s : Store W) (n : option string) :
  resolveTransition state (fst r) (snd r) = Some n ->
  finish state r s = (Success {| result := fst r; nextState := n |}, s).
Proof.
  intros H. unfold finish, bind, regexp, ret. now rewrite H.
Qed.

(** What a successful [step] has done. *)
Lemma step_success (fuel : nat) (workflow : Workflow.t)
    (context context' : WorkflowContext) (w : W) (s' : Store W) :
  step fuel workflow context w = (Success context', s') ->
  exists state r,
    get (currentState context) (Workflow.states workflow) = Some state
    /\ executeState fuel state (currentState context) workflow
         {| world := w; vars := variables context |} = (Success r, s')
    /\ context'
       = {| currentState := or_current (nextState r) (currentState context);
            variables := vars s';
            history :=
              (history context
               ++ [{| h_state := currentState context;
                      h_timestamp := now (world s');
                      h_variables := vars s' |}])%list |}.
Proof.
  unfold step.
  destruct (get (currentState context) (Workflow.states workflow)) as [state|];
    [|discriminate].
  destruct (executeState fuel state (currentState context) workflow
              {| world := w; vars := variables context |}) as [[r|e|m|] s1] eqn:Hx;
    try discriminate.
  - intros [= <- <-]. exists state, r. auto.
  - destruct e; discriminate.
Qed.

Lemma step_resolved (fuel : nat) (workflow : Workflow.t)
    (context : WorkflowContext) (w : W) (state : State.t) (r : StateResult)
    (s' : Store W) :
  get (currentState context) (Workflow.states workflow) = Some state ->
  executeState fuel state (currentState context) workflow
    {| world := w; vars := variables context |} = (Success r, s') ->
  step fuel workflow context w
  = (Success
       {| currentState := or_current (nextState r) (currentState context);
          variables := vars s';
          history :=
            (history context
             ++ [{| h_state := currentState context;
                    h_timestamp := now (world s');
                    h_variables := vars s' |}])%list |},
     s').
Proof.
  intros Hget Hx. unfold step. now rewrite Hget, Hx.
Qed.

(** An elicitation state with a spec: the service is called and its value
    stored. *)
Lemma executeState_elicitation (fuel : nat) (state : State.t)
    (currentState : string) (workflow : Workflow.t) (e : Elicitation.t)
    (s s' : Store W) (r : StateResult) :
  State.type state = elicitation ->
  State.elicitation state = Some e ->
  executeState fuel state currentState workflow s = (Success r, s') ->
  exists w',
    requestElicitation e (vars s) (world s) = (Replied (result r), w')
    /\ s' = {| world := w';
               vars := set (currentState ++ "_response") (result r) (vars s) |}.
Proof.
  intros Ht He. destruct fuel as [|fuel]; [discriminate|].
  rewrite executeState_S. unfold bind at 1, dispatch.
  rewrite Ht, He. unfold bind, get_vars, call, set_var, ret.
  destruct (requestElicitation e (vars s) (world s)) as [[value|err|m] w'] eqn:Hc;
    try discriminate.
  simpl. intros Hfin. apply finish_success in Hfin.
  destruct Hfin as (-> & Hres & _). simpl in Hres.
  exists w'. rewrite Hres. auto.
Qed.

End ExecutorFacts.

(* ------------------------------------------------------------------ *)
(** ** The history entry of a step *)

(** C5, as the specification states it, fails: the step of the
    elicitation state [ask], started with no variable, records a snapshot
    that holds the state's own output [ask_response]. *)
Lemma step_snapshot_holds_own_output :
  variables (start_of ask_workflow []) = []
  /\ fst (step 1 ask_workflow (start_of ask_workflow []) world0)
     = Success
         {| currentState := "greet";
            variables := [("ask_response", JStr "test-response")];
            history :=
              [{| h_state := "ask";
                  h_timestamp := 0;
                  h_variables := [("ask_response", JStr "test-response")] |}] |}.
Proof. split; reflexivity. Qed.

(** C5, amended: every successful step appends exactly one entry to the
    history; the entry names the state that was executed and its snapshot
    is a copy of the variables as they are after that state has executed,
    so the state's own outputs do appear in it: for an elicitation state,
    the snapshot holds the elicited value at ["<id>_response"]. *)
Theorem step_history (E : JsEngine) (W : Type) (Sv : Services W)
    (fuel : nat) (workflow : Workflow.t) (context context' : WorkflowContext)
    (w : W) (s' : Store W) :
  step fuel workflow context w = (Success context', s') ->
  exists entry,
    history context' = (history context ++ [entry])%list
    /\ h_state entry = currentState context
    /\ h_timestamp entry = now (world s')
    /\ h_variables entry = variables context'
    /\ variables context' = vars s'
    /\ forall state e,
         get (currentState context) (Workflow.states workflow) = Some state ->
         State.type state = elicitation ->
         State.elicitation state = Some e ->
         exists value w',
           requestElicitation e (variables context) w = (Replied value, w')
           /\ get (currentState context ++ "_response") (h_variables entry)
              = Some value.
Proof.
  intros Hstep.
  destruct (step_success _ _ _ _ Hstep) as (state & r & Hget & Hx & ->).
  eexists. split; [reflexivity|]. simpl.
  repeat split.
  intros state' e Hget' Ht He.
  assert (state' = state) by congruence. subst state'.
  destruct (@executeState_elicitation E W Sv fuel state (currentState context)
              workflow e _ _ r Ht He Hx) as (w' & Hcall & ->).
  simpl in *. exists (result r), w'. split; [assumption|].
  apply get_set_same.
Qed.

Lemma step_history_witness :
  step 1 ask_workflow (start_of ask_workflow []) world0
  = (Success
       {| currentState := "greet";
          variables := [("ask_response", JStr "test-response")];
          history :=
            [{| h_state := "ask";
                h_timestamp := 0;
                h_variables := [("ask_response", JStr "test-response")] |}] |},
     {| world := called "requestElicitation" world0;
        vars := [("ask_response", JStr "test-response")] |})
  /\ exists entry,
       [{| h_state := "ask";
           h_timestamp := 0;
           h_variables := [("ask_response", JStr "test-response")] |}]
       = ([] ++ [entry])%list
       /\ h_variables entry = [("ask_response", JStr "test-response")].
Proof.
  assert (H : step 1 ask_workflow (start_of ask_workflow []) world0
              = (Success
                   {| currentState := "greet";
                      variables := [("ask_response", JStr "test-response")];
                      history :=
                        [{| h_state := "ask";
                            h_timestamp := 0;
                            h_variables :=
                              [("ask_response", JStr "test-response")] |}] |},
                 {| world := called "requestElicitation" world0;
                    vars := [("ask_response", JStr "test-response")] |}))
    by reflexivity.
  split; [exact H|].
  destruct (@step_history RefEngine TestWorld TestLayers _ _ _ _ _ _ H)
    as (entry & H1 & _ & _ & H4 & _).
  exists entry. split; [exact H1 | exact H4].
Defined.

(* ------------------------------------------------------------------ *)
(** ** States that do nothing *)

Section Idle.
Context {E : JsEngine} {W : Type} {Sv : Services W}.

Lemma dispatch_does_nothing (run : string -> Exec W StateResult)
    (state : State.t) (currentState : string) (workflow : Workflow.t)
    (s : Store W) :
  does_nothing state ->
  dispatch run state currentState workflow s = (Success (JNull, None), s).
Proof.
  unfold does_nothing, dispatch.
  intros [[Ht He]|[(Ht & Hs & Hp)|[Ht Hm]]]; rewrite Ht.
  - now rewrite He.
  - rewrite Hs. unfold truthy_str in Hp.
    destruct (State.prompt state) as [p|]; [|reflexivity].
    now rewrite Hp.
  - destruct (State.tool state) as [name|]; [|reflexivity].
    destruct Hm as [Hm|Hm].
    + simpl in Hm. destruct (State.parameters state); [|reflexivity].
      now rewrite Hm.
    + now rewrite Hm.
Qed.

Lemma resolve_without_patterns (state : State.t) (r : JsValue)
    (n : option string) :
  State.transitions state = None
  \/ (exists trs, State.transitions state = Some trs
                  /\ truthy_str (get "default" trs) = true) ->
  exists n', resolveTransition state r n = Some n'.
Proof.
  unfold resolveTransition. intros [H|(trs & H & Hd)]; rewrite H.
  - eauto.
  - destruct (negb (truthy_str n)); [|eauto]. rewrite Hd. eauto.
Qed.
End Idle.

(** C10, as the specification states it, fails: the step of an
    elicitation state without its spec does not succeed when a transition
    key it has to test is a malformed regular expression. *)
Lemma step_idle_malformed_key :
  does_nothing (with_transitions (Some [("/(/", "s")]) (blank elicitation))
  /\ fst (step 1 malformed_key_workflow
            (start_of malformed_key_workflow []) world0)
     = Die "SyntaxError: Invalid regular expression".
Proof. split; [left; split; reflexivity | reflexivity]. Qed.

(** C10, amended: for an elicitation state without its [elicitation]
    field, a sampling state with neither spec nor prompt, and a tool state
    without its name or parameters, the state's kind does nothing: no
    collaborator is invoked (the world is left as it was, whatever the
    services are), the produced result is [null] and no variable is stored.
    The step succeeds as soon as resolving the state's transitions on [null]
    meets no malformed regular expression, which is the case when the state
    declares no transitions or a default one. *)
Theorem step_does_nothing (E : JsEngine) (W : Type) (Sv : Services W)
    (fuel : nat) (workflow : Workflow.t) (context : WorkflowContext) (w : W)
    (state : State.t) :
  get (currentState context) (Workflow.states workflow) = Some state ->
  does_nothing state ->
  (forall n,
     resolveTransition state JNull None = Some n ->
     executeState (S fuel) state (currentState context) workflow
       {| world := w; vars := variables context |}
     = (Success {| result := JNull; nextState := n |},
        {| world := w; vars := variables context |})
     /\ step (S fuel) workflow context w
        = (Success
             {| currentState := or_current n (currentState context);
                variables := variables context;
                history :=
                  (history context
                   ++ [{| h_state := currentState context;
                          h_timestamp := now w;
                          h_variables := variables context |}])%list |},
           {| world := w; vars := variables context |}))
  /\ (State.transitions state = None
      \/ (exists trs, State.transitions state = Some trs
                      /\ truthy_str (get "default" trs) = true) ->
      exists n, resolveTransition state JNull None = Some n)
  /\ (resolveTransition state JNull None = None ->
      step (S fuel) workflow context w
      = (Die "SyntaxError: Invalid regular expression",
         {| world := w; vars := variables context |})).
Proof.
  intros Hget Hidle.
  assert (Hx : executeState (S fuel) state (currentState context) workflow
                 {| world := w; vars := variables context |}
               = finish state (JNull, None)
                   {| world := w; vars := variables context |}).
  { rewrite executeState_S. unfold bind at 1.
    now rewrite dispatch_does_nothing. }
  split; [|split].
  - intros n Hn.
    assert (Hx' : executeState (S fuel) state (currentState context) workflow
                    {| world := w; vars := variables context |}
                  = (Success {| result := JNull; nextState := n |},
                     {| world := w; vars := variables context |})).
    { rewrite Hx. now apply finish_resolved. }
    split; [assumption|].
    unfold step. now rewrite Hget, Hx'.
  - apply resolve_without_patterns.
  - intros Hn. unfold step. rewrite Hget, Hx.
    unfold finish, bind, regexp. simpl. now rewrite Hn.
Qed.

Lemma step_does_nothing_witness :
  let workflow :=
    {| Workflow.initial := "idle";
       Workflow.states :=
         [("idle", with_transitions (Some [("default", "done")]) (blank tool));
          ("done", response_state "Done" None)];
       Workflow.maxSteps := None |} in
  (get "idle" (Workflow.states workflow)
   = Some (with_transitions (Some [("default", "done")]) (blank tool))
   /\ does_nothing (with_transitions (Some [("default", "done")]) (blank tool)))
  /\ step 1 workflow (start_of workflow [("x", JNum (Fin 1))]) world0
     = (Success
          {| currentState := "done";
             variables := [("x", JNum (Fin 1))];
             history :=
               [{| h_state := "idle"; h_timestamp := 0;
                   h_variables := [("x", JNum (Fin 1))] |}] |},
        {| world := world0; vars := [("x", JNum (Fin 1))] |}).
Proof.
  intros workflow.
  assert (Hget : get (currentState (start_of workflow [("x", JNum (Fin 1))]))
                   (Workflow.states workflow)
                 = Some (with_transitions (Some [("default", "done")])
                           (blank tool))) by reflexivity.
  assert (Hidle : does_nothing
                    (with_transitions (Some [("default", "done")]) (blank tool))).
  { right. right. split; [reflexivity | now left]. }
  split; [split; assumption|].
  destruct (@step_does_nothing RefEngine TestWorld TestLayers 0 workflow
              (start_of workflow [("x", JNum (Fin 1))]) world0 _ Hget Hidle)
    as (Hok & _ & _).
  destruct (Hok (Some "done") eq_refl) as [_ Hstep].
  exact Hstep.
Defined.

(* ------------------------------------------------------------------ *)
(** ** Conditional states *)

Lemma eqb_empty_false (s : string) : s <> "" -> String.eqb s "" = false.
Proof. intros H. now apply String.eqb_neq. Qed.

Lemma resolve_dictated (E : JsEngine) (state : State.t) (r : JsValue)
    (n : string) :
  n <> "" -> resolveTransition state r (Some n) = Some (Some n).
Proof.
  intros Hn. unfold resolveTransition.
  destruct (State.transitions state); [|reflexivity].
  simpl. now rewrite (eqb_empty_false Hn).
Qed.

(** C7: a conditional state with a condition, an [onTrue] and an [onFalse]
    (declared: present and not empty) moves to [onTrue] when the condition
    evaluates to true and to [onFalse] otherwise, whatever transitions map
    the state declares; the condition ["hasAccess"] evaluates to the value
    of the variable [hasAccess]. *)
Theorem step_conditional (E : JsEngine) (W : Type) (Sv : Services W)
    (fuel : nat) (workflow : Workflow.t) (context : WorkflowContext) (w : W)
    (state : State.t) (condition onTrue onFalse : string) :
  get (currentState context) (Workflow.states workflow) = Some state ->
  State.type state = conditional ->
  State.condition state = Some condition -> condition <> "" ->
  State.onTrue state = Some onTrue -> onTrue <> "" ->
  State.onFalse state = Some onFalse -> onFalse <> "" ->
  step (S fuel) workflow context w
  = (Success
       {| currentState :=
            if evaluateCondition condition (variables context)
            then onTrue else onFalse;
          variables := variables context;
          history :=
            (history context
             ++ [{| h_state := currentState context;
                    h_timestamp := now w;
                    h_variables := variables context |}])%list |},
     {| world := w; vars := variables context |})
  /\ (forall variables b,
        get "hasAccess" variables = Some (JBool b) ->
        evaluateCondition "hasAccess" variables = b).
Proof.
  intros Hget Ht Hc Hcne Hon Honne Hoff Hoffne. split.
  - unfold step. rewrite Hget, executeState_S.
    unfold bind at 1, dispatch. rewrite Ht, Hc, (eqb_empty_false Hcne).
    cbn [negb]. unfold bind, get_vars, ret. cbn [vars world].
    destruct (evaluateCondition condition (variables context)).
    + rewrite Hon. unfold finish, bind, regexp, ret. cbn [fst snd].
      rewrite (resolve_dictated _ _ _ Honne). cbn [nextState or_current].
      now rewrite (eqb_empty_false Honne).
    + rewrite Hoff. unfold finish, bind, regexp, ret. cbn [fst snd].
      rewrite (resolve_dictated _ _ _ Hoffne). cbn [nextState or_current].
      now rewrite (eqb_empty_false Hoffne).
  - intros variables b Hb. unfold evaluateCondition, read. rewrite Hb.
    reflexivity.
Qed.

Lemma step_conditional_witness :
  let check :=
    conditional_state "hasAccess" "granted" "denied"
      (Some [("default", "denied")]) in
  let workflow :=
    {| Workflow.initial := "check";
       Workflow.states :=
         [("check", check);
          ("granted", response_state "Access granted" None);
          ("denied", response_state "Access denied" None)];
       Workflow.maxSteps := None |} in
  (get "check" (Workflow.states workflow) = Some check
   /\ State.type check = conditional
   /\ State.condition check = Some "hasAccess" /\ "hasAccess" <> ""
   /\ State.onTrue check = Some "granted" /\ "granted" <> ""
   /\ State.onFalse check = Some "denied" /\ "denied" <> "")
  /\ fst (step 1 workflow (start_of workflow [("hasAccess", JBool true)]) world0)
     = Success
         {| currentState := "granted";
            variables := [("hasAccess", JBool true)];
            history :=
              [{| h_state := "check"; h_timestamp := 0;
                  h_variables := [("hasAccess", JBool true)] |}] |}.
Proof.
  intros check workflow.
  assert (H1 : get (currentState (start_of workflow [("hasAccess", JBool true)]))
                 (Workflow.states workflow) = Some check) by reflexivity.
  assert (H2 : State.type check = conditional) by reflexivity.
  assert (H3 : State.condition check = Some "hasAccess") by reflexivity.
  assert (H4 : "hasAccess" <> "") by discriminate.
  assert (H5 : State.onTrue check = Some "granted") by reflexivity.
  assert (H6 : "granted" <> "") by discriminate.
  assert (H7 : State.onFalse check = Some "denied") by reflexivity.
  assert (H8 : "denied" <> "") by discriminate.
  split; [repeat split; assumption|].
  destruct (@step_conditional RefEngine TestWorld TestLayers 0 workflow
              (start_of workflow [("hasAccess", JBool true)]) world0
              check "hasAccess" "granted" "denied" H1 H2 H3 H4 H5 H6 H7 H8)
    as [Hstep _].
  rewrite Hstep. reflexivity.
Defined.

(* ------------------------------------------------------------------ *)
(** ** The step budget *)

Section Budget.
Context {E : JsEngine} {W : Type} {Sv : Services W}.

Lemma retry_success (n fuel : nat) (workflow : Workflow.t)
    (context context' : WorkflowContext) :
  forall (s s' : Store W),
    retry n fuel workflow context s = (Success context', s') ->
    exists entry, history context' = (history context ++ [entry])%list.
Proof.
  induction n as [|n IH]; intros s s'; simpl;
    destruct (step fuel workflow
                {| currentState := currentState context;
                   variables := vars s;
                   history := history context |} (world s))
      as [[c|e|m|] s1] eqn:Hstep; try discriminate.
  - intros [= <- <-].
    destruct (step_success _ _ _ _ Hstep) as (state & r & _ & _ & ->).
    simpl. eauto.
  - intros [= <- <-].
    destruct (step_success _ _ _ _ Hstep) as (state & r & _ & _ & ->).
    simpl. eauto.
  - apply IH.
Qed.

Lemma iteration_history (fuel : nat) (workflow : Workflow.t)
    (context context' : WorkflowContext) (w w' : W) (c : Control) :
  iteration fuel workflow context w = (Success (c, context'), w') ->
  (length (history context') <= length (history context) + 1)%nat.
Proof.
  unfold iteration.
  destruct (get (currentState context) (Workflow.states workflow)) as [state|];
    [|discriminate].
  destruct (_ && _).
  - intros [= <- <- <-]. lia.
  - destruct (retry 2 fuel workflow context
                {| world := w; vars := variables context |})
      as [[c1|e|m|] s1] eqn:Hr; try discriminate.
    destruct (retry_success _ _ _ _ _ Hr) as [entry He].
    destruct (_ && _); intros [= <- <- <-];
      rewrite He, length_app; simpl; lia.
Qed.

Lemma run_steps_history (n fuel : nat) (workflow : Workflow.t) :
  forall (context context' : WorkflowContext) (w w' : W),
    run_steps n fuel workflow context w = (Success context', w') ->
    (length (history context') <= length (history context) + n)%nat.
Proof.
  induction n as [|n IH]; intros context context' w w'; simpl.
  - intros [= <- <-]. lia.
  - destruct (iteration fuel workflow context w) as [[[c c1]|e|m|] w1] eqn:Hi;
      try discriminate.
    pose proof (iteration_history _ _ _ _ Hi) as H1.
    destruct c.
    + intros [= <- <-]. lia.
    + intros Hrun. apply IH in Hrun. lia.
Qed.

(** One turn of the loop on the self-transitioning state. *)
Lemma iteration_self_loop (fuel : nat) (maxSteps : option Z)
    (h : list HistoryEntry) (w : W) :
  iteration (S fuel) (self_loop maxSteps)
    {| currentState := "loop"; variables := []; history := h |} w
  = (Success
       (Continue,
        {| currentState := "loop"; variables := [];
           history := (h ++ [{| h_state := "loop"; h_timestamp := now w;
                                h_variables := [] |}])%list |}),
     w).
Proof. reflexivity. Qed.
End Budget.

(** C6, as the specification states it, fails: with [maxSteps: 0] the
    budget is the default 1000, and the self-transitioning state runs 1000
    steps. *)
Lemma execute_maxSteps_zero :
  Workflow.maxSteps (self_loop (Some 0)) = Some 0
  /\ history_length (execute 3 (self_loop (Some 0)) None world0)
     = Some 1000%nat.
Proof. split; [reflexivity | vm_compute; reflexivity]. Qed.

(** C6, amended: in the context [execute] returns, [history.length] never
    exceeds the step budget, which is [maxSteps] when that is declared and
    not 0, and 1000 otherwise (no step is run when it is negative); a state
    whose [transitions.default] names its own id, run with [maxSteps] 5,
    halts after exactly 5 history entries. *)
Theorem execute_history_bound (E : JsEngine) (W : Type) (Sv : Services W)
    (fuel : nat) (workflow : Workflow.t)
    (initialContext : option (Dict JsValue)) (w w' : W)
    (context : WorkflowContext) :
  execute fuel workflow initialContext w = (Success context, w') ->
  Z.of_nat (length (history context)) <= Z.max 0 (step_budget workflow)
  /\ (forall m, Workflow.maxSteps workflow = Some m -> 0 < m ->
        Z.of_nat (length (history context)) <= m)
  /\ (Workflow.maxSteps workflow = None ->
        Z.of_nat (length (history context)) <= 1000)
  /\ exists looped,
       execute (S (S (S fuel))) (self_loop (Some 5)) None w = (Success looped, w)
       /\ currentState looped = "loop"
       /\ length (history looped) = 5%nat.
Proof.
  intros Hx.
  assert (Hb : Z.of_nat (length (history context))
               <= Z.max 0 (step_budget workflow)).
  { unfold execute in Hx.
    destruct (validateWorkflow fuel workflow) as [[[|] log]|e|m|];
      try discriminate.
    apply run_steps_history in Hx. simpl in Hx. lia. }
  split; [assumption|]. split; [|split].
  - intros m Hm Hpos. unfold step_budget in Hb. rewrite Hm in Hb.
    destruct m; lia.
  - intros Hm. unfold step_budget in Hb. rewrite Hm in Hb. lia.
  - eexists. split; [|split].
    + unfold execute.
      change (validateWorkflow (S (S (S fuel))) (self_loop (Some 5)))
        with (Success (true, [LogDebug "Validating workflow: loop"])).
      change (Z.to_nat (step_budget (self_loop (Some 5)))) with 5%nat.
      cbn [run_steps Workflow.initial self_loop].
      repeat rewrite iteration_self_loop. reflexivity.
    + reflexivity.
    + reflexivity.
Qed.

Lemma execute_history_bound_witness :
  execute 3 (self_loop (Some 2)) None world0
  = (Success
       {| currentState := "loop"; variables := [];
          history := [{| h_state := "loop"; h_timestamp := 0; h_variables := [] |};
                      {| h_state := "loop"; h_timestamp := 0; h_variables := [] |}] |},
     world0)
  /\ Z.of_nat 2 <= Z.max 0 (step_budget (self_loop (Some 2))).
Proof.
  assert (H : execute 3 (self_loop (Some 2)) None world0
              = (Success
                   {| currentState := "loop"; variables := [];
                      history :=
                        [{| h_state := "loop"; h_timestamp := 0;
                            h_variables := [] |};
                         {| h_state := "loop"; h_timestamp := 0;
                            h_variables := [] |}] |},
                 world0)) by reflexivity.
  split; [exact H|].
  destruct (@execute_history_bound RefEngine TestWorld TestLayers 3
              (self_loop (Some 2)) None world0 world0 _ H) as [Hb _].
  exact Hb.
Defined.

(* ------------------------------------------------------------------ *)
(** ** The example run of the specification *)

(** C4: the run of the specification's example ends at ["end"] with
    [name] still ["Alice"], but its history has one entry, not two: the
    loop of [execute] leaves as soon as the current state is a response
    state without transitions, before that state is stepped.  (The test
    ['should stop at terminal states'] expects 3 entries for the chain of
    three states, which gives 2.) *)
Theorem execute_hello_history :
  execute 4 hello_workflow (Some [("name", JStr "Alice")]) world0
  = (Success
       {| currentState := "end";
          variables := [("name", JStr "Alice")];
          history :=
            [{| h_state := "start"; h_timestamp := 0;
                h_variables := [("name", JStr "Alice")] |}] |},
     world0)
  /\ history_length
       (execute 4 hello_workflow (Some [("name", JStr "Alice")]) world0)
     = Some 1%nat
  /\ history_length (execute 5 chain_workflow None world0) = Some 2%nat.
Proof. repeat split; reflexivity. Qed.

(* ------------------------------------------------------------------ *)
(** ** Transition resolution *)

Section Transitions.
Context {E : JsEngine} {W : Type} {Sv : Services W}.

(** Only a conditional state dictates the next state itself. *)
Lemma dispatch_not_dictated (run : string -> Exec W StateResult)
    (state : State.t) (currentState : string) (workflow : Workflow.t)
    (s s' : Store W) (p : JsValue * option string) :
  State.type state <> conditional ->
  dispatch run state currentState workflow s = (Success p, s') ->
  snd p = None.
Proof.
  intros Ht. unfold dispatch.
  destruct (State.type state); try contradiction;
    unfold bind, ret, get_vars, call, set_var, regexp, die, settle;
    repeat
      match goal with
      | |- (_, _) = (_, _) -> _ => intros [= <- <-]; reflexivity
      | |- context [match ?x with _ => _ end] => destruct x; try discriminate
      | |- context [if ?x then _ else _] => destruct x; try discriminate
      end.
Qed.

Lemma executeState_resolves (fuel : nat) (state : State.t)
    (currentState : string) (workflow : Workflow.t) (s s' : Store W)
    (r : StateResult) :
  State.type state <> conditional ->
  executeState fuel state currentState workflow s = (Success r, s') ->
  resolveTransition state (result r) None = Some (nextState r).
Proof.
  intros Ht. destruct fuel as [|fuel]; [discriminate|].
  rewrite executeState_S. unfold bind at 1.
  destruct (dispatch (run_state fuel workflow) state currentState workflow s)
    as [[p|e|m|] s1] eqn:Hd; try discriminate.
  intros Hfin. apply finish_success in Hfin.
  destruct Hfin as (_ & Hres & Hnext).
  apply dispatch_not_dictated in Hd; [|assumption]. rewrite Hd in Hnext.
  now rewrite Hres.
Qed.

(** The loop over the entries: the first entry, other than [default],
    whose key matches gives the target. *)
Lemma first_match_found (result : JsValue) (trs : Dict string) (t : string) :
  first_match result trs = Some (Some t) ->
  exists before pattern after,
    trs = (before ++ (pattern, t) :: after)%list
    /\ pattern <> "default"
    /\ matchesPattern result pattern = Some true
    /\ forall k v, In (k, v) before ->
         k = "default" \/ matchesPattern result k = Some false.
Proof.
  induction trs as [|[k v] r IH]; simpl; [discriminate|].
  destruct (String.eqb k "default") eqn:Hk.
  - apply String.eqb_eq in Hk. intros H.
    destruct (IH H) as (before & pattern & after & -> & H1 & H2 & H3).
    exists ((k, v) :: before), pattern, after. repeat split; auto.
    intros k' v' [[= <- <-]|Hin]; [now left | eauto].
  - apply String.eqb_neq in Hk.
    destruct (matchesPattern result k) as [[|]|] eqn:Hm; try discriminate.
    + intros [= <-]. exists [], k, r. repeat split; auto. intros ? ? [].
    + intros H.
      destruct (IH H) as (before & pattern & after & -> & H1 & H2 & H3).
      exists ((k, v) :: before), pattern, after. repeat split; auto.
      intros k' v' [[= <- <-]|Hin]; [now right | eauto].
Qed.

Lemma first_match_none (result : JsValue) (trs : Dict string) :
  first_match result trs = Some None ->
  forall k v, In (k, v) trs ->
    k = "default" \/ matchesPattern result k = Some false.
Proof.
  induction trs as [|[k v] r IH]; simpl; [intros _ ? ? []|].
  destruct (String.eqb k "default") eqn:Hk.
  - apply String.eqb_eq in Hk. intros H k' v' [[= <- <-]|Hin];
      [now left | eauto].
  - destruct (matchesPattern result k) as [[|]|] eqn:Hm; try discriminate.
    intros H k' v' [[= <- <-]|Hin]; [now right | eauto].
Qed.

(** A turn of the loop on a state that declares transitions never leaves
    the loop. *)
Lemma iteration_continues (fuel : nat) (workflow : Workflow.t)
    (context context' : WorkflowContext) (w w' : W) (c : Control)
    (state : State.t) (trs : Dict string) :
  get (currentState context) (Workflow.states workflow) = Some state ->
  State.transitions state = Some trs ->
  iteration fuel workflow context w = (Success (c, context'), w') ->
  c = Continue.
Proof.
  intros Hget Htrs. unfold iteration. rewrite Hget, Htrs.
  rewrite !andb_false_r.
  destruct (retry 2 fuel workflow context
              {| world := w; vars := variables context |})
    as [[c1|e|m|] s1]; try discriminate.
  rewrite andb_false_r. intros H. now inversion H.
Qed.
End Transitions.

Lemma chars_append (a b : string) :
  chars (a ++ b) = (chars a ++ chars b)%list.
Proof.
  unfold chars. induction a as [|c a IH]; simpl; [reflexivity|].
  now rewrite IH.
Qed.

Lemma str_chars (s : string) : str (chars s) = s.
Proof. apply string_of_list_ascii_of_string. Qed.

Lemma chars_str (l : list ascii) : chars (str l) = l.
Proof. apply list_ascii_of_string_of_list_ascii. Qed.

Lemma append_assoc (a b c : string) : (a ++ b) ++ c = a ++ b ++ c.
Proof. induction a as [|x a IH]; simpl; [reflexivity|]. now rewrite IH. Qed.

Lemma str_app (a b : list ascii) : str (a ++ b) = str a ++ str b.
Proof. induction a as [|c a IH]; simpl; [reflexivity|]. now rewrite IH. Qed.

Section Patterns.
Context {E : JsEngine}.

(** A key written between two slashes is tested as the regular expression
    between them. *)
Lemma matchesPattern_regex (v : JsValue) (body : string) :
  matchesPattern v ("/" ++ body ++ "/") = RegExp_test body (ToString v).
Proof.
  unfold matchesPattern, startsWith, endsWith, slice_1_m1.
  rewrite !chars_append. change (chars "/") with ["/"%char].
  cbn [List.app]. rewrite Ascii.eqb_refl.
  change ("/"%char :: chars body ++ ["/"%char])%list
    with (["/"%char] ++ chars body ++ ["/"%char])%list.
  rewrite !rev_app_distr. cbn [rev List.app]. rewrite Ascii.eqb_refl.
  cbn [andb]. rewrite removelast_last, str_chars. reflexivity.
Qed.

Lemma flat_map_plain (f : ascii -> list ascii) (l : list ascii) :
  (forall c, plain_char c = true -> f c = [c]) ->
  forallb plain_char l = true -> flat_map f l = l.
Proof.
  intros Hf. induction l as [|c l IH]; simpl; [reflexivity|].
  intros H. apply andb_true_iff in H. destruct H as [Hc Hl].
  rewrite (Hf c Hc), (IH Hl). reflexivity.
Qed.

(** A wildcard [*] between two texts of plain characters becomes [.*]
    between the same texts, anchored at both ends. *)
Lemma wildcard_source_star (a b : string) :
  forallb plain_char (chars a) = true ->
  forallb plain_char (chars b) = true ->
  wildcard_source (a ++ "*" ++ b) = "^" ++ a ++ ".*" ++ b ++ "$".
Proof.
  intros Ha Hb. unfold wildcard_source. rewrite !chars_append.
  change (chars "*") with ["*"%char].
  rewrite flat_map_app. cbn [flat_map List.app].
  rewrite Ascii.eqb_refl.
  rewrite !flat_map_plain; try assumption.
  - rewrite !str_app, !str_chars. cbn [str string_of_list_ascii].
    rewrite !append_assoc. reflexivity.
  - intros c Hc. unfold plain_char in Hc. apply negb_true_iff in Hc.
    cbn in Hc. cbn.
    destruct (Ascii.eqb c "*"); [discriminate|]. cbn in Hc.
    rewrite Hc. reflexivity.
  - intros c Hc. unfold plain_char in Hc. apply negb_true_iff in Hc.
    cbn in Hc. cbn.
    destruct (Ascii.eqb c "*"); [discriminate|]. cbn in Hc.
    rewrite Hc. reflexivity.
Qed.

Lemma includes_star (a b : string) : includes "*" (a ++ "*" ++ b) = true.
Proof.
  unfold includes. rewrite !chars_append, existsb_app.
  change (chars "*") with ["*"%char]. cbn. rewrite orb_true_r. reflexivity.
Qed.
End Patterns.

(** C3, as the specification states it, fails.  When no key matches, the
    run is not halted by the stuck detection, which looks only at states
    without a transitions map: the state is executed again until the budget
    (here 3) is used up.  And the key equal to the stringified result is
    looked up only for a truthy result: on [null] the wildcard listed
    before the key ["null"] wins. *)
Lemma transitions_unmatched_not_halted :
  execute 4 unmatched_workflow None world0
  = (Success
       {| currentState := "s"; variables := [];
          history :=
            [{| h_state := "s"; h_timestamp := 0; h_variables := [] |};
             {| h_state := "s"; h_timestamp := 0; h_variables := [] |};
             {| h_state := "s"; h_timestamp := 0; h_variables := [] |}] |},
     world0)
  /\ get (ToString JNull) [("*", "a"); ("null", "b")] = Some "b"
  /\ fst (step 1 null_workflow (start_of null_workflow []) world0)
     = Success
         {| currentState := "a"; variables := [];
            history :=
              [{| h_state := "s"; h_timestamp := 0; h_variables := [] |}] |}.
Proof. repeat split; reflexivity. Qed.

(** C3, amended: for a state whose kind does not itself dictate the next
    state (any kind but conditional) and that declares a transitions map, a
    successful step resolves the next state in this order.  The key
    ["default"], when present with a non-empty target, wins.  Otherwise,
    when the produced result is truthy, the key equal to the stringified
    result, when present with a non-empty target.  Otherwise the first key
    in the map's order, other than ["default"], that matches the
    stringified result as a pattern: a key of the form [/.../] as a regular
    expression test, a key containing [*] as a wildcard anchored at both
    ends, any other key by string equality.  When no key matches,
    [currentState] is left unchanged; as the state declares a transitions
    map, the stuck detection of the outer loop does not apply and the loop
    goes on to its next turn.  The last two steps are stated for a result
    that is falsy, or whose string is a key of the map or no member of
    [Object.prototype]: [transitions[String(result)]] would find such a
    member. *)
Theorem transition_priority (E : JsEngine) (W : Type) (Sv : Services W)
    (fuel : nat) (workflow : Workflow.t) (context context' : WorkflowContext)
    (w : W) (s' : Store W) (state : State.t) (trs : Dict string) :
  get (currentState context) (Workflow.states workflow) = Some state ->
  State.type state <> conditional ->
  State.transitions state = Some trs ->
  step fuel workflow context w = (Success context', s') ->
  exists r,
    executeState fuel state (currentState context) workflow
      {| world := w; vars := variables context |} = (Success r, s')
    /\ currentState context' = or_current (nextState r) (currentState context)
    /\ (forall d, get "default" trs = Some d -> d <> "" -> nextState r = Some d)
    /\ (truthy_str (get "default" trs) = false ->
        ToBoolean (result r) = true ->
        forall t, get (ToString (result r)) trs = Some t -> t <> "" ->
                  nextState r = Some t)
    /\ (truthy_str (get "default" trs) = false ->
        ToBoolean (result r) && truthy_str (get (ToString (result r)) trs)
        = false ->
        ToBoolean (result r) = false
        \/ own_or_absent (ToString (result r)) trs ->
        first_match (result r) trs = Some (nextState r)
        /\ (forall t, nextState r = Some t ->
              exists before pattern after,
                trs = (before ++ (pattern, t) :: after)%list
                /\ pattern <> "default"
                /\ matchesPattern (result r) pattern = Some true
                /\ forall k v, In (k, v) before ->
                     k = "default" \/ matchesPattern (result r) k = Some false)
        /\ (nextState r = None ->
              (forall k v, In (k, v) trs ->
                 k = "default" \/ matchesPattern (result r) k = Some false)
              /\ currentState context' = currentState context))
    /\ (forall c context2 w2,
          iteration fuel workflow context w = (Success (c, context2), w2) ->
          c = Continue)
    /\ (forall v k,
          matchesPattern v k
          = if startsWith "/" k && endsWith "/" k
            then RegExp_test (slice_1_m1 k) (ToString v)
            else if includes "*" k
                 then RegExp_test (wildcard_source k) (ToString v)
                 else Some (String.eqb (ToString v) k))
    /\ (forall v body,
          matchesPattern v ("/" ++ body ++ "/")
          = RegExp_test body (ToString v))
    /\ (forall v a b,
          forallb plain_char (chars a) = true ->
          forallb plain_char (chars b) = true ->
          startsWith "/" (a ++ "*" ++ b) && endsWith "/" (a ++ "*" ++ b)
          = false ->
          matchesPattern v (a ++ "*" ++ b)
          = RegExp_test ("^" ++ a ++ ".*" ++ b ++ "$") (ToString v))
    /\ (forall v k,
          startsWith "/" k && endsWith "/" k = false ->
          includes "*" k = false ->
          (matchesPattern v k = Some true <-> ToString v = k)).
Proof.
  intros Hget Ht Htrs Hstep.
  destruct (step_success _ _ _ _ Hstep) as (state' & r & Hget' & Hx & ->).
  assert (state' = state) by congruence. subst state'.
  assert (Hres := Hx). apply executeState_resolves in Hres; [|assumption].
  unfold resolveTransition in Hres. rewrite Htrs in Hres. simpl in Hres.
  exists r. split; [assumption|]. split; [reflexivity|].
  split; [|split; [|split; [|split; [|split; [|split; [|split]]]]]].
  - intros d Hd Hne. rewrite Hd in Hres. simpl in Hres.
    rewrite (eqb_empty_false Hne) in Hres. simpl in Hres. congruence.
  - intros Hnd Htrue t Hk Hne. rewrite Hnd, Htrue, Hk in Hres. simpl in Hres.
    rewrite (eqb_empty_false Hne) in Hres. simpl in Hres. congruence.
  - intros Hnd Hfalse _. rewrite Hnd, Hfalse in Hres.
    assert (Hfm : first_match (result r) trs = Some (nextState r)).
    { destruct (first_match (result r) trs) as [[t|]|];
        [congruence | congruence | discriminate]. }
    split; [assumption|]. split.
    + intros t Hn. rewrite Hn in Hfm. now apply first_match_found.
    + intros Hn. rewrite Hn in Hfm. split.
      * now apply first_match_none.
      * simpl. now rewrite Hn.
  - intros c context2 w2 Hit.
    eapply iteration_continues; eassumption.
  - reflexivity.
  - apply matchesPattern_regex.
  - intros v a b Ha Hb Hslash. unfold matchesPattern.
    rewrite Hslash, includes_star, (wildcard_source_star a b Ha Hb).
    reflexivity.
  - intros v k Hslash Hstar. unfold matchesPattern. rewrite Hslash, Hstar.
    split.
    + intros H. inversion H as [Heq]. apply String.eqb_eq. assumption.
    + intros ->. rewrite String.eqb_refl. reflexivity.
Qed.

Lemma transition_priority_witness :
  let state := response_state "x" (Some [("y", "end")]) in
  (get "s" (Workflow.states unmatched_workflow) = Some state
   /\ State.type state <> conditional
   /\ State.transitions state = Some [("y", "end")]
   /\ step 1 unmatched_workflow (start_of unmatched_workflow []) world0
      = (Success
           {| currentState := "s"; variables := [];
              history :=
                [{| h_state := "s"; h_timestamp := 0; h_variables := [] |}] |},
         {| world := world0; vars := [] |}))
  /\ exists r,
       executeState 1 state "s" unmatched_workflow
         {| world := world0; vars := [] |}
       = (Success r, {| world := world0; vars := [] |})
       /\ first_match (result r) [("y", "end")] = Some (nextState r).
Proof.
  intros state.
  assert (H1 : get (currentState (start_of unmatched_workflow []))
                 (Workflow.states unmatched_workflow) = Some state)
    by reflexivity.
  assert (H2 : State.type state <> conditional) by discriminate.
  assert (H3 : State.transitions state = Some [("y", "end")]) by reflexivity.
  assert (H4 : step 1 unmatched_workflow (start_of unmatched_workflow []) world0
               = (Success
                    {| currentState := "s"; variables := [];
                       history :=
                         [{| h_state := "s"; h_timestamp := 0;
                             h_variables := [] |}] |},
                  {| world := world0; vars := [] |})) by reflexivity.
  split; [repeat split; assumption|].
  destruct (@transition_priority RefEngine TestWorld TestLayers 1
              unmatched_workflow (start_of unmatched_workflow []) _ world0 _
              state [("y", "end")] H1 H2 H3 H4)
    as (r & Hx & _ & _ & _ & Hpat & _).
  exists r. split; [exact Hx|].
  assert (Hd : truthy_str (get "default" [("y", "end")]) = false)
    by reflexivity.
  assert (Hr : result r = JStr "x").
  { change (executeState 1 state (currentState (start_of unmatched_workflow []))
              unmatched_workflow
              {| world := world0;
                 vars := variables (start_of unmatched_workflow []) |})
      with (Success {| result := JStr "x"; nextState := None |},
            {| world := world0; vars := @nil (string * JsValue) |}) in Hx.
    injection Hx as <-. reflexivity. }
  assert (Hk : ToBoolean (result r)
               && truthy_str (get (ToString (result r)) [("y", "end")])
               = false)
    by (rewrite Hr; reflexivity).
  assert (Hown : ToBoolean (result r) = false
                 \/ own_or_absent (ToString (result r)) [("y", "end")])
    by (right; right; rewrite Hr; reflexivity).
  destruct (Hpat Hd Hk Hown) as [Hfm _]. exact Hfm.
Defined.

(* ------------------------------------------------------------------ *)
(** ** Parallel states *)




Section Parallel.
Context {E : JsEngine} {W : Type} {Sv : Services W}.


(** A response state writes nothing. *)
Lemma executeState_response_store (fuel : nat) (state : State.t)
    (currentState : string) (workflow : Workflow.t) (s s' : Store W)
    (r : StateResult) :
  State.type state = response ->
  executeState fuel state currentState workflow s = (Success r, s') ->
  s' = s.
Proof.
  intros Ht. destruct fuel as [|fuel]; [discriminate|].
  rewrite executeState_S. unfold bind at 1, dispatch. rewrite Ht.
  unfold bind, get_vars, regexp, ret, die.
  destruct (substitute _ (vars s)); [|discriminate].
  intros Hfin. apply finish_success in Hfin. tauto.
Qed.

Lemma all_branches_responses (fuel : nat) (workflow : Workflow.t)
    (bs : list string) :
  (forall b, In b bs ->
     exists st, get b (Workflow.states workflow) = Some st
                /\ State.type st = response) ->
  forall (s s1 : Store W) (results : list JsValue),
    all_branches (run_state fuel workflow) bs s = (Success results, s1) ->
    s1 = s.
Proof.
  induction bs as [|b bs IH]; intros Hall s s1 results; simpl.
  - unfold ret. now intros [= _ <-].
  - unfold bind at 1.
    destruct (run_state fuel workflow b s) as [[r|e|m|] s0] eqn:Hrun;
      try discriminate.
    destruct (Hall b (or_introl eq_refl)) as (st & Hget & Ht).
    unfold run_state in Hrun. rewrite Hget in Hrun.
    apply executeState_response_store in Hrun; [|assumption]. subst s0.
    unfold bind at 1.
    destruct (all_branches (run_state fuel workflow) bs s)
      as [[rs|e|m|] s2] eqn:Hrest; try discriminate.
    unfold ret. intros [= _ <-].
    apply (IH (fun b' Hb' => Hall b' (or_intror Hb')) _ _ _ Hrest).
Qed.

(** A response state gives its template with the variables' tokens
    replaced. *)
Lemma executeState_response_result (fuel : nat) (state : State.t)
    (currentState : string) (workflow : Workflow.t) (s s' : Store W)
    (r : StateResult) :
  State.type state = response ->
  executeState fuel state currentState workflow s = (Success r, s') ->
  exists text,
    substitute (match State.template state with Some t => t | None => "" end)
      (vars s) = Some text
    /\ result r = JStr text.
Proof.
  intros Ht. destruct fuel as [|fuel]; [discriminate|].
  rewrite executeState_S. unfold bind at 1, dispatch. rewrite Ht.
  unfold bind, get_vars, regexp, ret, die.
  destruct (substitute _ (vars s)) as [text|]; [|discriminate].
  intros Hfin. apply finish_success in Hfin.
  exists text. split; [reflexivity | tauto].
Qed.


End Parallel.




(* ------------------------------------------------------------------ *)
(** ** The pending elicitations of the fallback bridge *)

Lemma In_set {A : Type} (k i : string) (v x : A) (d : Dict A) :
  In (k, v) (set i x d) -> (k = i /\ v = x) \/ In (k, v) d.
Proof.
  induction d as [|[k0 v0] r IH]; simpl.
  - intros [[= <- <-]|[]]. now left.
  - destruct (String.eqb k0 i) eqn:Hk.
    + apply String.eqb_eq in Hk. subst k0.
      intros [[= <- <-]|H]; [now left | right; now right].
    + intros [H|H]; [right; now left|].
      destruct (IH H) as [H'|H']; [now left | right; now right].
Qed.

Lemma In_delete {A : Type} (k i : string) (v : A) (d : Dict A) :
  In (k, v) (Workaround.delete i d) -> k <> i /\ In (k, v) d.
Proof.
  induction d as [|[k0 v0] r IH]; simpl; [intros []|].
  destruct (String.eqb k0 i) eqn:Hk.
  - intros H. destruct (IH H). split; [assumption | now right].
  - apply String.eqb_neq in Hk. intros [[= <- <-]|H].
    + split; [assumption | now left].
    + destruct (IH H). split; [assumption | now right].
Qed.

Lemma get_delete {A : Type} (k i : string) (d : Dict A) :
  get k (Workaround.delete i d) = if String.eqb k i then None else get k d.
Proof.
  induction d as [|[k0 v0] r IH]; simpl.
  - now destruct (String.eqb k i).
  - destruct (String.eqb k0 i) eqn:Hk0.
    + apply String.eqb_eq in Hk0. subst k0. rewrite IH.
      rewrite (String.eqb_sym i k). now destruct (String.eqb k i).
    + simpl. rewrite IH. destruct (String.eqb k0 k) eqn:Hk; [|reflexivity].
      apply String.eqb_eq in Hk. subst k0. now rewrite Hk0.
Qed.

Lemma settle_other (p q : nat) (o : Workaround.Promise)
    (ps : list Workaround.Promise) :
  q <> p ->
  nth_error (Workaround.settle_promise p o ps) q = nth_error ps q.
Proof.
  revert p q. induction ps as [|x r IH]; intros p q Hne; simpl.
  - now destruct p.
  - destruct p as [|p], q as [|q]; simpl.
    + contradiction.
    + now destruct x.
    + now destruct x.
    + destruct x; simpl; apply IH; congruence.
Qed.

Lemma settle_waiting (p : nat) (o : Workaround.Promise)
    (ps : list Workaround.Promise) :
  nth_error ps p = Some Workaround.Waiting ->
  nth_error (Workaround.settle_promise p o ps) p = Some o.
Proof.
  revert p. induction ps as [|x r IH]; intros p; simpl.
  - destruct p; discriminate.
  - destruct p as [|p]; simpl.
    + now intros [= ->].
    + intros H. destruct x; simpl; auto.
Qed.

Lemma settle_length (p : nat) (o : Workaround.Promise)
    (ps : list Workaround.Promise) :
  length (Workaround.settle_promise p o ps) = length ps.
Proof.
  revert p. induction ps as [|x r IH]; intros p; simpl.
  - now destruct p.
  - destruct p as [|p]; destruct x; simpl; auto.
Qed.

Lemma record_response_keeps (i k : string) (v : JsValue)
    (h : list Workaround.HistoryItem) :
  (exists x, In x h /\ Workaround.id x = k) ->
  exists x, In x (Workaround.record_response i v h) /\ Workaround.id x = k.
Proof.
  induction h as [|y r IH]; simpl; intros (x & Hin & Hid); [contradiction|].
  destruct (String.eqb (Workaround.id y) i) eqn:Hy.
  - destruct Hin as [->|Hin].
    + eexists. split; [now left | exact Hid].
    + exists x. split; [now right | assumption].
  - destruct Hin as [->|Hin].
    + exists x. split; [now left | assumption].
    + destruct IH as (x' & Hin' & Hid'); [eauto|].
      exists x'. split; [now right | assumption].
Qed.

Lemma record_response_records (i : string) (v : JsValue)
    (h : list Workaround.HistoryItem) :
  (exists x, In x h /\ Workaround.id x = i) ->
  exists x,
    In x (Workaround.record_response i v h)
    /\ Workaround.id x = i /\ Workaround.response x = Some v.
Proof.
  induction h as [|y r IH]; simpl; intros (x & Hin & Hid); [contradiction|].
  destruct (String.eqb (Workaround.id y) i) eqn:Hy.
  - apply String.eqb_eq in Hy.
    eexists. split; [now left|]. simpl. auto.
  - destruct Hin as [->|Hin].
    + apply String.eqb_neq in Hy. contradiction.
    + destruct IH as (x' & Hin' & Hid'); [eauto|].
      exists x'. split; [now right | assumption].
Qed.

Section Bridge.
Context {E : JsEngine}.

Lemma bridge_inv_empty : bridge_inv Workaround.empty.
Proof. constructor; simpl; intros; contradiction. Qed.

Lemma bridge_inv_create (i : string) (time : Z) (e : Elicitation.t)
    (ctx : option (Dict JsValue)) (st : Workaround.t) :
  bridge_inv st -> bridge_inv (Workaround.createElicitation i time e ctx st).
Proof.
  intros H.
  assert (Hlt : forall k pe, In (k, pe) (Workaround.pendingElicitations st) ->
                  (Workaround.promise pe < length (Workaround.promises st))%nat).
  { intros k pe Hin. apply nth_error_Some. rewrite (inv_waiting H _ _ Hin).
    discriminate. }
  constructor; unfold Workaround.createElicitation; simpl.
  - intros k pe Hin. apply In_set in Hin. destruct Hin as [[-> ->]|Hin]; simpl.
    + rewrite nth_error_app2 by lia. now rewrite Nat.sub_diag.
    + rewrite nth_error_app1 by (eapply Hlt; eauto).
      eapply inv_waiting; eauto.
  - intros k pe k' pe' Hin Hin' Heq.
    apply In_set in Hin. apply In_set in Hin'.
    destruct Hin as [[-> ->]|Hin], Hin' as [[-> ->]|Hin']; simpl in *.
    + reflexivity.
    + pose proof (Hlt _ _ Hin'). lia.
    + pose proof (Hlt _ _ Hin). lia.
    + eapply inv_own_promise; eauto.
  - intros k p k' pe' Hin Hin' Heq.
    apply in_app_or in Hin. apply In_set in Hin'.
    destruct Hin as [Hin|[[= <- <-]|[]]], Hin' as [[-> ->]|Hin']; simpl in *.
    + pose proof (inv_timer_bound H _ _ Hin). lia.
    + eapply inv_timer_promise; eauto.
    + reflexivity.
    + pose proof (Hlt _ _ Hin'). lia.
  - intros k p Hin. rewrite length_app. simpl.
    apply in_app_or in Hin. destruct Hin as [Hin|[[= <- <-]|[]]].
    + pose proof (inv_timer_bound H _ _ Hin). lia.
    + lia.
  - intros k pe Hin. apply In_set in Hin. apply in_or_app.
    destruct Hin as [[-> ->]|Hin]; simpl.
    + right. now left.
    + left. eapply inv_timer_set; eauto.
  - intros k pe Hin. apply In_set in Hin.
    destruct Hin as [[-> ->]|Hin].
    + eexists. split; [apply in_or_app; right; now left | reflexivity].
    + destruct (inv_history H _ _ Hin) as (h & Hh & Hid).
      exists h. split; [apply in_or_app; now left | assumption].
Qed.

Lemma bridge_inv_respond (i : string) (raw : JsValue) (st : Workaround.t) :
  bridge_inv st -> bridge_inv (snd (Workaround.handleResponse i raw st)).
Proof.
  intros H. unfold Workaround.handleResponse.
  destruct (get i (Workaround.pendingElicitations st)) as [pending|] eqn:Hget;
    [|assumption].
  destruct (validateResponse raw (Workaround.elicitation pending));
    try assumption.
  apply get_In in Hget.
  constructor; simpl.
  - intros k pe Hin. apply In_delete in Hin. destruct Hin as [Hne Hin].
    rewrite settle_other; [eapply inv_waiting; eauto|].
    intros Heq. apply Hne. eapply inv_own_promise; eauto.
  - intros k pe k' pe' Hin Hin'.
    apply In_delete in Hin. apply In_delete in Hin'.
    eapply inv_own_promise; [apply H | apply Hin | apply Hin'].
  - intros k p k' pe' Hin Hin'. apply In_delete in Hin'.
    eapply inv_timer_promise; [apply H | apply Hin | apply Hin'].
  - intros k p Hin. rewrite settle_length. eapply inv_timer_bound; eauto.
  - intros k pe Hin. apply In_delete in Hin.
    eapply inv_timer_set; [apply H | apply Hin].
  - intros k pe Hin. apply In_delete in Hin.
    apply record_response_keeps. eapply inv_history; [apply H | apply Hin].
Qed.

Lemma bridge_inv_timeout (i : string) (p : nat) (st : Workaround.t) :
  bridge_inv st -> In (i, p) (Workaround.timers st) ->
  bridge_inv (Workaround.on_timeout i p st).
Proof.
  intros H Ht. unfold Workaround.on_timeout.
  destruct (has i (Workaround.pendingElicitations st)); [|assumption].
  constructor; simpl.
  - intros k pe Hin. apply In_delete in Hin. destruct Hin as [Hne Hin].
    rewrite settle_other; [eapply inv_waiting; eauto|].
    intros Heq. apply Hne. eapply inv_timer_promise; eauto.
  - intros k pe k' pe' Hin Hin'.
    apply In_delete in Hin. apply In_delete in Hin'.
    eapply inv_own_promise; [apply H | apply Hin | apply Hin'].
  - intros k q k' pe' Hin Hin'. apply In_delete in Hin'.
    eapply inv_timer_promise; [apply H | apply Hin | apply Hin'].
  - intros k q Hin. rewrite settle_length. eapply inv_timer_bound; eauto.
  - intros k pe Hin. apply In_delete in Hin.
    eapply inv_timer_set; [apply H | apply Hin].
  - intros k pe Hin. apply In_delete in Hin.
    eapply inv_history; [apply H | apply Hin].
Qed.
Lemma In_has {A : Type} (k : string) (v : A) (d : Dict A) :
  In (k, v) d -> has k d = true.
Proof.
  intros H. apply has_In_keys. unfold keys.
  apply in_map_iff. now exists (k, v).
Qed.

Lemma is_timer_true (i : string) (p : nat) (x : string * nat) :
  Workaround.is_timer i p x = true <-> x = (i, p).
Proof.
  unfold Workaround.is_timer. destruct x as [k q]. simpl.
  rewrite andb_true_iff, String.eqb_eq, Nat.eqb_eq.
  split; [intros [-> ->]; reflexivity | intros [= -> ->]; auto].
Qed.

Lemma bridge_inv_apply (ev : Workaround.Event) (st : Workaround.t) :
  bridge_inv st -> bridge_inv (Workaround.apply ev st).
Proof.
  intros H. destruct ev as [i time e ctx|i raw|i p]; simpl.
  - now apply bridge_inv_create.
  - now apply bridge_inv_respond.
  - destruct (existsb (Workaround.is_timer i p) (Workaround.timers st)) eqn:Hex;
      [|assumption].
    apply existsb_exists in Hex. destruct Hex as (x & Hx & Hix).
    apply is_timer_true in Hix. subst x.
    assert (H' : bridge_inv (Workaround.on_timeout i p st))
      by (apply bridge_inv_timeout; assumption).
    constructor; simpl.
    + apply (inv_waiting H').
    + apply (inv_own_promise H').
    + intros k q k' pe' Hin Hin' Heq. apply filter_In in Hin.
      destruct Hin as [Hin _].
      eapply inv_timer_promise; [exact H' | exact Hin | exact Hin' | exact Heq].
    + intros k q Hin. apply filter_In in Hin. destruct Hin as [Hin _].
      eapply inv_timer_bound; [exact H' | exact Hin].
    + intros k pe Hin. apply filter_In.
      split; [eapply inv_timer_set; [exact H' | exact Hin]|].
      apply negb_true_iff. destruct (Workaround.is_timer i p _) eqn:Ht;
        [|reflexivity].
      apply is_timer_true in Ht. injection Ht as -> Hp. exfalso.
      unfold Workaround.on_timeout in Hin.
      destruct (has i (Workaround.pendingElicitations st)) eqn:Hh; simpl in Hin.
      * apply In_delete in Hin. tauto.
      * apply In_has in Hin. congruence.
    + apply (inv_history H').
Qed.

Lemma bridge_inv_run (evs : list Workaround.Event) :
  forall st, bridge_inv st -> bridge_inv (Workaround.run evs st).
Proof.
  induction evs as [|ev evs IH]; intros st H; simpl; [assumption|].
  apply IH. now apply bridge_inv_apply.
Qed.

Lemma has_delete (k i : string) (d : Dict Workaround.Pending) :
  has k (Workaround.delete i d) = negb (String.eqb k i) && has k d.
Proof.
  unfold has. rewrite get_delete. now destruct (String.eqb k i).
Qed.

Lemma not_pending_stays (i : string) (ev : Workaround.Event)
    (st : Workaround.t) :
  (forall time e ctx, ev <> Workaround.Create i time e ctx) ->
  has i (Workaround.pendingElicitations st) = false ->
  has i (Workaround.pendingElicitations (Workaround.apply ev st)) = false.
Proof.
  intros Hev Hno. destruct ev as [k time e ctx|k raw|k p]; simpl.
  - unfold has. rewrite get_set_other; [exact Hno|].
    intros ->. now apply (Hev time e ctx).
  - unfold Workaround.handleResponse.
    destruct (get k (Workaround.pendingElicitations st)); [|assumption].
    destruct (validateResponse raw _); simpl; try assumption.
    rewrite has_delete, Hno. apply andb_false_r.
  - destruct (existsb _ _); [|assumption]. simpl.
    unfold Workaround.on_timeout.
    destruct (has k (Workaround.pendingElicitations st)); simpl; [|assumption].
    rewrite has_delete, Hno. apply andb_false_r.
Qed.

Lemma gone_stays (i : string) (evs : list Workaround.Event) :
  never_created i evs ->
  forall st,
    has i (Workaround.pendingElicitations st) = false ->
    has i (Workaround.pendingElicitations (Workaround.run evs st)) = false.
Proof.
  induction evs as [|ev evs IH]; intros Hnc st Hno; simpl; [assumption|].
  apply IH.
  - intros time e ctx Hin. apply (Hnc time e ctx). now right.
  - apply not_pending_stays; [|assumption].
    intros time e ctx ->. apply (Hnc time e ctx). now left.
Qed.

Lemma removals_count (i : string) (evs : list Workaround.Event) :
  never_created i evs ->
  forall st,
    Workaround.removals i evs st
    = if has i (Workaround.pendingElicitations st)
         && negb (has i (Workaround.pendingElicitations (Workaround.run evs st)))
      then 1%nat else 0%nat.
Proof.
  induction evs as [|ev evs IH]; intros Hnc st; simpl.
  - now destruct (has i _).
  - assert (Hev : forall time e ctx, ev <> Workaround.Create i time e ctx).
    { intros time e ctx ->. apply (Hnc time e ctx). now left. }
    assert (Hnc' : never_created i evs).
    { intros time e ctx Hin. apply (Hnc time e ctx). now right. }
    rewrite IH by assumption.
    destruct (has i (Workaround.pendingElicitations st)) eqn:Hst; simpl.
    + destruct (has i (Workaround.pendingElicitations (Workaround.apply ev st)))
        eqn:Hnext; simpl; [reflexivity|].
      assert (Hend : has i (Workaround.pendingElicitations
                              (Workaround.run evs (Workaround.apply ev st)))
                     = false) by (apply gone_stays; assumption).
      now rewrite Hend.
    + rewrite not_pending_stays by assumption. reflexivity.
Qed.

(** Once the timer of a pending entry has fired, the entry is gone. *)
Lemma expired_not_pending (i : string) (p : nat)
    (evs : list Workaround.Event) :
  never_created i evs ->
  In (Workaround.Expire i p) evs ->
  forall st,
    (has i (Workaround.pendingElicitations st) = true ->
     In (i, p) (Workaround.timers st)) ->
    has i (Workaround.pendingElicitations (Workaround.run evs st)) = false.
Proof.
  induction evs as [|ev evs IH]; intros Hnc Hin st Htimer; [contradiction|].
  assert (Hev : forall time e ctx, ev <> Workaround.Create i time e ctx).
  { intros time e ctx ->. apply (Hnc time e ctx). now left. }
  assert (Hnc' : never_created i evs).
  { intros time e ctx Hin'. apply (Hnc time e ctx). now right. }
  assert (Hgone : forall st',
            has i (Workaround.pendingElicitations st') = false ->
            has i (Workaround.pendingElicitations (Workaround.run evs st'))
            = false) by (intros st'; now apply gone_stays).
  simpl.
  destruct (has i (Workaround.pendingElicitations st)) eqn:Hst.
  - destruct Hin as [->|Hin].
    + apply Hgone. simpl.
      assert (Hex : existsb (Workaround.is_timer i p) (Workaround.timers st)
                    = true).
      { apply existsb_exists. exists (i, p). split; [now apply Htimer|].
        now apply is_timer_true. }
      rewrite Hex. simpl. unfold Workaround.on_timeout. rewrite Hst. simpl.
      rewrite has_delete, String.eqb_refl. reflexivity.
    + destruct (has i (Workaround.pendingElicitations (Workaround.apply ev st)))
        eqn:Hnext; [|now apply Hgone].
      apply IH; [assumption | assumption |]. intros _.
      (* the timer is still set: only its own firing removes it *)
      destruct ev as [k time e ctx|k raw|k q]; simpl in *.
      * apply in_or_app. left. now apply Htimer.
      * unfold Workaround.handleResponse.
        destruct (get k (Workaround.pendingElicitations st)); simpl;
          [|now apply Htimer].
        destruct (validateResponse raw _); simpl; now apply Htimer.
      * destruct (existsb (Workaround.is_timer k q) (Workaround.timers st))
          eqn:Hex; [|now apply Htimer].
        simpl in *. apply filter_In. split.
        -- unfold Workaround.on_timeout.
           destruct (has k (Workaround.pendingElicitations st)); simpl;
             now apply Htimer.
        -- apply negb_true_iff.
           destruct (Workaround.is_timer k q (i, p)) eqn:Ht; [|reflexivity].
           apply is_timer_true in Ht. injection Ht as <- <-. exfalso.
           unfold Workaround.on_timeout in Hnext. rewrite Hst in Hnext.
           simpl in Hnext. rewrite has_delete, String.eqb_refl in Hnext.
           discriminate.
  - apply Hgone. now apply not_pending_stays.
Qed.
End Bridge.

(** C9: in every state the bridge can reach, for a pending id: a response
    that fails [validateResponse] gets the rejection reason and leaves the
    state as it is, so the entry stays pending and its waiter unresolved;
    a response that passes resolves the waiter (and no other) with
    [transformResponse]'s output, records that value in the history entry
    of the id and deletes the pending entry (and no other).  As long as the
    id is not created anew, it is taken out of the pending map at most once,
    and exactly once as soon as its timer has fired; after a resolution it
    is never taken out again. *)
Theorem handleResponse_pending (E : JsEngine) (evs : list Workaround.Event)
    (i : string) (pending : Workaround.Pending) (raw : JsValue) :
  let st := Workaround.run evs Workaround.empty in
  get i (Workaround.pendingElicitations st) = Some pending ->
  (forall reason,
     validateResponse raw (Workaround.elicitation pending) = Invalid reason ->
     Workaround.handleResponse i raw st = (Workaround.InvalidResponse reason, st)
     /\ nth_error (Workaround.promises st) (Workaround.promise pending)
        = Some Workaround.Waiting)
  /\ (validateResponse raw (Workaround.elicitation pending) = Valid ->
      let value := transformResponse raw (Workaround.elicitation pending) in
      exists st',
        Workaround.handleResponse i raw st
        = (Workaround.ResponseAccepted value, st')
        /\ nth_error (Workaround.promises st') (Workaround.promise pending)
           = Some (Workaround.Resolved value)
        /\ (forall q, q <> Workaround.promise pending ->
              nth_error (Workaround.promises st') q
              = nth_error (Workaround.promises st) q)
        /\ (exists h, In h (Workaround.conversationHistory st')
                      /\ Workaround.id h = i
                      /\ Workaround.response h = Some value)
        /\ get i (Workaround.pendingElicitations st') = None
        /\ (forall k, k <> i ->
              get k (Workaround.pendingElicitations st')
              = get k (Workaround.pendingElicitations st))
        /\ (forall later, never_created i later ->
              Workaround.removals i later st' = 0%nat))
  /\ (forall later,
        never_created i later ->
        (Workaround.removals i later st <= 1)%nat
        /\ (In (Workaround.Expire i (Workaround.promise pending)) later ->
            Workaround.removals i later st = 1%nat
            /\ get i (Workaround.pendingElicitations (Workaround.run later st))
               = None)).
Proof.
  intros st Hget.
  assert (Hinv : bridge_inv st)
    by (apply bridge_inv_run, bridge_inv_empty).
  pose proof (get_In _ _ Hget) as Hin.
  assert (Hwait : nth_error (Workaround.promises st) (Workaround.promise pending)
                  = Some Workaround.Waiting)
    by (eapply inv_waiting; [exact Hinv | exact Hin]).
  assert (Hhas : has i (Workaround.pendingElicitations st) = true)
    by (unfold has; now rewrite Hget).
  split; [|split].
  - intros reason Hv. unfold Workaround.handleResponse.
    rewrite Hget, Hv. auto.
  - intros Hv value. unfold Workaround.handleResponse. rewrite Hget, Hv.
    eexists. split; [reflexivity|]. simpl.
    split; [now apply settle_waiting|].
    split; [intros q Hq; now apply settle_other|].
    split; [apply record_response_records;
            eapply inv_history; [exact Hinv | exact Hin]|].
    split; [rewrite get_delete; now rewrite String.eqb_refl|].
    split.
    + intros k Hk. rewrite get_delete.
      now rewrite (proj2 (String.eqb_neq k i) Hk).
    + intros later Hnc. rewrite removals_count by assumption. simpl.
      rewrite has_delete, String.eqb_refl. reflexivity.
  - intros later Hnc. rewrite removals_count by assumption. rewrite Hhas.
    split.
    + destruct (negb _); simpl; lia.
    + intros Hex.
      assert (Hgone : has i (Workaround.pendingElicitations
                              (Workaround.run later st)) = false).
      { eapply expired_not_pending; [exact Hnc | exact Hex |].
        intros _. eapply inv_timer_set; [exact Hinv | exact Hin]. }
      rewrite Hgone. split; [reflexivity|].
      unfold has in Hgone.
      destruct (get i (Workaround.pendingElicitations (Workaround.run later st)));
        [discriminate | reflexivity].
Qed.

Lemma handleResponse_pending_witness :
  let e := ask_number "How many?" (Some (Fin 1)) (Some (Fin 10)) in
  let evs := [Workaround.Create "elicit-1" 0 e None] in
  let pending :=
    {| Workaround.elicitation := e; Workaround.promise := 0%nat;
       Workaround.context := None |} in
  get "elicit-1"
    (Workaround.pendingElicitations (Workaround.run evs Workaround.empty))
  = Some pending
  /\ fst (Workaround.handleResponse "elicit-1" (JStr "42")
            (Workaround.run evs Workaround.empty))
     = Workaround.InvalidResponse "Response must be <= 10"
  /\ (Workaround.removals "elicit-1"
        [Workaround.Respond "elicit-1" (JStr "42");
         Workaround.Respond "elicit-1" (JStr "5");
         Workaround.Expire "elicit-1" 0%nat]
        (Workaround.run evs Workaround.empty) <= 1)%nat.
Proof.
  intros e evs pending.
  assert (H : get "elicit-1"
                (Workaround.pendingElicitations
                   (Workaround.run evs Workaround.empty))
              = Some pending) by reflexivity.
  destruct (@handleResponse_pending RefEngine evs "elicit-1" pending
              (JStr "42") H) as (Hbad & _ & Honce).
  split; [exact H|]. split.
  - destruct (Hbad "Response must be <= 10" eq_refl) as [Hr _].
    now rewrite Hr.
  - apply Honce. intros time e' ctx [Hc|[Hc|[Hc|[]]]]; discriminate.
Defined.

(* ================================================================== *)
(** * Further properties of the executor *)

(** A workflow whose initial state exists and whose transition targets
    all exist is valid, given fuel for the reachability sweep. *)
Lemma validateWorkflow_valid (workflow : Workflow.t) (fuel : nat) :
  has (Workflow.initial workflow) (Workflow.states workflow) = true ->
  (forall stateName st trs,
     In (stateName, st) (Workflow.states workflow) ->
     State.transitions st = Some trs ->
     targets_exist (Workflow.states workflow) trs) ->
  (length (Workflow.states workflow) + 2 <= fuel)%nat ->
  exists unreachableStates,
    validateWorkflow fuel workflow
    = Success (true,
               LogDebug ("Validating workflow: " ++ Workflow.initial workflow)
               :: unreachable_warning unreachableStates)
    /\ forall x, In x unreachableStates
                 <-> In x (keys (Workflow.states workflow))
                     /\ ~ reachable (Workflow.states workflow)
                            (Workflow.initial workflow) x.
Proof.
  intros Hinit Hok Hfuel. unfold validateWorkflow. rewrite Hinit. simpl.
  rewrite (proj2 (bad_state_None (Workflow.states workflow)
                    (Workflow.states workflow)) Hok).
  destruct (@sweep_ok (Workflow.states workflow) Hok
              (Workflow.initial workflow) fuel Hinit Hfuel)
    as (reach & Hsweep & Hreach).
  rewrite Hsweep.
  exists (filter (fun s => negb (array_includes s reach))
            (keys (Workflow.states workflow))).
  split.
  - destruct (filter _ _); reflexivity.
  - intros x. rewrite filter_In, negb_true_iff.
    split; intros [H1 H2]; split; auto.
    + intros Hr. apply Hreach, array_includes_In in Hr. congruence.
    + destruct (array_includes x reach) eqn:Hi; [|reflexivity].
      exfalso. apply H2, Hreach, array_includes_In. assumption.
Qed.

(** X1: [execute] on a workflow whose initial state is missing, or one of
    whose transitions names a missing state, fails with the validation
    error before any state is executed: no service is called.  The missing
    name is no name of a member of [Object.prototype], which
    [workflow.states[name]] would find. *)
Theorem execute_rejects_invalid (E : JsEngine) (W : Type) (Sv : Services W)
    (fuel : nat) (workflow : Workflow.t)
    (initialContext : option (Dict JsValue)) (w : W) :
  (has (Workflow.initial workflow) (Workflow.states workflow) = false
   /\ proto_member (Workflow.initial workflow) = false)
  \/ (exists stateName st trs trigger targetState,
        In (stateName, st) (Workflow.states workflow)
        /\ State.transitions st = Some trs
        /\ In (trigger, targetState) trs
        /\ targetState <> ""
        /\ has targetState (Workflow.states workflow) = false
        /\ proto_member targetState = false) ->
  execute fuel workflow initialContext w
  = (Fail (WorkflowError (Workflow.initial workflow) "validation"
             "Workflow validation failed"), w).
Proof.
  intros H. unfold execute, validateWorkflow.
  destruct (has (Workflow.initial workflow) (Workflow.states workflow))
    eqn:Hinit; simpl; [|reflexivity].
  destruct (bad_state (Workflow.states workflow) (Workflow.states workflow))
    as [[[n trig] t]|] eqn:Hbad; [reflexivity|].
  exfalso.
  destruct H as [[H _] | (n & st & trs & trig & t & Hin & Htr & Hint & Hne
                          & Hhas & _)].
  - discriminate.
  - pose proof (proj1 (bad_state_None _ _) Hbad n st trs Hin Htr trig t Hint Hne).
    congruence.
Qed.

Lemma execute_rejects_invalid_witness :
  (has "missing" [("start", response_state "Hello" None)] = false
   /\ proto_member "missing" = false)
  /\ execute 0
       {| Workflow.initial := "missing";
          Workflow.states := [("start", response_state "Hello" None)];
          Workflow.maxSteps := None |}
       None world0
     = (Fail (WorkflowError "missing" "validation" "Workflow validation failed"),
        world0).
Proof.
  split; [split; reflexivity|].
  apply (@execute_rejects_invalid RefEngine TestWorld TestLayers 0%nat
           {| Workflow.initial := "missing";
              Workflow.states := [("start", response_state "Hello" None)];
              Workflow.maxSteps := None |} None world0).
  left. split; reflexivity.
Defined.

(** X2: a valid workflow whose initial state is a response state without
    transitions is not run at all: [execute] returns the initial context,
    with an empty history, and calls no service. *)
Theorem execute_terminal_initial (E : JsEngine) (W : Type) (Sv : Services W)
    (extra : nat) (workflow : Workflow.t)
    (initialContext : option (Dict JsValue)) (w : W) (state : State.t) :
  get (Workflow.initial workflow) (Workflow.states workflow) = Some state ->
  State.type state = response ->
  State.transitions state = None ->
  (forall stateName st trs,
     In (stateName, st) (Workflow.states workflow) ->
     State.transitions st = Some trs ->
     targets_exist (Workflow.states workflow) trs) ->
  execute (length (Workflow.states workflow) + 2 + extra) workflow
    initialContext w
  = (Success
       {| currentState := Workflow.initial workflow;
          variables := match initialContext with Some v => v | None => [] end;
          history := [] |},
     w).
Proof.
  intros Hget Hty Htr Hok.
  assert (Hinit : has (Workflow.initial workflow) (Workflow.states workflow)
                  = true).
  { apply has_true_iff. eauto. }
  destruct (@validateWorkflow_valid workflow
              (length (Workflow.states workflow) + 2 + extra) Hinit Hok)
    as (un & Hv & _); [lia|].
  unfold execute. rewrite Hv.
  destruct (Z.to_nat (step_budget workflow)) as [|n]; [reflexivity|].
  simpl. unfold iteration. simpl. rewrite Hget, Hty, Htr. reflexivity.
Qed.

Lemma execute_terminal_initial_witness :
  let workflow :=
    {| Workflow.initial := "only";
       Workflow.states := [("only", response_state "Hello {name}" None)];
       Workflow.maxSteps := None |} in
  (get "only" (Workflow.states workflow)
   = Some (response_state "Hello {name}" None)
   /\ State.type (response_state "Hello {name}" None) = response
   /\ State.transitions (response_state "Hello {name}" None) = None)
  /\ execute 3 workflow (Some [("name", JStr "Alice")]) world0
     = (Success
          {| currentState := "only";
             variables := [("name", JStr "Alice")];
             history := [] |},
        world0).
Proof.
  split; [repeat split|].
  apply (@execute_terminal_initial RefEngine TestWorld TestLayers 0%nat
           {| Workflow.initial := "only";
              Workflow.states := [("only", response_state "Hello {name}" None)];
              Workflow.maxSteps := None |}
           (Some [("name", JStr "Alice")]) world0
           (response_state "Hello {name}" None));
    try reflexivity.
  intros n st trs [Hin|[]] Htr. inversion Hin; subst. discriminate.
Defined.

Section ResponsesOnly.
Context {E : JsEngine} {W : Type} {Sv : Services W}.

Lemma store_eta (s : Store W) : {| world := world s; vars := vars s |} = s.
Proof. destruct s; reflexivity. Qed.

(** A response state leaves the store as it is, however it ends. *)
Lemma executeState_response_exit (fuel : nat) (state : State.t)
    (currentState : string) (workflow : Workflow.t) (s s' : Store W)
    (x : Exit StateResult) :
  State.type state = response ->
  executeState fuel state currentState workflow s = (x, s') ->
  s' = s.
Proof.
  intros Hty. destruct fuel as [|fuel].
  - simpl. unfold out_of_fuel. congruence.
  - rewrite executeState_S. unfold bind, dispatch. rewrite Hty.
    unfold bind, get_vars, regexp, ret, die.
    destruct (substitute _ (vars s)); [|congruence].
    unfold finish, bind, regexp, ret, die.
    destruct (resolveTransition _ _ _); congruence.
Qed.

Variable workflow : Workflow.t.
Hypothesis responses :
  forall name st,
    In (name, st) (Workflow.states workflow) -> State.type st = response.

Lemma step_responses (fuel : nat) (context : WorkflowContext) (w : W)
    (x : Exit WorkflowContext) (s' : Store W) :
  step fuel workflow context w = (x, s') ->
  s' = {| world := w; vars := variables context |}.
Proof.
  unfold step.
  destruct (get (currentState context) (Workflow.states workflow))
    as [state|] eqn:Hget; [|congruence].
  pose proof (responses _ _ (get_In _ _ Hget)) as Hty.
  destruct (executeState fuel state (currentState context) workflow _)
    as [r s1] eqn:Hex.
  apply executeState_response_exit in Hex; [|assumption]. subst s1.
  destruct r as [r|[]| |]; congruence.
Qed.

Lemma retry_responses (n fuel : nat) (context : WorkflowContext) :
  forall (s s' : Store W) (x : Exit WorkflowContext),
    retry n fuel workflow context s = (x, s') ->
    s' = s
    /\ forall context', x = Success context' ->
         variables context' = vars s
         /\ exists entry,
              history context' = (history context ++ [entry])%list
              /\ h_variables entry = vars s.
Proof.
  induction n as [|n IH]; intros s s' x; simpl;
    destruct (step fuel workflow _ (world s)) as [y s1] eqn:Hstep;
    pose proof (step_responses _ _ _ Hstep) as Hs1; simpl in Hs1;
    rewrite store_eta in Hs1; subst s1.
  - intros Hx.
    assert (Hy : (y, s) = (x, s')) by (destruct y; assumption).
    inversion Hy; subst. split; [reflexivity|].
    intros context' ->. apply step_success in Hstep.
    destruct Hstep as (state & r & _ & _ & ->). simpl.
    split; [reflexivity|]. eexists. split; reflexivity.
  - destruct y as [c|e| |].
    + intros Hx. inversion Hx; subst. split; [reflexivity|].
      intros context' Hc. inversion Hc; subst. apply step_success in Hstep.
      destruct Hstep as (state & r & _ & _ & ->). simpl.
      split; [reflexivity|]. eexists. split; reflexivity.
    + apply IH.
    + intros Hx. inversion Hx; subst. split; [reflexivity | discriminate].
    + intros Hx. inversion Hx; subst. split; [reflexivity | discriminate].
Qed.

Lemma iteration_responses (fuel : nat) (context context' : WorkflowContext)
    (w w' : W) (c : Control) :
  iteration fuel workflow context w = (Success (c, context'), w') ->
  w' = w
  /\ variables context' = variables context
  /\ forall entry, In entry (history context') ->
       In entry (history context) \/ h_variables entry = variables context.
Proof.
  unfold iteration.
  destruct (get (currentState context) (Workflow.states workflow))
    as [state|]; [|discriminate].
  destruct (_ && _).
  - intros H. inversion H; subst. auto.
  - destruct (retry 2 fuel workflow context _) as [x s1] eqn:Hr.
    apply retry_responses in Hr. destruct Hr as [-> Hr].
    destruct x as [c1|e| |]; try discriminate.
    destruct (Hr c1 eq_refl) as (Hv & entry & Hh & He). simpl in *.
    assert (Hin : forall x, In x (history c1) ->
                    In x (history context) \/ h_variables x = variables context).
    { intros x. rewrite Hh, in_app_iff. intros [Hx|[<-|[]]]; auto. }
    destruct (_ && _); intros H; inversion H; subst; auto.
Qed.

Lemma run_steps_responses (n fuel : nat) :
  forall (context context' : WorkflowContext) (w w' : W),
    run_steps n fuel workflow context w = (Success context', w') ->
    w' = w
    /\ variables context' = variables context
    /\ forall entry, In entry (history context') ->
         In entry (history context) \/ h_variables entry = variables context.
Proof.
  induction n as [|n IH]; intros context context' w w'; simpl.
  - intros H. inversion H; subst. auto.
  - destruct (iteration fuel workflow context w) as [[[c c1]|e| |] w1] eqn:Hit;
      try discriminate.
    apply iteration_responses in Hit. destruct Hit as (-> & Hv & Hh).
    destruct c.
    + intros H. inversion H; subst. auto.
    + intros H. apply IH in H. destruct H as (-> & Hv' & Hh').
      split; [reflexivity|]. split; [congruence|].
      intros entry Hin. destruct (Hh' entry Hin) as [H1|H1].
      * auto.
      * right. congruence.
Qed.
End ResponsesOnly.

(** X3: a workflow made of response states only has no effect: a run that
    returns has called no service, returns the variables it was given, and
    every snapshot in its history holds those variables. *)
Theorem execute_responses_only (E : JsEngine) (W : Type) (Sv : Services W)
    (fuel : nat) (workflow : Workflow.t)
    (initialContext : option (Dict JsValue)) (w w' : W)
    (context : WorkflowContext) :
  (forall name st,
     In (name, st) (Workflow.states workflow) -> State.type st = response) ->
  execute fuel workflow initialContext w = (Success context, w') ->
  let given := match initialContext with Some v => v | None => [] end in
  w' = w
  /\ variables context = given
  /\ forall entry, In entry (history context) -> h_variables entry = given.
Proof.
  intros Hresp. unfold execute.
  destruct (validateWorkflow fuel workflow) as [[[] log]|e| |]; try discriminate.
  intros H. apply (@run_steps_responses E W Sv workflow Hresp) in H. simpl in H.
  destruct H as (-> & Hv & Hh). simpl. split; [reflexivity|].
  split; [assumption|].
  intros entry Hin. destruct (Hh entry Hin) as [[]|H]. assumption.
Qed.

Lemma execute_responses_only_witness :
  let given := [("name", JStr "Alice")] in
  let context :=
    {| currentState := "end";
       variables := given;
       history :=
         [{| h_state := "start"; h_timestamp := 0; h_variables := given |};
          {| h_state := "middle"; h_timestamp := 0; h_variables := given |}] |} in
  execute 5 chain_workflow (Some given) world0 = (Success context, world0)
  /\ world0 = world0
  /\ variables context = given
  /\ forall entry, In entry (history context) -> h_variables entry = given.
Proof.
  split; [reflexivity|].
  refine (@execute_responses_only RefEngine TestWorld TestLayers 5%nat
            chain_workflow (Some [("name", JStr "Alice")]) world0 world0
            _ _ eq_refl).
  intros name st H. simpl in H.
  repeat (destruct H as [H|H]; [inversion H; reflexivity|]). destruct H.
Defined.

Section Trace.
Context {E : JsEngine} {W : Type} {Sv : Services W}.

(** What a successful [retry] appends names the state it executed. *)
Lemma retry_entry (n fuel : nat) (workflow : Workflow.t)
    (context context' : WorkflowContext) :
  forall (s s' : Store W),
    retry n fuel workflow context s = (Success context', s') ->
    exists entry,
      history context' = (history context ++ [entry])%list
      /\ h_state entry = currentState context.
Proof.
  induction n as [|n IH]; intros s s'; simpl;
    destruct (step fuel workflow _ (world s)) as [y s1] eqn:Hstep.
  - destruct y; try discriminate. intros H. inversion H; subst.
    apply step_success in Hstep. destruct Hstep as (state & r & _ & _ & ->).
    simpl. eexists. split; reflexivity.
  - destruct y as [c|e| |]; try discriminate.
    + intros H. inversion H; subst.
      apply step_success in Hstep. destruct Hstep as (state & r & _ & _ & ->).
      simpl. eexists. split; reflexivity.
    + apply IH.
Qed.

Lemma iteration_trace (fuel : nat) (workflow : Workflow.t)
    (context context' : WorkflowContext) (w w' : W) (c : Control) :
  trace_inv workflow context ->
  iteration fuel workflow context w = (Success (c, context'), w') ->
  trace_inv workflow context'.
Proof.
  intros [Hall Hfirst]. unfold iteration.
  destruct (get (currentState context) (Workflow.states workflow))
    as [state|] eqn:Hget; [|discriminate].
  destruct (_ && _).
  - intros H. inversion H; subst. split; assumption.
  - destruct (retry 2 fuel workflow context _) as [[c1|e| |] s1] eqn:Hr;
      try discriminate.
    apply retry_entry in Hr. destruct Hr as (entry & Hh & Hs).
    assert (Hinv : trace_inv workflow c1).
    { split.
      - intros x. rewrite Hh, in_app_iff. intros [Hx|[<-|[]]]; auto.
        rewrite Hs. apply has_true_iff. eauto.
      - rewrite Hh. destruct (history context); simpl; congruence. }
    destruct (_ && _); intros H; inversion H; subst; assumption.
Qed.

Lemma run_steps_trace (n fuel : nat) (workflow : Workflow.t) :
  forall (context context' : WorkflowContext) (w w' : W),
    trace_inv workflow context ->
    run_steps n fuel workflow context w = (Success context', w') ->
    trace_inv workflow context'.
Proof.
  induction n as [|n IH]; intros context context' w w' Hinv; simpl.
  - intros H. inversion H; subst. assumption.
  - destruct (iteration fuel workflow context w) as [[[c c1]|e| |] w1] eqn:Hit;
      try discriminate.
    apply iteration_trace in Hit; [|assumption].
    destruct c.
    + intros H. inversion H; subst. assumption.
    + apply IH. assumption.
Qed.
End Trace.

(** X4: in the context [execute] returns, every history entry names a
    state of the workflow, and the first entry, when there is one, names
    the initial state; with an empty history the run is still at the
    initial state.  This is stated for workflows in which the names a run
    can move to are looked up among the states only: the initial name and
    the targets of [onTrue], [onFalse] and [default] are states or no
    members of [Object.prototype], and every transitions map has a
    [default] target. *)
Theorem execute_history_states (E : JsEngine) (W : Type) (Sv : Services W)
    (fuel : nat) (workflow : Workflow.t)
    (initialContext : option (Dict JsValue)) (w w' : W)
    (context : WorkflowContext) :
  own_or_absent (Workflow.initial workflow) (Workflow.states workflow) ->
  (forall name st,
     In (name, st) (Workflow.states workflow) ->
     moves_to_own_names (Workflow.states workflow) st) ->
  execute fuel workflow initialContext w = (Success context, w') ->
  (forall entry, In entry (history context) ->
     has (h_state entry) (Workflow.states workflow) = true)
  /\ (forall first rest, history context = first :: rest ->
        h_state first = Workflow.initial workflow)
  /\ (history context = [] -> currentState context = Workflow.initial workflow).
Proof.
  intros _ _. unfold execute.
  destruct (validateWorkflow fuel workflow) as [[[] log]|e| |]; try discriminate.
  intros H. apply run_steps_trace in H.
  - destruct H as [Hall Hfirst]. split; [assumption|].
    split.
    + intros first rest Hh. rewrite Hh in Hfirst. assumption.
    + intros Hh. rewrite Hh in Hfirst. assumption.
  - split; [intros entry []| reflexivity].
Qed.

Lemma execute_history_states_witness :
  let context :=
    {| currentState := "end";
       variables := [];
       history :=
         [{| h_state := "start"; h_timestamp := 0; h_variables := [] |};
          {| h_state := "middle"; h_timestamp := 0; h_variables := [] |}] |} in
  (own_or_absent (Workflow.initial chain_workflow)
     (Workflow.states chain_workflow)
   /\ execute 5 chain_workflow None world0 = (Success context, world0))
  /\ (forall entry, In entry (history context) ->
        has (h_state entry) (Workflow.states chain_workflow) = true)
  /\ (forall first rest, history context = first :: rest ->
        h_state first = Workflow.initial chain_workflow)
  /\ (history context = [] ->
      currentState context = Workflow.initial chain_workflow).
Proof.
  split; [split; [left; reflexivity | reflexivity]|].
  refine (@execute_history_states RefEngine TestWorld TestLayers 5%nat
            chain_workflow None world0 world0 _ _ _ eq_refl).
  - left. reflexivity.
  - assert (Hlast : moves_to_own_names (Workflow.states chain_workflow)
                      (response_state "Complete" None)).
    { repeat split; discriminate. }
    intros name st H. simpl in H.
    destruct H as [H|[H|[H|[]]]]; inversion H; subst.
    + split; [discriminate|]. split; [discriminate|].
      intros trs Htr. injection Htr as <-. split; [reflexivity|].
      intros d Hd. injection Hd as <-. left. reflexivity.
    + split; [discriminate|]. split; [discriminate|].
      intros trs Htr. injection Htr as <-. split; [reflexivity|].
      intros d Hd. injection Hd as <-. left. reflexivity.
    + exact Hlast.
Defined.

Section Loop.
Context {E : JsEngine} {W : Type} {Sv : Services W}.

(** The loop adds at most one result for each turn it has left. *)
Lemma while_loop_length (run : string -> Exec W StateResult)
    (condition body : string) (n : nat) :
  forall (iteration : Z) (acc results : list JsValue) (s s' : Store W),
    while_loop run condition body n iteration acc s = (Success results, s') ->
    (length results <= length acc + n)%nat.
Proof.
  induction n as [|n IH]; intros iteration acc results s s'; simpl.
  - unfold ret. intros H. inversion H; subst. lia.
  - unfold bind, get_vars.
    destruct (evaluateCondition condition _).
    + destruct (run body s) as [[r|e| |] s1]; try discriminate.
      intros H. apply IH in H. rewrite length_app in H. simpl in H. lia.
    + unfold ret. intros H. inversion H; subst. lia.
Qed.

(** The loop goes through its turns as [loop_turns] tells them. *)
Lemma while_loop_turns (run : string -> Exec W StateResult)
    (condition body : string) (n : nat) :
  forall (iteration : Z) (acc results : list JsValue) (s s' : Store W),
    while_loop run condition body n iteration acc s = (Success results, s') ->
    exists rest,
      results = (acc ++ rest)%list
      /\ loop_turns run condition body n iteration s rest s'.
Proof.
  induction n as [|n IH]; intros iteration acc results s s'; simpl.
  - unfold ret. intros H. inversion H; subst. exists [].
    rewrite app_nil_r. split; [reflexivity | constructor].
  - unfold bind, get_vars.
    destruct (evaluateCondition condition _) eqn:Hc.
    + destruct (run body s) as [[r|e| |] s1] eqn:Hrun; try discriminate.
      intros H. apply IH in H. destruct H as (rest & -> & Hturns).
      exists (result r :: rest). rewrite <- app_assoc. split; [reflexivity|].
      eapply turns_next; eassumption.
    + unfold ret. intros H. inversion H; subst. exists [].
      rewrite app_nil_r. split; [reflexivity | now constructor].
Qed.

(** With a body that is a response state and a condition that holds at
    every count, every turn renders the template on the same variables. *)
Lemma loop_turns_rendered (fuel : nat) (workflow : Workflow.t)
    (condition body : string) (st : State.t) :
  get body (Workflow.states workflow) = Some st ->
  State.type st = response ->
  forall (n : nat) (iteration : Z) (s : Store W) (results : list JsValue)
         (s' : Store W),
    loop_turns (run_state fuel workflow) condition body n iteration s
      results s' ->
    (forall i, evaluateCondition condition
                 (set "iteration" (JNum (Fin i)) (vars s)) = true) ->
    s' = s
    /\ length results = n
    /\ forall v, In v results ->
         exists text,
           substitute
             (match State.template st with Some t => t | None => "" end)
             (vars s) = Some text
           /\ v = JStr text.
Proof.
  intros Hget Hty n iteration s results s' Hturns.
  induction Hturns as [i s | n i s Hfalse | n i s rb s1 rest s2 Htrue Hrun
                                             Hturns IH];
    intros Hcond.
  - split; [reflexivity|]. split; [reflexivity|]. intros v [].
  - rewrite Hcond in Hfalse. discriminate.
  - unfold run_state in Hrun. rewrite Hget in Hrun.
    assert (Hs1 := Hrun).
    apply executeState_response_store in Hs1; [|assumption]. subst s1.
    apply executeState_response_result in Hrun; [|assumption].
    destruct Hrun as (text & Hsub & Hr).
    destruct (IH Hcond) as (-> & Hlen & Hin).
    split; [reflexivity|]. split; [simpl; now rewrite Hlen|].
    intros v [<-|Hv]; [eauto | auto].
Qed.
End Loop.

(** X5: a loop state with an integer [maxIterations] that returns gives
    the list of its body's results, stored under [<state>_results]: turn
    by turn, while fewer than [maxIterations] turns are done (100 when it
    is undeclared or 0) and the condition holds on the variables with
    [iteration] set to the count, the body is executed on the parent's
    variables and its result appended.  The list is never longer than
    [maxIterations], and empty when that is negative.  When the condition
    is false at entry the list is empty and nothing else changes; when it
    holds at entry and a turn is allowed, the first result is that of the
    body executed on the variables at entry; when the body is a response
    state and the condition holds at every count, the list holds the
    rendered template, [maxIterations] times.  Neither the body, unless
    it is a state, nor the condition is the name of a member of
    [Object.prototype]. *)
Theorem loop_results (E : JsEngine) (W : Type) (Sv : Services W)
    (fuel : nat) (workflow : Workflow.t) (state : State.t)
    (currentState condition body : string) (s s' : Store W)
    (r : StateResult) :
  State.type state = loop ->
  State.condition state = Some condition -> condition <> "" ->
  State.body state = Some body -> body <> "" ->
  own_or_absent body (Workflow.states workflow) ->
  proto_member condition = false ->
  executeState (S fuel) state currentState workflow s = (Success r, s') ->
  exists results s1,
    result r = JArr results
    /\ loop_turns (run_state fuel workflow) condition body
         (Z.to_nat (iteration_cap state)) 0 s results s1
    /\ s' = {| world := world s1;
               vars := set (currentState ++ "_results") (JArr results)
                         (vars s1) |}
    /\ get (currentState ++ "_results") (vars s') = Some (JArr results)
    /\ (length results <= Z.to_nat (iteration_cap state))%nat
    /\ (State.maxIterations state = None \/ State.maxIterations state = Some 0 ->
        (length results <= 100)%nat)
    /\ (forall m, State.maxIterations state = Some m -> m < 0 -> results = [])
    /\ (evaluateCondition condition
          (set "iteration" (JNum (Fin 0)) (vars s)) = false ->
        results = [] /\ s1 = s)
    /\ (evaluateCondition condition
          (set "iteration" (JNum (Fin 0)) (vars s)) = true ->
        0 < iteration_cap state ->
        exists rb sb rest,
          run_state fuel workflow body s = (Success rb, sb)
          /\ results = result rb :: rest)
    /\ (forall st,
          get body (Workflow.states workflow) = Some st ->
          State.type st = response ->
          (forall i, evaluateCondition condition
                       (set "iteration" (JNum (Fin i)) (vars s)) = true) ->
          s1 = s
          /\ length results = Z.to_nat (iteration_cap state)
          /\ forall v, In v results ->
               exists text,
                 substitute
                   (match State.template st with Some t => t | None => "" end)
                   (vars s) = Some text
                 /\ v = JStr text).
Proof.
  intros Hty Hc Hcne Hb Hbne _ _. rewrite executeState_S.
  unfold dispatch. rewrite Hty, Hc, Hb.
  rewrite (eqb_empty_false Hcne), (eqb_empty_false Hbne). simpl negb.
  cbn [andb]. unfold bind.
  destruct (while_loop _ condition body _ 0 [] s) as [[results|e| |] s1] eqn:Hw;
    try discriminate.
  unfold set_var, ret. cbn [fst snd].
  intros Hfin. apply finish_success in Hfin. destruct Hfin as (-> & Hres & _).
  cbn [fst] in Hres.
  pose proof (while_loop_length _ _ _ _ _ _ _ Hw) as Hlen. simpl in Hlen.
  destruct (@while_loop_turns E W _ _ _ _ _ _ _ _ _ Hw)
    as (rest & Hrest & Hturns).
  simpl in Hrest. subst rest.
  exists results, s1. split; [assumption|]. split; [assumption|].
  split; [reflexivity|]. cbn [vars world].
  split; [apply get_set_same|].
  split; [assumption|]. split; [|split; [|split; [|split]]].
  - intros Hm. unfold iteration_cap in Hlen.
    destruct Hm as [Hm|Hm]; rewrite Hm in Hlen; simpl in Hlen; lia.
  - intros m Hm Hneg. unfold iteration_cap in Hlen. rewrite Hm in Hlen.
    destruct m; try lia. simpl in Hlen.
    destruct results; [reflexivity | simpl in Hlen; lia].
  - intros Hfalse. inversion Hturns; subst; auto. congruence.
  - intros Htrue Hcap. inversion Hturns; subst; try lia; try congruence.
    eauto.
  - intros st Hget Hst Hcond.
    exact (@loop_turns_rendered E W Sv fuel workflow condition body st Hget Hst
             _ _ _ _ _ Hturns Hcond).
Qed.

Lemma loop_results_witness :
  let state := loop_state "go" "say" (Some 3) in
  let workflow :=
    {| Workflow.initial := "again";
       Workflow.states := [("again", state); ("say", response_state "hi" None)];
       Workflow.maxSteps := None |} in
  let s := {| world := world0; vars := [("go", JBool true)] |} in
  (State.type state = loop
   /\ State.condition state = Some "go" /\ "go" <> ""
   /\ State.body state = Some "say" /\ "say" <> ""
   /\ own_or_absent "say" (Workflow.states workflow)
   /\ proto_member "go" = false
   /\ executeState 2 state "again" workflow s
      = (Success {| result := JArr [JStr "hi"; JStr "hi"; JStr "hi"];
                    nextState := None |},
         {| world := world0;
            vars := [("go", JBool true);
                     ("again_results",
                      JArr [JStr "hi"; JStr "hi"; JStr "hi"])] |}))
  /\ exists results,
       JArr [JStr "hi"; JStr "hi"; JStr "hi"] = JArr results
       /\ (length results <= 3)%nat.
Proof.
  split; [repeat split; try discriminate; left; reflexivity|].
  destruct (@loop_results RefEngine TestWorld TestLayers 1%nat
              {| Workflow.initial := "again";
                 Workflow.states :=
                   [("again", loop_state "go" "say" (Some 3));
                    ("say", response_state "hi" None)];
                 Workflow.maxSteps := None |}
              (loop_state "go" "say" (Some 3)) "again" "go" "say"
              {| world := world0; vars := [("go", JBool true)] |}
              {| world := world0;
                 vars := [("go", JBool true);
                          ("again_results",
                           JArr [JStr "hi"; JStr "hi"; JStr "hi"])] |}
              {| result := JArr [JStr "hi"; JStr "hi"; JStr "hi"];
                 nextState := None |})
    as (results & s1 & H1 & _ & _ & _ & H3 & _);
    try reflexivity; try discriminate; [left; reflexivity|].
  exists results. split; [exact H1 | exact H3].
Defined.

Section Branch.
Context {E : JsEngine} {W : Type} {Sv : Services W}.

(** A conditional state whose condition holds moves to [onTrue]. *)
Lemma step_condition_holds (fuel : nat) (workflow : Workflow.t)
    (context : WorkflowContext) (w : W) (state : State.t)
    (condition onTrue : string) :
  get (currentState context) (Workflow.states workflow) = Some state ->
  State.type state = conditional ->
  State.condition state = Some condition -> condition <> "" ->
  evaluateCondition condition (variables context) = true ->
  State.onTrue state = Some onTrue -> onTrue <> "" ->
  step (S fuel) workflow context w
  = (Success
       {| currentState := onTrue;
          variables := variables context;
          history :=
            (history context
             ++ [{| h_state := currentState context;
                    h_timestamp := now w;
                    h_variables := variables context |}])%list |},
     {| world := w; vars := variables context |}).
Proof.
  intros Hget Hty Hc Hcne Hcond Ht Htne.
  assert (Hex : executeState (S fuel) state (currentState context) workflow
                  {| world := w; vars := variables context |}
                = (Success {| result := JBool true; nextState := Some onTrue |},
                   {| world := w; vars := variables context |})).
  { rewrite executeState_S. unfold bind at 1. unfold dispatch.
    rewrite Hty, Hc, (eqb_empty_false Hcne). cbn [negb].
    unfold bind, get_vars, ret. cbn [vars world]. rewrite Hcond, Ht.
    apply (@finish_resolved E W state (JBool true, Some onTrue)).
    apply resolve_dictated. assumption. }
  rewrite (@step_resolved E W Sv (S fuel) workflow context w state _ _ Hget Hex).
  cbn [nextState or_current result vars world].
  rewrite (eqb_empty_false Htne). reflexivity.
Qed.
End Branch.

(** X6: the branch targets of a conditional state are not validated, and
    a run that takes a branch to a name that is no state does not fail
    with a typed error: the next turn of the loop reads the type of an
    undefined state and the run dies with a [TypeError].  (The name is no
    name of a member of [Object.prototype] either: [workflow.states[name]]
    would find that member.) *)
Theorem execute_missing_branch_dies (E : JsEngine) (W : Type)
    (Sv : Services W) (extra : nat) (workflow : Workflow.t)
    (initialContext : option (Dict JsValue)) (w : W) (state : State.t)
    (condition onTrue : string) :
  let given := match initialContext with Some v => v | None => [] end in
  get (Workflow.initial workflow) (Workflow.states workflow) = Some state ->
  (forall stateName st trs,
     In (stateName, st) (Workflow.states workflow) ->
     State.transitions st = Some trs ->
     targets_exist (Workflow.states workflow) trs) ->
  State.type state = conditional ->
  State.condition state = Some condition -> condition <> "" ->
  evaluateCondition condition given = true ->
  State.onTrue state = Some onTrue -> onTrue <> "" ->
  has onTrue (Workflow.states workflow) = false ->
  proto_member onTrue = false ->
  2 <= step_budget workflow ->
  (exists log,
     validateWorkflow (length (Workflow.states workflow) + 2 + extra) workflow
     = Success (true, log))
  /\ execute (length (Workflow.states workflow) + 2 + extra) workflow
       initialContext w
     = (Die "TypeError: Cannot read properties of undefined", w).
Proof.
  intros given Hget Hok Hty Hc Hcne Hcond Ht Htne Hmissing _ Hbudget.
  assert (Hinit : has (Workflow.initial workflow) (Workflow.states workflow)
                  = true).
  { apply has_true_iff. eauto. }
  destruct (@validateWorkflow_valid workflow
              (length (Workflow.states workflow) + 2 + extra) Hinit Hok)
    as (un & Hv & _); [lia|].
  split; [eauto|].
  unfold execute. rewrite Hv.
  destruct (Z.to_nat (step_budget workflow)) as [|[|n]] eqn:Hn; try lia.
  replace (length (Workflow.states workflow) + 2 + extra)%nat
    with (S (length (Workflow.states workflow) + 1 + extra)) by lia.
  assert (Hne : String.eqb onTrue (Workflow.initial workflow) = false).
  { destruct (String.eqb onTrue (Workflow.initial workflow)) eqn:Heq;
      [|reflexivity].
    apply String.eqb_eq in Heq. congruence. }
  assert (Hnone : get onTrue (Workflow.states workflow) = None).
  { unfold has in Hmissing.
    destruct (get onTrue (Workflow.states workflow)); [discriminate|].
    reflexivity. }
  simpl run_steps. unfold iteration at 1. cbn [currentState variables].
  rewrite Hget, Hty. cbn [andb]. fold given.
  simpl retry. cbn [world vars currentState variables history].
  rewrite (@step_condition_holds E W Sv _ workflow
             {| currentState := Workflow.initial workflow;
                variables := given; history := [] |}
             w state condition onTrue Hget Hty Hc Hcne Hcond Ht Htne).
  cbn [currentState world]. rewrite Hne. cbn [andb].
  unfold iteration. cbn [currentState]. rewrite Hnone. reflexivity.
Qed.

Lemma execute_missing_branch_dies_witness :
  (get "check" (Workflow.states access_without_granted)
   = Some (conditional_state "hasAccess" "granted" "denied" None)
   /\ has "granted" (Workflow.states access_without_granted) = false
   /\ proto_member "granted" = false
   /\ 2 <= step_budget access_without_granted)
  /\ execute 4 access_without_granted (Some [("hasAccess", JBool true)]) world0
     = (Die "TypeError: Cannot read properties of undefined", world0).
Proof.
  split; [repeat split; try reflexivity; discriminate|].
  apply (@execute_missing_branch_dies RefEngine TestWorld TestLayers 1%nat
           access_without_granted (Some [("hasAccess", JBool true)]) world0
           (conditional_state "hasAccess" "granted" "denied" None)
           "hasAccess" "granted");
    try reflexivity; try discriminate.
  intros n st trs H Htr. simpl in H.
  repeat (destruct H as [H|H];
          [inversion H; subst; simpl in Htr; discriminate|]).
  destruct H.
Defined.

Section Retried.
Context {E : JsEngine} {W : Type} {Sv : Services W}.

Lemma step_elicitation_fails (fuel : nat) (workflow : Workflow.t)
    (context : WorkflowContext) (w w' : W) (state : State.t)
    (e : Elicitation.t) (err : Failure) :
  get (currentState context) (Workflow.states workflow) = Some state ->
  State.type state = elicitation ->
  State.elicitation state = Some e ->
  requestElicitation e (variables context) w = (Failed err, w') ->
  step (S fuel) workflow context w
  = (Fail (step_failure (currentState context) err),
     {| world := w'; vars := variables context |}).
Proof.
  intros Hget Hty He Hreq. unfold step. rewrite Hget, executeState_S.
  unfold bind at 1. unfold dispatch. rewrite Hty, He.
  unfold bind, get_vars, call. cbn [world vars]. rewrite Hreq.
  destruct err; reflexivity.
Qed.

Lemma retry_elicitation_fails (fuel : nat) (workflow : Workflow.t)
    (context : WorkflowContext) (state : State.t) (e : Elicitation.t)
    (err : Failure) (given : Dict JsValue) :
  get (currentState context) (Workflow.states workflow) = Some state ->
  State.type state = elicitation ->
  State.elicitation state = Some e ->
  (forall w, fst (requestElicitation e given w) = Failed err) ->
  forall (n : nat) (w : W),
    retry n (S fuel) workflow context {| world := w; vars := given |}
    = (Fail (step_failure (currentState context) err),
       {| world :=
            Nat.iter (S n) (fun w => snd (requestElicitation e given w)) w;
          vars := given |}).
Proof.
  intros Hget Hty He Hfail.
  assert (Hstep : forall w,
            step (S fuel) workflow
              {| currentState := currentState context;
                 variables := given;
                 history := history context |} w
            = (Fail (step_failure (currentState context) err),
               {| world := snd (requestElicitation e given w);
                  vars := given |})).
  { intros w.
    apply (@step_elicitation_fails fuel workflow
             {| currentState := currentState context;
                variables := given;
                history := history context |} w _ state e err Hget Hty He).
    cbn. rewrite <- (Hfail w).
    destruct (requestElicitation e given w). reflexivity. }
  induction n as [|n IH]; intros w; simpl retry; cbn [world vars];
    rewrite Hstep.
  - reflexivity.
  - rewrite IH, (Nat.iter_succ_r (S n)). reflexivity.
Qed.
End Retried.

(** X7: an elicitation that fails is asked again twice; when all three
    attempts fail, the run fails with the failure of the service (a
    timeout as a [TimeoutError] naming the state), after exactly three
    calls to the service and with no variable written. *)
Theorem failing_elicitation_retried (E : JsEngine) (W : Type)
    (Sv : Services W) (extra : nat) (workflow : Workflow.t)
    (initialContext : option (Dict JsValue)) (w : W) (state : State.t)
    (e : Elicitation.t) (err : Failure) :
  let given := match initialContext with Some v => v | None => [] end in
  let again w := snd (requestElicitation e given w) in
  get (Workflow.initial workflow) (Workflow.states workflow) = Some state ->
  State.type state = elicitation ->
  State.elicitation state = Some e ->
  (forall stateName st trs,
     In (stateName, st) (Workflow.states workflow) ->
     State.transitions st = Some trs ->
     targets_exist (Workflow.states workflow) trs) ->
  0 < step_budget workflow ->
  (forall w, fst (requestElicitation e given w) = Failed err) ->
  execute (length (Workflow.states workflow) + 2 + extra) workflow
    initialContext w
  = (Fail (step_failure (Workflow.initial workflow) err),
     again (again (again w))).
Proof.
  intros given again Hget Hty He Hok Hbudget Hfail.
  assert (Hinit : has (Workflow.initial workflow) (Workflow.states workflow)
                  = true).
  { apply has_true_iff. eauto. }
  destruct (@validateWorkflow_valid workflow
              (length (Workflow.states workflow) + 2 + extra) Hinit Hok)
    as (un & Hv & _); [lia|].
  unfold execute. rewrite Hv.
  destruct (Z.to_nat (step_budget workflow)) as [|n] eqn:Hn; [lia|].
  replace (length (Workflow.states workflow) + 2 + extra)%nat
    with (S (length (Workflow.states workflow) + 1 + extra)) by lia.
  simpl run_steps. unfold iteration. cbn [currentState variables].
  rewrite Hget, Hty. cbn [andb].
  fold given.
  rewrite (@retry_elicitation_fails E W Sv _ workflow
             {| currentState := Workflow.initial workflow;
                variables := given; history := [] |}
             state e err given Hget Hty He Hfail 2%nat w).
  reflexivity.
Qed.

Lemma failing_elicitation_retried_witness :
  let workflow := ask_workflow_of (ask text "Name?") in
  (get "ask" (Workflow.states workflow)
   = Some (elicitation_state (ask text "Name?") (Some [("default", "done")]))
   /\ 0 < step_budget workflow)
  /\ execute (Sv := FailingElicitation) 4 workflow None world0
     = (Fail (ServiceError "ElicitationError" "Invalid response received"),
        {| clock := 0;
           calls := ["requestElicitation"; "requestElicitation";
                     "requestElicitation"] |}).
Proof.
  split; [split; reflexivity|].
  apply (@failing_elicitation_retried RefEngine TestWorld FailingElicitation
           0%nat (ask_workflow_of (ask text "Name?")) None world0
           (elicitation_state (ask text "Name?") (Some [("default", "done")]))
           (ask text "Name?")
           (ServiceError "ElicitationError" "Invalid response received"));
    try reflexivity.
  intros n st trs H Htr trigger t Ht Hne. simpl in H.
  repeat (destruct H as [H|H];
          [inversion H; subst; simpl in Htr; try discriminate;
           inversion Htr; subst; simpl in Ht; destruct Ht as [Ht|[]];
           inversion Ht; reflexivity|]).
  destruct H.
Defined.

(* ================================================================== *)
(** * Further properties of [evaluateCondition] *)

(** [span] splits where the predicate first fails. *)
Lemma span_app (p : ascii -> bool) (a b : list ascii) :
  forallb p a = true ->
  (forall c r, b = c :: r -> p c = false) ->
  span p (a ++ b)%list = (a, b).
Proof.
  intros Ha Hb. induction a as [|x a IH]; simpl in *.
  - destruct b as [|c r]; [reflexivity|].
    simpl. rewrite (Hb c r eq_refl). reflexivity.
  - apply andb_true_iff in Ha. destruct Ha as [Hx Ha].
    rewrite Hx, (IH Ha). reflexivity.
Qed.

Lemma space_not_word (c : ascii) : is_space c = true -> is_word c = false.
Proof.
  destruct c as [[] [] [] [] [] [] [] []]; vm_compute; congruence.
Qed.

(** The four operators the pattern of [evaluateCondition] can capture:
    the alternatives [>=] and [<=] come after [>] and [<]. *)
Lemma comparisonMatch_parts (w sp1 op sp2 v : string) :
  w <> "" ->
  forallb is_word (chars w) = true ->
  forallb is_space (chars sp1) = true ->
  forallb is_space (chars sp2) = true ->
  In op ["=="; "!="; ">"; "<"] ->
  (exists c r, chars v = c :: r /\ is_space c = false) ->
  existsb is_line_terminator (chars v) = false ->
  comparisonMatch (w ++ sp1 ++ op ++ sp2 ++ v) = Some (w, op, v).
Proof.
  intros Hw Hword Hsp1 Hsp2 Hop (c & r & Hv & Hc) Hlt.
  unfold comparisonMatch. rewrite !chars_append.
  assert (Hfirst : exists o r',
            chars op = o :: r' /\ is_word o = false /\ is_space o = false).
  { simpl in Hop.
    destruct Hop as [<-|[<-|[<-|[<-|[]]]]];
      eexists _, _; (split; [reflexivity|]); split; reflexivity. }
  destruct Hfirst as (o & r' & Ho & Ho1 & Ho2).
  rewrite (@span_app is_word (chars w)); [|assumption|].
  2:{ intros x t Hx. destruct (chars sp1) as [|y sp] eqn:Hs; simpl in Hx.
      - rewrite Ho in Hx. simpl in Hx. inversion Hx; subst. assumption.
      - inversion Hx; subst. simpl in Hsp1.
        apply andb_true_iff in Hsp1. apply space_not_word, Hsp1. }
  destruct (chars w) as [|w0 wr] eqn:Hcw.
  { exfalso. apply Hw. rewrite <- (str_chars w), Hcw. reflexivity. }
  rewrite (@span_app is_space (chars sp1)); [|assumption|].
  2:{ intros x t Hx. rewrite Ho in Hx. simpl in Hx. inversion Hx; subst.
      assumption. }
  cbn [snd].
  assert (Htail : tail_value (chars sp2 ++ chars v)%list = Some (chars v)).
  { unfold tail_value. rewrite (@span_app is_space (chars sp2)); [|assumption|].
    - rewrite Hlt, Hv. reflexivity.
    - intros x t Hx. rewrite Hv in Hx. inversion Hx; subst. assumption. }
  rewrite <- Hcw.
  simpl in Hop.
  destruct Hop as [<-|[<-|[<-|[<-|[]]]]]; cbn -[tail_value chars str];
    change (chars "==") with ["="%char; "="%char];
    change (chars "!=") with ["!"%char; "="%char];
    change (chars ">") with [">"%char];
    change (chars "<") with ["<"%char];
    cbn -[tail_value chars str]; rewrite Htail, !str_chars; reflexivity.
Qed.

Lemma read_missing (k : string) (variables : Dict JsValue) :
  get k variables = None -> read k variables = JUndefined.
Proof. unfold read. intros ->. reflexivity. Qed.

(** X8: on a variable holding an integer, a condition [name op literal]
    with one of the operators [==], [!=], [>], [<] and a literal the
    engine reads as an integer compares the two integers, whatever white
    space surrounds the operator. *)
Theorem evaluateCondition_comparison (E : JsEngine) (w sp1 sp2 v : string)
    (variables : Dict JsValue) (n m : Z) :
  w <> "" ->
  forallb is_word (chars w) = true ->
  forallb is_space (chars sp1) = true ->
  forallb is_space (chars sp2) = true ->
  (exists c r, chars v = c :: r /\ is_space c = false) ->
  existsb is_line_terminator (chars v) = false ->
  startsWith dquote v && endsWith dquote v = false ->
  StringToNumber v = Fin m ->
  get w variables = Some (JNum (Fin n)) ->
  (forall op, get (w ++ sp1 ++ op ++ sp2 ++ v) variables = None) ->
  evaluateCondition (w ++ sp1 ++ "==" ++ sp2 ++ v) variables = (n =? m)
  /\ evaluateCondition (w ++ sp1 ++ "!=" ++ sp2 ++ v) variables
     = negb (n =? m)
  /\ evaluateCondition (w ++ sp1 ++ ">" ++ sp2 ++ v) variables = (m <? n)
  /\ evaluateCondition (w ++ sp1 ++ "<" ++ sp2 ++ v) variables = (n <? m).
Proof.
  intros Hw Hword Hsp1 Hsp2 Hv Hlt Hq Hnum Hget Hnokey.
  assert (Hop : forall op, In op ["=="; "!="; ">"; "<"] ->
            evaluateCondition (w ++ sp1 ++ op ++ sp2 ++ v) variables
            = if String.eqb op "==" then n =? m
              else if String.eqb op "!=" then negb (n =? m)
              else if String.eqb op ">" then m <? n
              else n <? m).
  { intros op Hop. unfold evaluateCondition.
    rewrite (@read_missing _ _ (Hnokey op)).
    rewrite (@comparisonMatch_parts w sp1 op sp2 v Hw Hword Hsp1 Hsp2 Hop Hv Hlt).
    rewrite Hq, Hnum. unfold read. rewrite Hget. simpl.
    simpl in Hop. destruct Hop as [<-|[<-|[<-|[<-|[]]]]]; reflexivity. }
  repeat split.
  - apply (Hop "=="). simpl. auto.
  - apply (Hop "!="). simpl. auto.
  - apply (Hop ">"). simpl. auto.
  - apply (Hop "<"). simpl. auto.
Qed.

Lemma evaluateCondition_comparison_witness :
  let variables := [("x", JNum (Fin 7))] in
  ("x" <> ""
   /\ forallb is_word (chars "x") = true
   /\ forallb is_space (chars " ") = true
   /\ existsb is_line_terminator (chars "5") = false
   /\ startsWith dquote "5" && endsWith dquote "5" = false
   /\ StringToNumber (JsEngine := RefEngine) "5" = Fin 5
   /\ get "x" variables = Some (JNum (Fin 7)))
  /\ evaluateCondition (E := RefEngine) "x == 5" variables = (7 =? 5)
  /\ evaluateCondition (E := RefEngine) "x != 5" variables = negb (7 =? 5)
  /\ evaluateCondition (E := RefEngine) "x > 5" variables = (5 <? 7)
  /\ evaluateCondition (E := RefEngine) "x < 5" variables = (7 <? 5).
Proof.
  split; [repeat split; discriminate|].
  apply (@evaluateCondition_comparison RefEngine "x" " " " " "5"
           [("x", JNum (Fin 7))] 7 5); try reflexivity.
  - discriminate.
  - exists "5"%char, []. split; reflexivity.
Defined.

(** X9: the operators [>=] and [<=] are never captured: the pattern takes
    [>] or [<] and leaves the [=] at the head of the value, so on a
    variable holding a number such a condition is false whatever the
    number is. *)
Theorem evaluateCondition_ge_le (E : JsEngine) (w sp v : string)
    (variables : Dict JsValue) (n : JsNum) :
  w <> "" ->
  forallb is_word (chars w) = true ->
  forallb is_space (chars sp) = true ->
  existsb is_line_terminator (chars v) = false ->
  comparisonMatch (w ++ sp ++ ">=" ++ v) = Some (w, ">", "=" ++ v)
  /\ comparisonMatch (w ++ sp ++ "<=" ++ v) = Some (w, "<", "=" ++ v)
  /\ (StringToNumber ("=" ++ v) = NaN ->
      get w variables = Some (JNum n) ->
      (get (w ++ sp ++ ">=" ++ v) variables = None ->
       evaluateCondition (w ++ sp ++ ">=" ++ v) variables = false)
      /\ (get (w ++ sp ++ "<=" ++ v) variables = None ->
          evaluateCondition (w ++ sp ++ "<=" ++ v) variables = false)).
Proof.
  intros Hw Hword Hsp Hlt.
  assert (Hparse : forall op, In op ["=="; "!="; ">"; "<"] ->
            comparisonMatch (w ++ sp ++ op ++ "" ++ "=" ++ v)
            = Some (w, op, "=" ++ v)).
  { intros op Hop.
    apply comparisonMatch_parts; try assumption; try reflexivity.
    exists "="%char, (chars v). split; reflexivity. }
  assert (Hgt : comparisonMatch (w ++ sp ++ ">=" ++ v)
                = Some (w, ">", "=" ++ v)).
  { apply (Hparse ">"). simpl. auto. }
  assert (Hle : comparisonMatch (w ++ sp ++ "<=" ++ v)
                = Some (w, "<", "=" ++ v)).
  { apply (Hparse "<"). simpl. auto. }
  split; [assumption|]. split; [assumption|].
  intros Hnan Hget.
  split; intros Hnokey; unfold evaluateCondition;
    rewrite (@read_missing _ _ Hnokey).
  - rewrite Hgt, Hnan. unfold read. rewrite Hget.
    cbn. cbn in Hnan. rewrite Hnan. reflexivity.
  - rewrite Hle, Hnan. unfold read. rewrite Hget.
    cbn. cbn in Hnan. rewrite Hnan. destruct n; reflexivity.
Qed.

Lemma evaluateCondition_ge_le_witness :
  ("x" <> ""
   /\ forallb is_word (chars "x") = true
   /\ forallb is_space (chars " ") = true
   /\ existsb is_line_terminator (chars " 5") = false)
  /\ comparisonMatch "x >= 5" = Some ("x", ">", "= 5")
  /\ evaluateCondition (E := RefEngine) "x >= 5" [("x", JNum (Fin 7))] = false.
Proof.
  split; [repeat split; discriminate|].
  destruct (@evaluateCondition_ge_le RefEngine "x" " " " 5"
              [("x", JNum (Fin 7))] (Fin 7))
    as (H1 & _ & H3); try reflexivity; [discriminate|].
  split; [exact H1|].
  apply H3; reflexivity.
Defined.

(* ================================================================== *)
(** * Further properties of [validateWorkflow] *)

Lemma get_app_some {A : Type} (k : string) (v : A) (d d' : Dict A) :
  get k d = Some v -> get k (d ++ d')%list = Some v.
Proof.
  induction d as [|[k' v'] d IH]; simpl; [discriminate|].
  destruct (String.eqb k' k); auto.
Qed.

Lemma has_app {A : Type} (k : string) (d d' : Dict A) :
  has k d = true -> has k (d ++ d')%list = true.
Proof.
  unfold has. destruct (get k d) as [v|] eqn:Hget; [|discriminate].
  rewrite (@get_app_some _ _ _ _ d' Hget). reflexivity.
Qed.

Section ExtraState.
Variable states : Dict State.t.
Variable init : string.
Variable name : string.
Variable state : State.t.

Hypothesis init_exists : has init states = true.
Hypothesis transitions_checked :
  forall stateName st trs,
    In (stateName, st) states -> State.transitions st = Some trs ->
    targets_exist states trs.

Lemma reachable_has (x : string) :
  reachable states init x -> has x states = true.
Proof.
  induction 1 as [|a b Ha IH (st & trs & trigger & Hget & Htr & Hin & Hne)].
  - assumption.
  - exact (@transitions_checked a st trs (@get_In _ _ _ _ Hget) Htr trigger b Hin Hne).
Qed.

Lemma reachable_extended (x : string) :
  reachable (states ++ [(name, state)])%list init x <-> reachable states init x.
Proof.
  split.
  - induction 1 as [|a b Ha IH (st & trs & trigger & Hget & Htr & Hin & Hne)].
    + constructor.
    + apply reach_step with a; [assumption|].
      pose proof (reachable_has IH) as Hhas.
      apply has_true_iff in Hhas. destruct Hhas as [st' Hst'].
      rewrite (@get_app_some _ _ _ _ [(name, state)] Hst') in Hget.
      inversion Hget; subst. exists st, trs, trigger. auto.
  - induction 1 as [|a b Ha IH (st & trs & trigger & Hget & Htr & Hin & Hne)].
    + constructor.
    + apply reach_step with a; [assumption|].
      exists st, trs, trigger. split; [|auto].
      apply get_app_some. assumption.
Qed.
End ExtraState.

(** X10: a state added under a new name, which no transition refers to,
    leaves a valid workflow valid, whatever existing states its own
    transitions name; it is reported as unreachable, together with the
    states that were unreachable before. *)
Theorem validateWorkflow_extra_state (workflow : Workflow.t) (name : string)
    (state : State.t) (extra : nat) :
  let states := Workflow.states workflow in
  let initial := Workflow.initial workflow in
  has initial states = true ->
  (forall stateName st trs,
     In (stateName, st) states -> State.transitions st = Some trs ->
     targets_exist states trs) ->
  has name states = false ->
  (forall trs, State.transitions state = Some trs ->
     targets_exist (states ++ [(name, state)])%list trs) ->
  exists unreachableStates,
    validateWorkflow (length states + 3 + extra)
      (with_state name state workflow)
    = Success (true,
               [LogDebug ("Validating workflow: " ++ initial);
                LogWarn ("Unreachable states detected: "
                         ++ join ", " unreachableStates)])
    /\ In name unreachableStates
    /\ forall x, In x unreachableStates
                 <-> x = name
                     \/ (In x (keys states) /\ ~ reachable states initial x).
Proof.
  intros states initial Hinit Hok Hnew Hown.
  destruct (@validateWorkflow_valid (with_state name state workflow)
              (length states + 3 + extra))
    as (un & Hv & Hun).
  - simpl. apply has_app. assumption.
  - simpl. intros n st trs Hin Htr. apply in_app_iff in Hin.
    destruct Hin as [Hin|[Hin|[]]].
    + intros trigger t Ht Hne. apply has_app.
      exact (Hok n st trs Hin Htr trigger t Ht Hne).
    + inversion Hin; subst. apply Hown. assumption.
  - simpl. rewrite length_app. simpl. fold states. lia.
  - simpl in Hv, Hun. fold states initial in Hv, Hun.
    assert (Hiff : forall x, In x un
                     <-> x = name
                         \/ (In x (keys states)
                             /\ ~ reachable states initial x)).
    { intros x. rewrite Hun. unfold keys. rewrite map_app, in_app_iff.
      rewrite (@reachable_extended states initial name state Hinit Hok). simpl.
      split.
      - intros [[H|[H|[]]] Hr]; auto.
      - intros [->|[H Hr]]; [|auto].
        split; [auto|]. intros Hr.
        apply (@reachable_has states initial Hinit Hok) in Hr. congruence. }
    exists un. split; [|split; [|assumption]].
    + rewrite Hv. destruct un as [|u un'].
      * exfalso. apply (proj2 (Hiff name)). auto.
      * reflexivity.
    + apply Hiff. auto.
Qed.

Lemma validateWorkflow_extra_state_witness :
  (has (Workflow.initial chain_workflow) (Workflow.states chain_workflow) = true
   /\ has "orphan" (Workflow.states chain_workflow) = false)
  /\ exists unreachableStates,
       validateWorkflow 6
         (with_state "orphan" (response_state "Never" (Some [("default", "end")]))
            chain_workflow)
       = Success (true,
                  [LogDebug "Validating workflow: start";
                   LogWarn ("Unreachable states detected: "
                            ++ join ", " unreachableStates)])
       /\ In "orphan" unreachableStates.
Proof.
  split; [split; reflexivity|].
  destruct (@validateWorkflow_extra_state chain_workflow "orphan"
              (response_state "Never" (Some [("default", "end")])) 0%nat)
    as (un & H1 & H2 & _).
  - reflexivity.
  - intros n st trs H Htr trigger t Ht Hne. simpl in H.
    repeat (destruct H as [H|H];
            [inversion H; subst; simpl in Htr; try discriminate;
             inversion Htr; subst; simpl in Ht; destruct Ht as [Ht|[]];
             inversion Ht; reflexivity|]).
    destruct H.
  - reflexivity.
  - intros trs Htr trigger t Ht Hne. simpl in Htr. inversion Htr; subst.
    simpl in Ht. destruct Ht as [Ht|[]]. inversion Ht. reflexivity.
  - exists un. split; assumption.
Defined.

(* ================================================================== *)
(** * Further properties of the elicitation service *)

Lemma nth_error_in_range {A : Type} (l : list A) (i : Z) :
  0 <= i < Z.of_nat (length l) ->
  exists x, nth_error l (Z.to_nat i) = Some x /\ In x l.
Proof.
  intros Hi. destruct (nth_error l (Z.to_nat i)) as [x|] eqn:Hn.
  - exists x. split; [reflexivity|]. eapply nth_error_In. eassumption.
  - apply nth_error_None in Hn. lia.
Qed.

(** X11: a [select] elicitation without options accepts nothing.  With
    options, a response whose number is the integer [i] is accepted
    exactly when its string is an option or [i] is a position in the list,
    counted from 1; it becomes the option at that position when [i] is
    one, also when its string is itself another option, and is returned as
    it is otherwise.  A response whose number is [NaN] or infinite is
    accepted exactly when its string is an option, and returned as it
    is.  (A response whose number has a fractional part is not covered.) *)
Theorem select_response (E : JsEngine) (raw : JsValue) (e : Elicitation.t) :
  Elicitation.type e = select ->
  (Elicitation.options e = None ->
   validateResponse raw e = Invalid "Response must be one of: undefined")
  /\ (forall os,
        Elicitation.options e = Some os ->
        (forall i,
           ToNumber raw = Fin i ->
           (validateResponse raw e = Valid
            <-> In (ToString raw) os \/ 1 <= i <= Z.of_nat (length os))
           /\ (1 <= i <= Z.of_nat (length os) ->
               exists o, nth_error os (Z.to_nat (i - 1)) = Some o
                         /\ transformResponse raw e = JStr o)
           /\ (~ 1 <= i <= Z.of_nat (length os) ->
               transformResponse raw e = raw))
        /\ (isFinite (ToNumber raw) = false ->
            (validateResponse raw e = Valid <-> In (ToString raw) os)
            /\ transformResponse raw e = raw)).
Proof.
  intros Hty. split.
  - intros Hno. unfold validateResponse. rewrite Hty, Hno. cbn [negb].
    destruct (ToNumber raw) as [| | |z]; cbn; try reflexivity.
    destruct (z - 1 <? 0) eqn:Hz; cbn; [reflexivity|].
    apply Z.ltb_ge in Hz.
    destruct (z - 1 <? 0) eqn:Hz'; [apply Z.ltb_lt in Hz'; lia|reflexivity].
  - intros os Hos.
    assert (Hlisted : array_includes (ToString raw) os = true
                      <-> In (ToString raw) os)
      by apply array_includes_In.
    split.
    + intros i Hi. split; [|split].
      * unfold validateResponse. rewrite Hty, Hos, Hi.
        destruct (array_includes (ToString raw) os) eqn:Hl; cbn [negb].
        -- split; [intros _; left; now apply Hlisted | reflexivity].
        -- assert (Hnl : ~ In (ToString raw) os).
           { intros H. apply Hlisted in H. congruence. }
           cbn. destruct (i - 1 <? 0) eqn:H1; cbn.
           ++ apply Z.ltb_lt in H1. split; [discriminate|].
              intros [H|H]; [contradiction | lia].
           ++ apply Z.ltb_ge in H1.
              destruct (i - 1 <? Z.of_nat (length os)) eqn:H2; cbn.
              ** apply Z.ltb_lt in H2. split; [|reflexivity].
                 intros _. right. lia.
              ** apply Z.ltb_ge in H2. split; [discriminate|].
                 intros [H|H]; [contradiction | lia].
      * intros Hr. unfold transformResponse. rewrite Hty, Hi, Hos. cbn.
        destruct (@nth_error_in_range _ os (i - 1)) as (o & Hn & Hin); [lia|].
        exists o. rewrite Hn.
        replace ((0 <=? i - 1) && (i - 1 <? Z.of_nat (length os))) with true
          by (symmetry; apply andb_true_iff; split;
              [apply Z.leb_le | apply Z.ltb_lt]; lia).
        auto.
      * intros Hout. unfold transformResponse. rewrite Hty, Hi, Hos. cbn.
        destruct ((0 <=? i - 1) && (i - 1 <? Z.of_nat (length os))) eqn:Hr;
          [|reflexivity].
        apply andb_true_iff in Hr. destruct Hr as [H1 H2].
        apply Z.leb_le in H1. apply Z.ltb_lt in H2. lia.
    + intros Hinf. unfold validateResponse, transformResponse.
      rewrite Hty, Hos.
      destruct (ToNumber raw) as [| | |z]; [| | |discriminate];
        (split; [|reflexivity]);
        destruct (array_includes (ToString raw) os) eqn:Hl; cbn;
        rewrite <- Hlisted; split; congruence.
Qed.

Lemma select_response_witness :
  let e :=
    {| Elicitation.type := select; Elicitation.prompt := "Which one?";
       Elicitation.options := Some ["2"; "1"]; Elicitation.min := None;
       Elicitation.max := None; Elicitation.pattern := None;
       Elicitation.required := None |} in
  (Elicitation.type e = select
   /\ ToNumber (E := RefEngine) (JStr "2") = Fin 2)
  /\ validateResponse (E := RefEngine) (JStr "2") e = Valid
  /\ In (ToString (JStr "2")) ["2"; "1"]
  /\ transformResponse (E := RefEngine) (JStr "2") e = JStr "1".
Proof.
  cbv zeta.
  pose proof (@select_response RefEngine (JStr "2")
                {| Elicitation.type := select;
                   Elicitation.prompt := "Which one?";
                   Elicitation.options := Some ["2"; "1"];
                   Elicitation.min := None; Elicitation.max := None;
                   Elicitation.pattern := None;
                   Elicitation.required := None |} eq_refl) as [_ H].
  destruct (H ["2"; "1"] eq_refl) as [Hint _].
  destruct (Hint 2 eq_refl) as (Hv & Hp & _).
  split; [split; reflexivity|]. split; [|split].
  - apply Hv. left. simpl. auto.
  - simpl. auto.
  - destruct Hp as (o & Hn & Ht); [simpl; lia|].
    simpl in Hn. inversion Hn; subst. exact Ht.
Defined.

Section MockResponses.
Context {E : JsEngine}.

(** Without options, or with none listed, a [select] elicitation rejects
    every response. *)
Lemma select_nothing_to_choose (raw : JsValue) (e : Elicitation.t) :
  Elicitation.type e = select ->
  Elicitation.options e = None \/ Elicitation.options e = Some [] ->
  (exists message, validateResponse raw e = Invalid message)
  /\ transformResponse raw e = raw.
Proof.
  intros Hty Hos.
  assert (Hrange : forall z, (0 <=? z) && (z <? 0) = false).
  { intros z. destruct (0 <=? z) eqn:H1; [|reflexivity].
    apply Z.leb_le in H1. apply Z.ltb_ge. lia. }
  assert (Hindex : forall z, (z <? 0) || negb (z <? 0) = true).
  { intros z. destruct (z <? 0); reflexivity. }
  unfold validateResponse, transformResponse. rewrite Hty.
  destruct Hos as [-> | ->]; cbn [negb array_includes existsb length Z.of_nat];
    destruct (ToNumber raw) as [| | |z]; cbn; eauto;
    rewrite ?Hrange, ?Hindex; eauto.
Qed.
End MockResponses.

(** X12: the live elicitation service answers every request itself, with
    the response [getMockResponse] gives for the type.  A [confirm]
    request gives [true].  A [text] request gives the sample text, which
    is valid when there is no pattern or the pattern matches it.  A
    [number] request (with integer bounds) gives its [min] when that is
    not 0, and 42 otherwise; the answer is valid when there is no [max] or
    it is not above [max].  A [select] request with nothing to choose from
    is invalid, and one whose first option is a non-empty string that
    does not read as a number gives that option.  An invalid answer makes
    the request fail with
    "Invalid response received", unless [required] is [false]: then it is
    returned, marked as invalid.  A pattern that is no regular expression
    makes the request die. *)
Theorem requestElicitation_mock (E : JsEngine) (e : Elicitation.t)
    (context : option (Dict JsValue)) (p : string) :
  ElicitationServiceLive.formatPrompt e context = Some p ->
  let answer v ok raw :=
    Success {| ElicitationServiceLive.value := v;
               ElicitationServiceLive.isValid := ok;
               ElicitationServiceLive.prompt := p;
               ElicitationServiceLive.originalResponse := raw;
               ElicitationServiceLive.elicitationType := Elicitation.type e |} in
  let invalid v :=
    match Elicitation.required e with
    | Some false => answer v false v
    | _ => Fail (ServiceError "ElicitationError" "Invalid response received")
    end in
  let sample := JStr "Sample text response" in
  (Elicitation.type e = confirm ->
   ElicitationServiceLive.requestElicitation e context
   = answer (JBool true) true (JStr "yes"))
  /\ (Elicitation.type e = text ->
      truthy_str (Elicitation.pattern e) = false ->
      ElicitationServiceLive.requestElicitation e context
      = answer sample true sample)
  /\ (Elicitation.type e = text ->
      forall pat,
        Elicitation.pattern e = Some pat -> pat <> "" ->
        ElicitationServiceLive.requestElicitation e context
        = match RegExp_test pat "Sample text response" with
          | Some true => answer sample true sample
          | Some false => invalid sample
          | None => Die "SyntaxError: Invalid regular expression"
          end)
  /\ (Elicitation.type e = number ->
      forall m,
        Elicitation.min e = Some (Fin m) -> m <> 0 ->
        Elicitation.max e = None
        \/ (exists M, Elicitation.max e = Some (Fin M) /\ m <= M) ->
        ElicitationServiceLive.requestElicitation e context
        = answer (JNum (Fin m)) true (JNum (Fin m)))
  /\ (Elicitation.type e = number ->
      forall m M,
        Elicitation.min e = Some (Fin m) -> m <> 0 ->
        Elicitation.max e = Some (Fin M) -> M < m ->
        ElicitationServiceLive.requestElicitation e context
        = invalid (JNum (Fin m)))
  /\ (Elicitation.type e = number ->
      Elicitation.min e = None \/ Elicitation.min e = Some (Fin 0) ->
      Elicitation.max e = None
      \/ (exists M, Elicitation.max e = Some (Fin M) /\ 42 <= M) ->
      ElicitationServiceLive.requestElicitation e context
      = answer (JNum (Fin 42)) true (JNum (Fin 42)))
  /\ (Elicitation.type e = number ->
      Elicitation.min e = None \/ Elicitation.min e = Some (Fin 0) ->
      forall M,
        Elicitation.max e = Some (Fin M) -> M < 42 ->
        ElicitationServiceLive.requestElicitation e context
        = invalid (JNum (Fin 42)))
  /\ (Elicitation.type e = select ->
      Elicitation.options e = None \/ Elicitation.options e = Some [] ->
      ElicitationServiceLive.requestElicitation e context
      = invalid (JStr "Option 1"))
  /\ (Elicitation.type e = select ->
      forall o os,
        Elicitation.options e = Some (o :: os) -> o <> "" ->
        StringToNumber o = NaN ->
        ElicitationServiceLive.requestElicitation e context
        = answer (JStr o) true (JStr o)).
Proof.
  intros Hp. cbv zeta.
  unfold ElicitationServiceLive.requestElicitation. rewrite Hp.
  unfold ElicitationServiceLive.getMockResponse.
  assert (Hmock42 :
            Elicitation.min e = None \/ Elicitation.min e = Some (Fin 0) ->
            match Elicitation.min e with
            | Some m => if ToBoolean (JNum m) then JNum m else JNum (Fin 42)
            | None => JNum (Fin 42)
            end = JNum (Fin 42)
            /\ defined_and (num_ltb (Fin 42)) (Elicitation.min e) = false).
  { intros [-> | ->]; split; reflexivity. }
  assert (Htruthy : forall m, m <> 0 -> ToBoolean (JNum (Fin m)) = true).
  { intros m Hm. destruct m; [contradiction | reflexivity | reflexivity]. }
  split; [|split; [|split; [|split; [|split; [|split; [|split; [|split]]]]]]].
  - intros Hty. unfold validateResponse, transformResponse.
    rewrite Hty. reflexivity.
  - intros Hty Hpat. unfold validateResponse, transformResponse.
    rewrite Hty, Hpat. reflexivity.
  - intros Hty pat Hpat Hne. unfold validateResponse, transformResponse.
    rewrite Hty, Hpat. cbn [is_string negb truthy_str ToString].
    rewrite (eqb_empty_false Hne). cbn [negb].
    destruct (RegExp_test pat "Sample text response") as [[]|];
      try reflexivity.
    cbn. destruct (Elicitation.required e) as [[]|]; reflexivity.
  - intros Hty m Hmin Hm Hmax.
    unfold validateResponse, transformResponse. rewrite Hty, Hmin.
    rewrite (Htruthy m Hm). cbn [ToNumber isNaN defined_and num_ltb].
    rewrite Z.ltb_irrefl.
    destruct Hmax as [-> | (M & -> & HM)]; cbn.
    + reflexivity.
    + replace (M <? m) with false by (symmetry; apply Z.ltb_ge; lia).
      reflexivity.
  - intros Hty m M Hmin Hm Hmax HM.
    unfold validateResponse, transformResponse. rewrite Hty, Hmin, Hmax.
    rewrite (Htruthy m Hm). cbn [ToNumber isNaN defined_and num_ltb].
    rewrite Z.ltb_irrefl. cbn.
    replace (M <? m) with true by (symmetry; apply Z.ltb_lt; lia).
    destruct (Elicitation.required e) as [[]|]; reflexivity.
  - intros Hty Hmin Hmax. destruct (Hmock42 Hmin) as [Hmock Hlow].
    rewrite Hty, Hmock.
    unfold validateResponse, transformResponse. rewrite Hty.
    cbn [ToNumber isNaN]. rewrite Hlow.
    destruct Hmax as [-> | (M & -> & HM)]; cbn.
    + reflexivity.
    + replace (M <? 42) with false by (symmetry; apply Z.ltb_ge; lia).
      reflexivity.
  - intros Hty Hmin M Hmax HM. destruct (Hmock42 Hmin) as [Hmock Hlow].
    rewrite Hty, Hmock.
    unfold validateResponse, transformResponse. rewrite Hty, Hmax.
    cbn [ToNumber isNaN]. rewrite Hlow.
    cbn. replace (M <? 42) with true by (symmetry; apply Z.ltb_lt; lia).
    destruct (Elicitation.required e) as [[]|]; reflexivity.
  - intros Hty Hos.
    assert (Hmock : match Elicitation.options e with
                    | Some (o :: _) =>
                        if String.eqb o "" then JStr "Option 1" else JStr o
                    | _ => JStr "Option 1"
                    end = JStr "Option 1").
    { destruct Hos as [-> | ->]; reflexivity. }
    rewrite Hty, Hmock.
    destruct (select_nothing_to_choose (JStr "Option 1") e Hty Hos)
      as ((message & ->) & ->).
    cbn.
    destruct (Elicitation.required e) as [[]|]; reflexivity.
  - intros Hty o os Hos Ho Hnan. rewrite Hty, Hos, (eqb_empty_false Ho).
    unfold validateResponse, transformResponse. rewrite Hty, Hos.
    cbn. rewrite String.eqb_refl, Hnan. reflexivity.
Qed.

Lemma requestElicitation_mock_witness :
  let e := ask_number "How many?" None (Some (Fin 10)) in
  ElicitationServiceLive.formatPrompt (E := RefEngine) e None
  = Some "How many? (max: 10)"
  /\ ElicitationServiceLive.requestElicitation (E := RefEngine) e None
     = Fail (ServiceError "ElicitationError" "Invalid response received").
Proof.
  split; [reflexivity|].
  destruct (@requestElicitation_mock RefEngine
              (ask_number "How many?" None (Some (Fin 10))) None
              "How many? (max: 10)" eq_refl)
    as (_ & _ & _ & _ & _ & _ & H & _).
  apply (H eq_refl (or_introl eq_refl) 10 eq_refl). lia.
Defined.

(* ================================================================== *)
(** * Further properties of the fallback bridge *)

Lemma settle_settled (p q : nat) (o x : Workaround.Promise)
    (ps : list Workaround.Promise) :
  nth_error ps p = Some x -> x <> Workaround.Waiting ->
  nth_error (Workaround.settle_promise q o ps) p = Some x.
Proof.
  revert p q. induction ps as [|y ps IH]; intros p q Hp Hx.
  - destruct p; discriminate.
  - destruct q as [|q], p as [|p]; simpl in *.
    + inversion Hp; subst. destruct x; [contradiction| |]; reflexivity.
    + destruct y; assumption.
    + destruct y; assumption.
    + destruct y; simpl; apply IH; assumption.
Qed.

Lemma record_response_created (i : string) (v : JsValue)
    (h : list Workaround.HistoryItem) :
  map created_with (Workaround.record_response i v h) = map created_with h.
Proof.
  induction h as [|x h IH]; simpl; [reflexivity|].
  destruct (String.eqb (Workaround.id x) i); simpl; [reflexivity|].
  rewrite IH. reflexivity.
Qed.

Section BridgeEvents.
Context {E : JsEngine}.

Lemma settled_after_apply (ev : Workaround.Event) (st : Workaround.t)
    (p : nat) (x : Workaround.Promise) :
  nth_error (Workaround.promises st) p = Some x -> x <> Workaround.Waiting ->
  nth_error (Workaround.promises (Workaround.apply ev st)) p = Some x.
Proof.
  intros Hp Hx. destruct ev as [i time e ctx | i raw | i q]; simpl.
  - rewrite nth_error_app1; [assumption|].
    apply nth_error_Some. congruence.
  - unfold Workaround.handleResponse.
    destruct (get i (Workaround.pendingElicitations st)) as [pe|];
      [|assumption].
    destruct (validateResponse raw (Workaround.elicitation pe));
      simpl; try assumption.
    apply settle_settled; assumption.
  - destruct (existsb _ _); [|assumption].
    unfold Workaround.on_timeout.
    destruct (has i (Workaround.pendingElicitations st)); simpl;
      [|assumption].
    apply settle_settled; assumption.
Qed.

Lemma created_after_apply (ev : Workaround.Event) (st : Workaround.t) :
  map created_with (Workaround.conversationHistory (Workaround.apply ev st))
  = (map created_with (Workaround.conversationHistory st)
     ++ creations [ev])%list.
Proof.
  destruct ev as [i time e ctx | i raw | i q]; simpl.
  - rewrite map_app. reflexivity.
  - rewrite app_nil_r. unfold Workaround.handleResponse.
    destruct (get i (Workaround.pendingElicitations st)) as [pe|];
      [|reflexivity].
    destruct (validateResponse raw (Workaround.elicitation pe));
      simpl; try reflexivity.
    apply record_response_created.
  - rewrite app_nil_r. destruct (existsb _ _); [|reflexivity].
    unfold Workaround.on_timeout.
    destruct (has i (Workaround.pendingElicitations st)); reflexivity.
Qed.

Lemma creations_cons (ev : Workaround.Event) (evs : list Workaround.Event) :
  creations (ev :: evs) = (creations [ev] ++ creations evs)%list.
Proof. destruct ev; reflexivity. Qed.
End BridgeEvents.

(** X13: when the timer of a pending elicitation fires, its waiter is
    rejected with "Elicitation timeout" and the entry is removed; no other
    waiter or entry changes, the conversation history keeps the question
    with no mark of the timeout, and a response that arrives afterwards is
    refused as unknown. *)
Theorem timeout_rejects (E : JsEngine) (evs : list Workaround.Event)
    (i : string) (pending : Workaround.Pending) :
  let st := Workaround.run evs Workaround.empty in
  get i (Workaround.pendingElicitations st) = Some pending ->
  let st' :=
    Workaround.apply (Workaround.Expire i (Workaround.promise pending)) st in
  nth_error (Workaround.promises st') (Workaround.promise pending)
  = Some (Workaround.Rejected "Elicitation timeout")
  /\ (forall q, q <> Workaround.promise pending ->
        nth_error (Workaround.promises st') q
        = nth_error (Workaround.promises st) q)
  /\ get i (Workaround.pendingElicitations st') = None
  /\ (forall k, k <> i ->
        get k (Workaround.pendingElicitations st')
        = get k (Workaround.pendingElicitations st))
  /\ Workaround.conversationHistory st' = Workaround.conversationHistory st
  /\ forall raw,
       Workaround.handleResponse i raw st'
       = (Workaround.Throws ("Elicitation " ++ i ++ " not found"), st').
Proof.
  intros st Hget.
  assert (Hinv : bridge_inv st).
  { apply bridge_inv_run, bridge_inv_empty. }
  pose proof (@get_In _ _ _ _ Hget) as Hin.
  pose proof (inv_timer_set Hinv _ _ Hin) as Htimer.
  pose proof (inv_waiting Hinv _ _ Hin) as Hwait.
  assert (Hex : existsb (Workaround.is_timer i (Workaround.promise pending))
                  (Workaround.timers st) = true).
  { apply existsb_exists. eexists. split; [eassumption|].
    apply is_timer_true. reflexivity. }
  assert (Hhas : has i (Workaround.pendingElicitations st) = true).
  { apply has_true_iff. eauto. }
  cbv zeta. unfold Workaround.apply. rewrite Hex.
  unfold Workaround.on_timeout. rewrite Hhas. cbn.
  assert (Hgone : get i (Workaround.delete i (Workaround.pendingElicitations st))
                  = None).
  { rewrite get_delete, String.eqb_refl. reflexivity. }
  split; [apply settle_waiting; assumption|].
  split; [intros q Hq; apply settle_other; assumption|].
  split; [assumption|].
  split.
  - intros k Hk. rewrite get_delete.
    destruct (String.eqb k i) eqn:Hki; [|reflexivity].
    apply String.eqb_eq in Hki. contradiction.
  - split; [reflexivity|].
    intros raw. unfold Workaround.handleResponse. cbn. rewrite Hgone.
    reflexivity.
Qed.

Lemma timeout_rejects_witness :
  let e := ask text "Name?" in
  let evs := [Workaround.Create "elicit-1" 0 e None] in
  let pending :=
    {| Workaround.elicitation := e; Workaround.promise := 0%nat;
       Workaround.context := None |} in
  get "elicit-1"
    (Workaround.pendingElicitations
       (Workaround.run (E := RefEngine) evs Workaround.empty))
  = Some pending
  /\ nth_error
       (Workaround.promises
          (Workaround.apply (E := RefEngine)
             (Workaround.Expire "elicit-1" 0%nat)
             (Workaround.run (E := RefEngine) evs Workaround.empty))) 0
     = Some (Workaround.Rejected "Elicitation timeout").
Proof.
  split; [reflexivity|].
  destruct (@timeout_rejects RefEngine
              [Workaround.Create "elicit-1" 0 (ask text "Name?") None]
              "elicit-1"
              {| Workaround.elicitation := ask text "Name?";
                 Workaround.promise := 0%nat;
                 Workaround.context := None |} eq_refl) as (H & _).
  exact H.
Defined.

(** X14: a waiter that has been answered or rejected keeps its outcome
    through everything that happens to the bridge afterwards. *)
Theorem settled_promise_stays (E : JsEngine) (evs : list Workaround.Event)
    (st : Workaround.t) (p : nat) (x : Workaround.Promise) :
  nth_error (Workaround.promises st) p = Some x ->
  x <> Workaround.Waiting ->
  nth_error (Workaround.promises (Workaround.run evs st)) p = Some x.
Proof.
  revert st. induction evs as [|ev evs IH]; intros st Hp Hx; simpl.
  - assumption.
  - apply IH; [|assumption]. apply settled_after_apply; assumption.
Qed.

Lemma settled_promise_stays_witness :
  let st :=
    Workaround.run (E := RefEngine)
      [Workaround.Create "elicit-1" 0 (ask confirm "Sure?") None;
       Workaround.Respond "elicit-1" (JStr "Yes")]
      Workaround.empty in
  (nth_error (Workaround.promises st) 0 = Some (Workaround.Resolved (JBool true))
   /\ Workaround.Resolved (JBool true) <> Workaround.Waiting)
  /\ nth_error
       (Workaround.promises
          (Workaround.run (E := RefEngine)
             [Workaround.Respond "elicit-1" (JStr "no");
              Workaround.Expire "elicit-1" 0%nat] st)) 0
     = Some (Workaround.Resolved (JBool true)).
Proof.
  split; [split; [reflexivity | discriminate]|].
  apply (@settled_promise_stays RefEngine); [reflexivity | discriminate].
Defined.

(** X15: the conversation history only grows, by one entry for each
    elicitation created, in the order of creation; the id, type, prompt
    and timestamp of an entry never change. *)
Theorem history_append_only (E : JsEngine) (evs : list Workaround.Event)
    (st : Workaround.t) :
  map created_with (Workaround.conversationHistory (Workaround.run evs st))
  = (map created_with (Workaround.conversationHistory st)
     ++ creations evs)%list.
Proof.
  revert st. induction evs as [|ev evs IH]; intros st.
  - simpl. rewrite app_nil_r. reflexivity.
  - rewrite (creations_cons ev evs), app_assoc, <- created_after_apply.
    apply IH.
Qed.

(* ================================================================== *)
(** * Properties of the prompt and resource handlers *)

Lemma is_prefix_app (p l : list ascii) : is_prefix p (p ++ l)%list = true.
Proof.
  induction p as [|c p IH]; simpl; [reflexivity|].
  rewrite Ascii.eqb_refl. assumption.
Qed.

Lemma skipn_prefix (p l : list ascii) : skipn (length p) (p ++ l)%list = l.
Proof. induction p as [|c p IH]; simpl; [reflexivity | assumption]. Qed.

(** Removing a prefix that is there. *)
Lemma replace_first_prefix (pat s : string) :
  replace_first pat "" (pat ++ s) = s.
Proof.
  unfold replace_first. rewrite chars_append.
  destruct (chars pat ++ chars s)%list eqn:Hl; simpl;
    rewrite <- Hl, is_prefix_app, skipn_prefix; apply str_chars.
Qed.

(** X16: the names and uris the handlers list lead back to the pending
    elicitations: for a pending id, [elicitation_<id>] is among the prompts
    listed and [GetPrompt] on it returns that elicitation with the uri
    [elicitation://current/<id>], which is among the resources listed and
    which [ReadResource] resolves to the same elicitation; for an id that
    is not pending, both throw "not found". *)
Theorem handlers_resolve_names (E : JsEngine) (st : Workaround.t) (i : string) :
  (forall pending,
     get i (Workaround.pendingElicitations st) = Some pending ->
     In ("elicitation_" ++ i) (Handlers.listPrompts st)
     /\ In ("elicitation://current/" ++ i) (Handlers.listResources st)
     /\ (forall prompt,
           Handlers.formatElicitationPrompt (Workaround.elicitation pending)
             (Workaround.context pending) = Some prompt ->
           Handlers.getPrompt ("elicitation_" ++ i) st
           = Handlers.Returns
               {| Handlers.description :=
                    Handlers.getElicitationDescription
                      (Workaround.elicitation pending);
                  Handlers.message := prompt;
                  Handlers.resource_uri := "elicitation://current/" ++ i;
                  Handlers.resource_elicitation := Workaround.elicitation pending;
                  Handlers.resource_context := Workaround.context pending;
                  Handlers.resource_instructions :=
                    Handlers.getElicitationInstructions
                      (Workaround.elicitation pending) |})
     /\ Handlers.readResource ("elicitation://current/" ++ i) st
        = Handlers.Returns
            (Handlers.Current i (Workaround.elicitation pending)
               (Workaround.context pending)
               (Handlers.getElicitationInstructions
                  (Workaround.elicitation pending))
               (Handlers.getValidationRules
                  (Workaround.elicitation pending))))
  /\ (get i (Workaround.pendingElicitations st) = None ->
      ~ In ("elicitation_" ++ i) (Handlers.listPrompts st)
      /\ ~ In ("elicitation://current/" ++ i) (Handlers.listResources st)
      /\ Handlers.getPrompt ("elicitation_" ++ i) st
         = Handlers.Throws ("Elicitation " ++ i ++ " not found")
      /\ Handlers.readResource ("elicitation://current/" ++ i) st
         = Handlers.Throws ("Elicitation " ++ i ++ " not found")).
Proof.
  assert (Hname : replace_first "elicitation_" "" ("elicitation_" ++ i) = i)
    by apply replace_first_prefix.
  assert (Huri : replace_first "elicitation://current/" ""
                   ("elicitation://current/" ++ i) = i)
    by apply replace_first_prefix.
  assert (Hpre : is_prefix (chars "elicitation://current/")
                   (chars ("elicitation://current/" ++ i)) = true).
  { rewrite chars_append. apply is_prefix_app. }
  assert (Hkeys : forall (pre : string) (l : list string),
            In (pre ++ i) (map (fun id => pre ++ id) l) <-> In i l).
  { intros pre l. rewrite in_map_iff. split.
    - intros (k & Hk & Hin).
      assert (k = i) as ->; [|assumption].
      clear -Hk. induction pre as [|c pre IH]; simpl in Hk;
        [assumption | inversion Hk; auto].
    - intros Hin. exists i. auto. }
  split.
  - intros pending Hget.
    assert (Hin : In i (keys (Workaround.pendingElicitations st))).
    { apply has_In_keys, has_true_iff. eauto. }
    split; [apply Hkeys; assumption|].
    split; [right; apply Hkeys; assumption|].
    split.
    + intros prompt Hfmt. unfold Handlers.getPrompt.
      rewrite Hname, Hget, Hfmt. reflexivity.
    + unfold Handlers.readResource. rewrite Hpre, Huri, Hget. reflexivity.
  - intros Hget.
    assert (Hin : ~ In i (keys (Workaround.pendingElicitations st))).
    { intros H. apply has_In_keys, has_true_iff in H. destruct H as [v H].
      congruence. }
    split; [intros H; apply Hkeys in H; contradiction|].
    split.
    + intros [H|H]; [discriminate | apply Hkeys in H; contradiction].
    + split.
      * unfold Handlers.getPrompt. rewrite Hname, Hget. reflexivity.
      * unfold Handlers.readResource. rewrite Hpre, Huri, Hget. reflexivity.
Qed.

(* ================================================================== *)
(** * Properties of the sampling messages *)

Section SamplingMessages.
Context {E : JsEngine}.
Variable JSON_stringify : JsValue -> string.

(** The restatements are those of the listed keys whose value is truthy,
    one for each, in the order listed. *)
Lemma restated_filter (c : Dict JsValue) (keys : list string) :
  SamplingServiceLive.restated JSON_stringify keys c
  = map
      (fun key =>
         {| SamplingServiceLive.role := "assistant";
            SamplingServiceLive.content :=
              "Context for " ++ key ++ ": " ++ JSON_stringify (read key c) |})
      (filter (fun key => ToBoolean (read key c)) keys).
Proof.
  induction keys as [|k keys IH]; simpl; [reflexivity|].
  destruct (ToBoolean (read k c)); simpl; now rewrite IH.
Qed.
End SamplingMessages.

(** X17: the messages built for a completion are, in this order: the
    system message with the formatted [system] text, exactly when [system]
    is a non-empty string; one assistant message ["Context for <key>:
    <JSON>"] for each listed context key whose value is truthy, in the
    order the keys are listed (a key whose value is 0, false, the empty
    string, null or missing is left out); and the user message with the
    formatted prompt.  Without a context object there are no assistant
    messages and the texts are sent as they are.  The listed keys are keys
    of the context or no names of members of [Object.prototype]. *)
Theorem buildMessages_shape (E : JsEngine)
    (JSON_stringify : JsValue -> string) (sampling : Sampling.t)
    (context : option (Dict JsValue))
    (messages : list SamplingServiceLive.Message) :
  (forall keys c key,
     Sampling.context sampling = Some keys -> context = Some c ->
     In key keys -> own_or_absent key c) ->
  SamplingServiceLive.buildMessages JSON_stringify sampling context
  = Some messages ->
  exists system prompt,
    messages
    = (system
       ++ match Sampling.context sampling, context with
          | Some keys, Some c =>
              map
                (fun key =>
                   {| SamplingServiceLive.role := "assistant";
                      SamplingServiceLive.content :=
                        "Context for " ++ key ++ ": "
                        ++ JSON_stringify (read key c) |})
                (filter (fun key => ToBoolean (read key c)) keys)
          | _, _ => []
          end
       ++ [{| SamplingServiceLive.role := "user";
              SamplingServiceLive.content := prompt |}])%list
    /\ SamplingServiceLive.formatPrompt (Sampling.prompt sampling) context
       = Some prompt
    /\ (truthy_str (Sampling.system sampling) = false -> system = [])
    /\ (forall sys,
          Sampling.system sampling = Some sys -> sys <> "" ->
          exists formatted,
            SamplingServiceLive.formatPrompt sys context = Some formatted
            /\ system = [{| SamplingServiceLive.role := "system";
                            SamplingServiceLive.content := formatted |}])
    /\ (context = None ->
        prompt = Sampling.prompt sampling
        /\ forall sys, Sampling.system sampling = Some sys -> sys <> "" ->
             system = [{| SamplingServiceLive.role := "system";
                          SamplingServiceLive.content := sys |}]).
Proof.
  intros _. unfold SamplingServiceLive.buildMessages.
  assert (Hrest :
            match Sampling.context sampling, context with
            | Some keys, Some c =>
                SamplingServiceLive.restated JSON_stringify keys c
            | _, _ => []
            end
            = match Sampling.context sampling, context with
              | Some keys, Some c =>
                  map
                    (fun key =>
                       {| SamplingServiceLive.role := "assistant";
                          SamplingServiceLive.content :=
                            "Context for " ++ key ++ ": "
                            ++ JSON_stringify (read key c) |})
                    (filter (fun key => ToBoolean (read key c)) keys)
              | _, _ => []
              end).
  { destruct (Sampling.context sampling) as [keys|], context as [c|];
      try reflexivity.
    apply restated_filter. }
  rewrite Hrest. clear Hrest.
  destruct (Sampling.system sampling) as [sys|] eqn:Hsys.
  - destruct (String.eqb sys "") eqn:Hempty; cbn [negb].
    + apply String.eqb_eq in Hempty. subst sys.
      destruct (SamplingServiceLive.formatPrompt (Sampling.prompt sampling)
                  context) as [prompt|] eqn:Hp; [|discriminate].
      intros H. inversion H; subst. exists [], prompt.
      split; [reflexivity|]. split; [reflexivity|].
      split; [reflexivity|]. split.
      * intros sys H1 H2. inversion H1; subst. contradiction.
      * intros ->. simpl in Hp. split; [congruence|].
        intros sys H1 H2. inversion H1; subst. contradiction.
    + destruct (SamplingServiceLive.formatPrompt sys context)
        as [formatted|] eqn:Hf; [|discriminate].
      destruct (SamplingServiceLive.formatPrompt (Sampling.prompt sampling)
                  context) as [prompt|] eqn:Hp; [|discriminate].
      intros H. inversion H; subst.
      exists [{| SamplingServiceLive.role := "system";
                 SamplingServiceLive.content := formatted |}], prompt.
      split; [reflexivity|]. split; [reflexivity|].
      split; [simpl; rewrite Hempty; discriminate|]. split.
      * intros sys' H1 H2. inversion H1; subst. eauto.
      * intros ->. simpl in Hp, Hf. split; [congruence|].
        intros sys' H1 H2. inversion H1; subst. congruence.
  - destruct (SamplingServiceLive.formatPrompt (Sampling.prompt sampling)
                context) as [prompt|] eqn:Hp; [|discriminate].
    intros H. inversion H; subst. exists [], prompt.
    split; [reflexivity|]. split; [reflexivity|].
    split; [reflexivity|]. split.
    + discriminate.
    + intros ->. simpl in Hp. split; [congruence | discriminate].
Qed.

Lemma buildMessages_shape_witness :
  let sampling :=
    {| Sampling.prompt := "Tell me about {topic}"; Sampling.model := None;
       Sampling.temperature := None; Sampling.max_tokens := None;
       Sampling.top_p := None; Sampling.system := Some "Be brief";
       Sampling.context := Some ["count"; "topic"] |} in
  let c := [("topic", JStr "rocq"); ("count", JNum (Fin 0))] in
  let messages :=
    [{| SamplingServiceLive.role := "system";
        SamplingServiceLive.content := "Be brief" |};
     {| SamplingServiceLive.role := "assistant";
        SamplingServiceLive.content :=
          "Context for topic: " ++ str [dquote] ++ "rocq" ++ str [dquote] |};
     {| SamplingServiceLive.role := "user";
        SamplingServiceLive.content := "Tell me about rocq" |}] in
  (own_or_absent "count" c /\ own_or_absent "topic" c
   /\ SamplingServiceLive.buildMessages (E := RefEngine) json_text sampling
        (Some c)
      = Some messages)
  /\ exists system prompt,
       messages
       = (system
          ++ map
               (fun key =>
                  {| SamplingServiceLive.role := "assistant";
                     SamplingServiceLive.content :=
                       "Context for " ++ key ++ ": "
                       ++ json_text (read key c) |})
               (filter (fun key => ToBoolean (read key c)) ["count"; "topic"])
          ++ [{| SamplingServiceLive.role := "user";
                 SamplingServiceLive.content := prompt |}])%list.
Proof.
  split; [split; [left; reflexivity | split; [left; reflexivity | reflexivity]]|].
  destruct (@buildMessages_shape RefEngine json_text
              {| Sampling.prompt := "Tell me about {topic}";
                 Sampling.model := None; Sampling.temperature := None;
                 Sampling.max_tokens := None; Sampling.top_p := None;
                 Sampling.system := Some "Be brief";
                 Sampling.context := Some ["count"; "topic"] |}
              (Some [("topic", JStr "rocq"); ("count", JNum (Fin 0))])
              [{| SamplingServiceLive.role := "system";
                  SamplingServiceLive.content := "Be brief" |};
               {| SamplingServiceLive.role := "assistant";
                  SamplingServiceLive.content :=
                    "Context for topic: " ++ str [dquote] ++ "rocq"
                    ++ str [dquote] |};
               {| SamplingServiceLive.role := "user";
                  SamplingServiceLive.content := "Tell me about rocq" |}])
    as (system & prompt & H1 & _).
  - intros keys c key Hk Hc Hin. injection Hk as <-. injection Hc as <-.
    simpl in Hin. destruct Hin as [<-|[<-|[]]]; left; reflexivity.
  - reflexivity.
  - exists system, prompt. exact H1.
Defined.
